(** * The document similarity search core of the insurance chatbot

    A shallow embedding of [SimpleVectorStore] (src/scraper.js) and of
    [VectorStore] (src/vector_embeddings.js), with the properties of the
    search core stated over it.

    Conventions of the embedding:
    - a JavaScript Number is a binary64 float, Rocq's primitive [float];
      arithmetic, comparison and [Math.sqrt] are the IEEE 754 operations;
    - a JavaScript string is a [string] whose characters are read as the
      code points U+0000 to U+00FF;
    - an array is a [list]; reading past its end gives [undefined], which is
      written out at each use;
    - a plain object used as a map ([wordCount]) keeps its own properties in
      creation order and falls back to [Object.prototype] on a miss, as the
      language defines [obj[key]];
    - a call that may throw returns a [completion]. *)

From Stdlib Require Import List String Ascii Bool Arith ZArith NArith Lia.
From Stdlib Require Import Floats Uint63 Permutation.
Import ListNotations.

Set Implicit Arguments.
(* [0.1] below denotes the binary64 value nearest to one tenth, as the same
   literal does in the source. *)
Set Warnings "-inexact-float,-register-all".
Local Open Scope string_scope.
Local Open Scope list_scope.

(** ** JavaScript numbers *)

Module Num.

Definition number := float.

(** An array length, a count or an index read as a Number (exact below 2^53,
    and a JavaScript string or array is shorter than that). *)
Definition of_nat (n : nat) : number :=
  PrimFloat.of_uint63 (Uint63.of_Z (Z.of_nat n)).

(** [ToBoolean] on a Number: [NaN], [+0] and [-0] are falsy. *)
Definition truthy (x : number) : bool :=
  negb (PrimFloat.is_nan x || PrimFloat.is_zero x).

(** [x || 0] on a Number. *)
Definition or_zero (x : number) : number :=
  if truthy x then x else PrimFloat.zero.

(** [x > y]. *)
Definition gtb (x y : number) : bool := PrimFloat.ltb y x.

End Num.

(** ** JavaScript strings *)

Module Str.

Definition code (c : ascii) : nat := nat_of_ascii c.

Definition between (lo hi : nat) (c : ascii) : bool :=
  (lo <=? code c)%nat && (code c <=? hi)%nat.

Definition is_digit (c : ascii) : bool := between 48 57 c.

(** The class [\w] of a regular expression without the [u] and [i] flags:
    [A-Za-z0-9_]. *)
Definition is_word_char (c : ascii) : bool :=
  between 65 90 c || between 97 122 c || is_digit c || (code c =? 95)%nat.

(** White space and line terminators, the characters [trim] removes
    (TAB, LF, VT, FF, CR, SP and NBSP below U+0100). *)
Definition is_space (c : ascii) : bool :=
  between 9 13 c || (code c =? 32)%nat || (code c =? 160)%nat.

(** [toLowerCase] on one character: A-Z, and the Latin-1 capitals
    U+00C0-U+00DE apart from the multiplication sign U+00D7. *)
Definition lower_char (c : ascii) : ascii :=
  if between 65 90 c then ascii_of_nat (code c + 32)
  else if between 192 222 c && negb (code c =? 215)%nat
       then ascii_of_nat (code c + 32)
       else c.

Fixpoint toLowerCase (s : string) : string :=
  match s with
  | EmptyString => EmptyString
  | String c r => String (lower_char c) (toLowerCase r)
  end.

Fixpoint reverse_onto (s acc : string) : string :=
  match s with
  | EmptyString => acc
  | String c r => reverse_onto r (String c acc)
  end.

Definition reverse (s : string) : string := reverse_onto s EmptyString.

Fixpoint trimStart (s : string) : string :=
  match s with
  | EmptyString => EmptyString
  | String c r => if is_space c then trimStart r else s
  end.

Definition trimEnd (s : string) : string := reverse (trimStart (reverse s)).

Definition trim (s : string) : string := trimEnd (trimStart s).

Fixpoint all_chars (p : ascii -> bool) (s : string) : bool :=
  match s with
  | EmptyString => true
  | String c r => p c && all_chars p r
  end.

(** [s.match(/\b\w+\b/g) || []]: the maximal runs of word characters, left to
    right.  [cur] holds the run being read, reversed. *)
Fixpoint match_words_from (s : string) (cur : string) : list string :=
  match s with
  | EmptyString =>
      match cur with EmptyString => [] | _ => [reverse cur] end
  | String c r =>
      if is_word_char c then match_words_from r (String c cur)
      else match cur with
           | EmptyString => match_words_from r EmptyString
           | _ => reverse cur :: match_words_from r EmptyString
           end
  end.

Definition match_words (s : string) : list string :=
  match_words_from s EmptyString.

(** [s.split(/[.!?]+/)]: the pieces between the maximal runs of sentence
    punctuation.  A run at either end leaves an empty piece there, and a
    string without punctuation is its own single piece.  [in_sep] tells that
    the previous character belonged to a run. *)
Definition is_terminator (c : ascii) : bool :=
  (code c =? 46)%nat || (code c =? 33)%nat || (code c =? 63)%nat.

Fixpoint split_from (s : string) (cur : string) (in_sep : bool) : list string :=
  match s with
  | EmptyString => [reverse cur]
  | String c r =>
      if is_terminator c then
        if in_sep then split_from r EmptyString true
        else reverse cur :: split_from r EmptyString true
      else split_from r (String c cur) false
  end.

Definition split_sentences (s : string) : list string :=
  split_from s EmptyString false.

(** [arr.includes(w)] and [arr.indexOf(w)] on an array of strings. *)
Definition includes (l : list string) (w : string) : bool :=
  existsb (String.eqb w) l.

Fixpoint indexOf (l : list string) (w : string) : option nat :=
  match l with
  | [] => None
  | x :: r => if String.eqb x w then Some 0
              else option_map S (indexOf r w)
  end.

(** The decimal value of a string of digits. *)
Fixpoint digits_value (s : string) (acc : N) : N :=
  match s with
  | EmptyString => acc
  | String c r => digits_value r (acc * 10 + N.of_nat (code c - 48))%N
  end.

End Str.

(** ** Plain objects used as maps

    [const wordCount = {}] creates an ordinary object whose prototype is
    [Object.prototype].  Reading [wordCount[key]] returns the own property
    when there is one and otherwise what [Object.prototype] holds under that
    name; only a name found nowhere reads as [undefined]. *)

Module Obj.

Import Num Str.

(** The primitives the embedder stores in and reads from [wordCount]. *)
Inductive prim :=
| PNum (x : number)
| PStr (s : string).

(** What [wordCount[key]] may evaluate to. *)
Inductive value :=
| VUndefined
| VPrim (p : prim)
| VFunction (name : string)      (* a built-in function object *)
| VObjectPrototype.              (* the object [Object.prototype] itself *)

(** Own properties in creation order. *)
Definition object := list (string * prim).

(** The properties of [Object.prototype]: the constructor, its methods, and
    the accessor [__proto__], whose getter returns the prototype of the
    receiver (here [Object.prototype]). *)
Definition Object_prototype_get (key : string) : value :=
  if String.eqb key "constructor" then VFunction "Object"
  else if String.eqb key "__proto__" then VObjectPrototype
  else if existsb (String.eqb key)
            ["hasOwnProperty"; "isPrototypeOf"; "propertyIsEnumerable";
             "toLocaleString"; "toString"; "valueOf";
             "__defineGetter__"; "__defineSetter__";
             "__lookupGetter__"; "__lookupSetter__"]
       then VFunction key
       else VUndefined.

Fixpoint own (o : object) (key : string) : option prim :=
  match o with
  | [] => None
  | (k, v) :: r => if String.eqb k key then Some v else own r key
  end.

(** [o[key]] *)
Definition get (o : object) (key : string) : value :=
  match own o key with
  | Some p => VPrim p
  | None => Object_prototype_get key
  end.

Fixpoint update (o : object) (key : string) (v : prim) : object :=
  match o with
  | [] => [(key, v)]
  | (k, w) :: r =>
      if String.eqb k key then (k, v) :: r else (k, w) :: update r key v
  end.

(** [o[key] = v] for a primitive [v].  Every name but [__proto__] is a
    writable data property or absent, so the assignment creates or updates
    the own property.  [__proto__] is the accessor of [Object.prototype]:
    its setter ignores a value that is neither an object nor [null], and
    no own property is created. *)
Definition set (o : object) (key : string) (v : prim) : object :=
  if String.eqb key "__proto__" then o else update o key v.

(** [ToBoolean] *)
Definition truthy (v : value) : bool :=
  match v with
  | VUndefined => false
  | VPrim (PNum x) => Num.truthy x
  | VPrim (PStr s) => negb (String.eqb s "")
  | VFunction _ | VObjectPrototype => true
  end.

(** [v || 0] *)
Definition or_zero (v : value) : value :=
  if truthy v then v else VPrim (PNum PrimFloat.zero).

(** [ToPrimitive]: a built-in function prints its source placeholder, and
    [Object.prototype] prints as any plain object does. *)
Definition to_primitive (v : value) : option prim :=
  match v with
  | VUndefined => None
  | VPrim p => Some p
  | VFunction name => Some (PStr ("function " ++ name ++ "() { [native code] }"))
  | VObjectPrototype => Some (PStr "[object Object]")
  end.

(** [v + 1]: string concatenation as soon as the left operand is converted
    to a string, numeric addition otherwise ([undefined] converts to [NaN]). *)
Definition plus_one (v : value) : prim :=
  match to_primitive v with
  | Some (PStr s) => PStr (s ++ "1")
  | Some (PNum x) => PNum (x + 1)%float
  | None => PNum PrimFloat.nan
  end.

(** [ToNumber] on a string, for the strings that reach it here: white space
    alone is [0], an unsigned decimal integer is its value, and a string that
    is no numeric literal is [NaN].  (Literals with a sign, a fraction, an
    exponent or a radix prefix, and [Infinity], are not needed: a string
    stored in [wordCount] starts with the word [function].) *)
Definition string_to_number (s : string) : number :=
  let t := trim s in
  match t with
  | EmptyString => PrimFloat.zero
  | _ => if all_chars is_digit t
         then PrimFloat.of_uint63 (Uint63.of_Z (Z.of_N (digits_value t 0)))
         else PrimFloat.nan
  end.

(** [ToNumber] *)
Definition to_number (v : value) : number :=
  match to_primitive v with
  | Some (PNum x) => x
  | Some (PStr s) => string_to_number s
  | None => PrimFloat.nan
  end.

(** An array index: the canonical decimal form of an integer below
    [2^32 - 1].  [Object.keys] lists such keys first, in ascending order. *)
Definition array_index (key : string) : option N :=
  match key with
  | EmptyString => None
  | String c r =>
      if all_chars is_digit key
         && (negb (code c =? 48)%nat || String.eqb r "")
         && (String.length key <=? 10)%nat
         && (digits_value key 0 <? 4294967295)%N
      then Some (digits_value key 0) else None
  end.

Fixpoint insert_index (k : N * string) (l : list (N * string)) : list (N * string) :=
  match l with
  | [] => [k]
  | x :: r => if (fst k <? fst x)%N then k :: l else x :: insert_index k r
  end.

Fixpoint index_keys (o : object) : list (N * string) :=
  match o with
  | [] => []
  | (k, _) :: r =>
      match array_index k with
      | Some n => insert_index (n, k) (index_keys r)
      | None => index_keys r
      end
  end.

Fixpoint name_keys (o : object) : list string :=
  match o with
  | [] => []
  | (k, _) :: r =>
      match array_index k with
      | Some _ => name_keys r
      | None => k :: name_keys r
      end
  end.

(** [Object.keys(o)]: array indices in ascending order, then the other
    names in creation order. *)
Definition keys (o : object) : list string :=
  map snd (index_keys o) ++ name_keys o.

End Obj.

(** The count of a word as the loop of [createEmbedding] reaches it: [n]
    increments from [0]. *)
Module Counting.

Import Num Obj.

Definition counted (n : nat) : number :=
  Nat.iter n (fun x => (x + 1)%float) PrimFloat.zero.

(** What [wordCount] holds for a word after [n] occurrences. *)
Definition counted_value (n : nat) : option prim :=
  match n with
  | 0 => None
  | S _ => Some (PNum (counted n))
  end.

(** A name that [Object.prototype] does not define. *)
Definition ordinary (w : string) : Prop := Object_prototype_get w = VUndefined.

(** A character other than [A-Z]. *)
Definition not_capital (c : ascii) : bool := negb (Str.between 65 90 c).

End Counting.

(** ** Arrays *)

Module Arr.

Import Num.

Section Sort.

Variable A : Type.

(** The comparator handed to [sort]. *)
Variable comparefn : A -> A -> number.

(** [Array.prototype.sort] is a stable sort: an element moves behind a later
    one only when the comparator says it sorts after it, that is when
    [comparefn x y > 0].  A [NaN] from the comparator counts as [+0], which
    the strict comparison gives for free.  When the comparator is a
    consistent ordering of the elements the result below is the only one the
    language allows; otherwise the language leaves the order to the engine. *)
Definition sorts_after (x y : A) : bool := gtb (comparefn x y) PrimFloat.zero.

Fixpoint insert (x : A) (l : list A) : list A :=
  match l with
  | [] => [x]
  | y :: r => if sorts_after x y then y :: insert x r else x :: l
  end.

Definition sort (l : list A) : list A := fold_right insert [] l.

End Sort.

(** [arr.slice(0, n)] for a count [n]. *)
Definition slice0 {A} (n : nat) (l : list A) : list A := firstn n l.

(** [arr.map((x, i) => f x i)] *)
Fixpoint mapi_from {A B} (f : A -> nat -> B) (i : nat) (l : list A) : list B :=
  match l with
  | [] => []
  | x :: r => f x i :: mapi_from f (S i) r
  end.

Definition mapi {A B} (f : A -> nat -> B) (l : list A) : list B :=
  mapi_from f 0 l.

End Arr.

(** ** Values as data

    The values that travel as data: metadata attached to a document, the
    records a search returns seen as objects, and the content of a persisted
    file.  [prop] answers [None] where the record has no such property. *)

Module Data.

Import Num.

Inductive jsval :=
| JUndefined
| JNull
| JBool (b : bool)
| JNum (x : number)
| JStr (s : string)
| JArr (items : list jsval)
| JObj (fields : list (string * jsval)).

Definition Metadata := list (string * jsval).

Fixpoint field (fields : list (string * jsval)) (name : string) : option jsval :=
  match fields with
  | [] => None
  | (k, v) :: r => if String.eqb k name then Some v else field r name
  end.

(** A property written by an object literal after a spread: an existing
    name keeps its place and takes the new value, a new name goes last. *)
Fixpoint assign (fields : list (string * jsval)) (name : string) (v : jsval)
    : list (string * jsval) :=
  match fields with
  | [] => [(name, v)]
  | (k, w) :: r =>
      if String.eqb k name then (k, v) :: r else (k, w) :: assign r name v
  end.

(** [v.name] on a record built by an object literal. *)
Definition prop (name : string) (v : jsval) : option jsval :=
  match v with
  | JObj fields => field fields name
  | _ => None
  end.

End Data.

(** ** Completions: a call returns a value or throws *)

Inductive completion (A : Type) :=
| Return (a : A)
| Throw (error : string).

Arguments Return {A} a.
Arguments Throw {A} error.

(** ** The local term-frequency store (src/scraper.js) *)

Module SimpleVectorStore.

Import Num Str Obj Data.

(** The record [{ vector, vocabulary, text }]; its [text] is [emb_text]
    here, apart from the [text] of a document. *)
Record Embedding := mkEmbedding {
  vector : list number;
  vocabulary : list string;
  emb_text : string
}.

(** The loop of [createEmbedding]:
    [wordCount[word] = (wordCount[word] || 0) + 1]. *)
Definition count_word (wordCount : object) (word : string) : object :=
  set wordCount word (plus_one (or_zero (get wordCount word))).

Definition count_words (words : list string) : object :=
  fold_left count_word words [].

Definition createEmbedding (text : string) : Embedding :=
  let words := match_words (toLowerCase text) in
  let wordCount := count_words words in
  let vocabulary := keys wordCount in
  let vector :=
    map (fun word => (to_number (get wordCount word) / of_nat (List.length words))%float)
        vocabulary in
  mkEmbedding vector vocabulary text.

Record Document := mkDocument {
  text : string;
  metadata : Metadata;
  embedding : Embedding
}.

Record Store := mkStore {
  documents : list Document;
  embeddings : list Embedding
}.

(** [new SimpleVectorStore()] *)
Definition empty : Store := mkStore [] [].

(** [addDocument(text, metadata)] *)
Definition addDocument (s : Store) (text : string) (metadata : Metadata) : Store :=
  let embedding := createEmbedding text in
  mkStore (documents s ++ [mkDocument text metadata embedding])
          (embeddings s ++ [embedding]).

(** [vec[idx] || 0], where [idx] is the result of an [indexOf]: a word that
    is not found, or an index past the end, reads [undefined]. *)
Definition component (vec : list number) (idx : option nat) : number :=
  match idx with
  | Some i =>
      match nth_error vec i with
      | Some x => Num.or_zero x
      | None => PrimFloat.zero
      end
  | None => PrimFloat.zero
  end.

(** The accumulators [dotProduct], [norm1], [norm2]. *)
Record sums := mkSums { dotProduct : number; norm1 : number; norm2 : number }.

Definition accumulate (vec1 vec2 : list number) (vocab1 vocab2 : list string)
    (acc : sums) (word : string) : sums :=
  let val1 := component vec1 (indexOf vocab1 word) in
  let val2 := component vec2 (indexOf vocab2 word) in
  mkSums (dotProduct acc + val1 * val2)%float
         (norm1 acc + val1 * val1)%float
         (norm2 acc + val2 * val2)%float.

Definition cosineSimilarity (vec1 vec2 : list number) (vocab1 vocab2 : list string)
    : number :=
  let commonWords := filter (includes vocab2) vocab1 in
  match commonWords with
  | [] => PrimFloat.zero
  | _ =>
      let s := fold_left (accumulate vec1 vec2 vocab1 vocab2) commonWords
                 (mkSums PrimFloat.zero PrimFloat.zero PrimFloat.zero) in
      (dotProduct s / (PrimFloat.sqrt (norm1 s) * PrimFloat.sqrt (norm2 s)))%float
  end.

(** The record [{ document: doc, similarity: ... }] built for each document. *)
Record Result := mkResult {
  document : Document;
  similarity : number
}.

Definition score (queryEmbedding : Embedding) (doc : Document) : Result :=
  mkResult doc
    (cosineSimilarity (vector queryEmbedding) (vector (embedding doc))
                      (vocabulary queryEmbedding) (vocabulary (embedding doc))).

(** [(a, b) => b.similarity - a.similarity] *)
Definition by_similarity (a b : Result) : number :=
  (similarity b - similarity a)%float.

(** [item => item.similarity > 0.1] *)
Definition relevant (item : Result) : bool := gtb (similarity item) 0.1%float.

(** [search(query, limit = 3)] *)
Definition search (s : Store) (query : string) (limit : nat) : list Result :=
  let queryEmbedding := createEmbedding query in
  let similarities := map (score queryEmbedding) (documents s) in
  filter relevant (Arr.slice0 limit (Arr.sort by_similarity similarities)).

Definition default_limit : nat := 3.

(** A result seen as the object it is: the literal names two properties. *)
Definition embedding_object (e : Embedding) : jsval :=
  JObj [("vector", JArr (map JNum (vector e)));
        ("vocabulary", JArr (map JStr (vocabulary e)));
        ("text", JStr (emb_text e))].

Definition document_object (d : Document) : jsval :=
  JObj [("text", JStr (text d));
        ("metadata", JObj (metadata d));
        ("embedding", embedding_object (embedding d))].

Definition result_object (r : Result) : jsval :=
  JObj [("document", document_object (document r));
        ("similarity", JNum (similarity r))].

End SimpleVectorStore.

(** ** The remote dense-embedding store (src/vector_embeddings.js) *)

Module VectorStore.

Import Num Str Data.

Record Store := mkStore {
  vectors : list (list number);
  texts : list string;
  metadata : list Metadata
}.

(** The fields the constructor initialises. *)
Definition empty : Store := mkStore [] [] [].

(** *** Chunking *)

(** The loop state of [splitTextIntoChunks]. *)
Record splitter := mkSplitter { chunks : list string; currentChunk : string }.

Definition split_step (maxChunkSize : nat) (st : splitter) (sentence : string)
    : splitter :=
  if (maxChunkSize <? String.length (currentChunk st) + String.length sentence)%nat
     && (0 <? String.length (currentChunk st))%nat
  then mkSplitter (chunks st ++ [trim (currentChunk st)]) (trim sentence)
  else mkSplitter (chunks st)
         (currentChunk st
          ++ (if String.eqb (currentChunk st) "" then "" else ". ")
          ++ trim sentence).

(** [text.split(/[.!?]+/).filter(s => s.trim().length > 0)] *)
Definition sentences_of (text : string) : list string :=
  filter (fun s => (0 <? String.length (trim s))%nat) (split_sentences text).

Definition splitTextIntoChunks (text : string) (maxChunkSize : nat) : list string :=
  let st := fold_left (split_step maxChunkSize) (sentences_of text)
              (mkSplitter [] "") in
  if String.eqb (trim (currentChunk st)) "" then chunks st
  else chunks st ++ [trim (currentChunk st)].

Definition default_maxChunkSize : nat := 1000.

(** *** Similarity *)

(** [vector2[i]], [NaN] standing for the [undefined] read past the end:
    every use multiplies it, and [undefined] converts to [NaN] there. *)
Definition at_index (v : list number) (i : nat) : number :=
  match nth_error v i with
  | Some x => x
  | None => PrimFloat.nan
  end.

Record sums := mkSums { dotProduct : number; norm1 : number; norm2 : number }.

(** The body of the loop over [i < vector1.length], from index [i] on. *)
Fixpoint accumulate_from (vector1 : list number) (i : nat) (vector2 : list number)
    (acc : sums) : sums :=
  match vector1 with
  | [] => acc
  | x :: rest =>
      accumulate_from rest (S i) vector2
        (mkSums (dotProduct acc + x * at_index vector2 i)%float
                (norm1 acc + x * x)%float
                (norm2 acc + at_index vector2 i * at_index vector2 i)%float)
  end.

(** The norm of a vector as the loop computes [norm1]. *)
Definition norm_of (v : list number) : number :=
  PrimFloat.sqrt (fold_left (fun a x => a + x * x)%float v PrimFloat.zero).

Definition calculateSimilarity (vector1 vector2 : list number) : number :=
  let s := accumulate_from vector1 0 vector2
             (mkSums PrimFloat.zero PrimFloat.zero PrimFloat.zero) in
  let n1 := PrimFloat.sqrt (norm1 s) in
  let n2 := PrimFloat.sqrt (norm2 s) in
  if PrimFloat.eqb n1 PrimFloat.zero || PrimFloat.eqb n2 PrimFloat.zero
  then PrimFloat.zero
  else (dotProduct s / (n1 * n2))%float.

(** *** Statistics *)

Record Stats := mkStats {
  totalVectors : nat;
  totalTexts : nat;
  averageTextLength : number;
  vectorDimension : nat
}.

Definition getStats (s : Store) : Stats :=
  mkStats
    (List.length (vectors s))
    (List.length (texts s))
    (fold_left (fun sum text => (sum + of_nat (String.length text))%float)
               (texts s) PrimFloat.zero
     / of_nat (List.length (texts s)))%float
    (match vectors s with
     | [] => 0
     | v :: _ => List.length v
     end).

(** *** Persistence *)

(** What [JSON.parse] makes of a well-formed file, as far as [loadFromFile]
    looks at it.  [JSON null] has no properties to read.  Of any other value
    only the three fields matter: [None] is a field that is absent or falsy,
    [Some] the array found there, typed as [saveToFile] writes it. *)
Inductive parsed :=
| ParsedNull
| ParsedValue (vectors_field : option (list (list number)))
              (texts_field : option (list string))
              (metadata_field : option (list Metadata)).

(** A file on disk: one that cannot be read, one whose text is not JSON, or
    one whose text parses. *)
Inductive file :=
| Unreadable
| Malformed
| WellFormed (data : parsed).

(** The file system: [None] where [fs.existsSync] answers false. *)
Definition filesystem := string -> option file.

(** [x || []] *)
Definition or_empty {A} (x : option (list A)) : list A :=
  match x with Some l => l | None => [] end.

(** [loadFromFile(filename)]: the outcome and the store afterwards.  Nothing
    catches what [readFileSync], [JSON.parse] or a property read throws. *)
Definition loadFromFile (fs : filesystem) (s : Store) (filename : string)
    : completion bool * Store :=
  match fs filename with
  | None => (Return false, s)
  | Some Unreadable => (Throw "Error", s)
  | Some Malformed => (Throw "SyntaxError", s)
  | Some (WellFormed ParsedNull) => (Throw "TypeError", s)
  | Some (WellFormed (ParsedValue v t m)) =>
      (Return true, mkStore (or_empty v) (or_empty t) (or_empty m))
  end.

(** *** The embedding service, adding and searching *)

Section Service.

(** [this.model.embedContent(text)] followed by [.embedding.values]: the
    vector the service answers with, or the error it raises. *)
Variable embedContent : string -> completion (list number).

(** The store together with the texts sent to the service so far. *)
Record State := mkState { store : Store; requests : list string }.

(** [generateEmbedding(text)]: the error is logged and thrown again. *)
Definition generateEmbedding (st : State) (text : string)
    : completion (list number) * State :=
  (embedContent text, mkState (store st) (requests st ++ [text])).

(** [{ ...metadata, chunkIndex: i, totalChunks: ..., originalLength: ... }] *)
Definition chunk_metadata (meta : Metadata) (i total originalLength : nat)
    : Metadata :=
  assign (assign (assign meta "chunkIndex" (JNum (of_nat i)))
                 "totalChunks" (JNum (of_nat total)))
         "originalLength" (JNum (of_nat originalLength)).

(** The loop of [addText] from chunk [i] on. *)
Fixpoint add_chunks (st : State) (meta : Metadata) (total originalLength : nat)
    (rest : list string) (i : nat) : completion unit * State :=
  match rest with
  | [] => (Return tt, st)
  | chunk :: more =>
      match generateEmbedding st chunk with
      | (Throw e, st') => (Throw e, st')
      | (Return embedding, st') =>
          let s := store st' in
          let s' := mkStore (vectors s ++ [embedding])
                      (texts s ++ [chunk])
                      (metadata s ++ [chunk_metadata meta i total originalLength]) in
          add_chunks (mkState s' (requests st')) meta total originalLength more (S i)
      end
  end.

(** [addText(text, metadata = {})] *)
Definition addText (st : State) (text : string) (meta : Metadata)
    : completion unit * State :=
  let chunks := splitTextIntoChunks text default_maxChunkSize in
  add_chunks st meta (List.length chunks) (String.length text) chunks 0.

(** The record pushed for each stored vector.  [texts[i]] and [metadata[i]]
    read [undefined] ([None]) where those arrays are shorter. *)
Record Result := mkResult {
  text : option string;
  meta : option Metadata;
  similarity : number;
  index : nat
}.

Definition score (s : Store) (queryEmbedding : list number)
    (vector : list number) (i : nat) : Result :=
  mkResult (nth_error (texts s) i) (nth_error (metadata s) i)
           (calculateSimilarity queryEmbedding vector) i.

Definition by_similarity (a b : Result) : number :=
  (similarity b - similarity a)%float.

(** The ranking once the query is embedded. *)
Definition rank (s : Store) (queryEmbedding : list number) (topK : nat)
    : list Result :=
  Arr.slice0 topK
    (Arr.sort by_similarity (Arr.mapi (score s queryEmbedding) (vectors s))).

(** [search(query, topK = 5)] *)
Definition search (st : State) (query : string) (topK : nat)
    : completion (list Result) * State :=
  match generateEmbedding st query with
  | (Throw e, st') => (Throw e, st')
  | (Return queryEmbedding, st') =>
      (Return (rank (store st') queryEmbedding topK), st')
  end.

Definition default_topK : nat := 5.

(** A result seen as the object it is; a property holding [undefined] is
    still a property of the record. *)
Definition result_object (r : Result) : jsval :=
  JObj [("text", match text r with Some t => JStr t | None => JUndefined end);
        ("metadata", match meta r with Some m => JObj m | None => JUndefined end);
        ("similarity", JNum (similarity r));
        ("index", JNum (of_nat (index r)))].

End Service.

End VectorStore.


(** ** Notions used to state the properties *)

(** An integer that orders the floats other than NaN as IEEE 754 orders
    them: a finite value counted in units of the least subnormal [2^-1074],
    the infinities beyond every finite value. *)
Module FloatOrder.

Local Open Scope Z_scope.

Definition val (x : spec_float) : Z :=
  match x with
  | S754_zero _ => 0
  | S754_infinity s => SpecFloat.cond_Zopp s (2 ^ 2098)
  | S754_nan => 0
  | S754_finite s m e => SpecFloat.cond_Zopp s (Zpos m * 2 ^ (e + 1074))
  end.

Definition key (x : float) : Z := val (Prim2SF x).

Definition not_nan (x : spec_float) : Prop := x <> S754_nan.

(** A nonzero value of the given sign. *)
Definition has_sign (s : bool) (x : spec_float) : Prop :=
  match x with
  | S754_finite s' _ _ | S754_infinity s' => s' = s
  | _ => False
  end.

End FloatOrder.

Module Ranking.

Import Num.

(** No number of the list is NaN. *)
Definition no_nan (l : list number) : bool :=
  forallb (fun x => negb (PrimFloat.is_nan x)) l.

(** A ranked list: of any two entries the earlier has the similarity that
    is greater or equal, and of two equal similarities the earlier entry
    was inserted first. *)
Definition ranked {A} (sim : A -> number) (pos : A -> nat) (l : list A) : Prop :=
  ForallOrdPairs
    (fun a b => PrimFloat.leb (sim b) (sim a) = true /\
                (PrimFloat.eqb (sim a) (sim b) = true -> pos a < pos b))
    l.

(** The insertion sort on integer keys, greatest first, that the sort of
    the searches amounts to when no similarity is NaN. *)
Section KeySort.

Variable A : Type.
Variable k : A -> Z.

Fixpoint kinsert (x : A) (l : list A) : list A :=
  match l with
  | [] => [x]
  | y :: r => if (k x <? k y)%Z then y :: kinsert x r else x :: l
  end.

Definition ksort (l : list A) : list A := fold_right kinsert [] l.

(** The order of a key-sorted list: a smaller key behind, and with equal
    keys the smaller position ahead. *)
Definition before (pos : A -> nat) (a b : A) : Prop :=
  (k b < k a)%Z \/ (k a = k b /\ pos a < pos b).

End KeySort.

(** The comparator of both searches, [(a, b) => b.similarity - a.similarity],
    over any record that carries a similarity. *)
Definition descending {A} (sim : A -> number) (a b : A) : number :=
  (sim b - sim a)%float.

Definition sims_ok {A} (sim : A -> number) (l : list A) : Prop :=
  Forall (fun a => PrimFloat.is_nan (sim a) = false) l.

(** The local search, its entries tagged with the positions of their
    documents in the store. *)
Definition tagged_search (s : SimpleVectorStore.Store) (query : string) (limit : nat)
    : list (nat * SimpleVectorStore.Result) :=
  filter (fun t => SimpleVectorStore.relevant (snd t))
    (Arr.slice0 limit
       (Arr.sort (descending (fun t => SimpleVectorStore.similarity (snd t)))
          (Arr.mapi (fun doc i =>
                   (i, SimpleVectorStore.score
                         (SimpleVectorStore.createEmbedding query) doc))
                (SimpleVectorStore.documents s)))).

End Ranking.

(** What [currentChunk] can hold while a text is split: one sentence trimmed,
    or an earlier content joined with one more sentence that the size check
    let in. *)
Module Chunks.

Import Str VectorStore.

Inductive built (text : string) (maxChunkSize : nat) : string -> Prop :=
| built_first (s : string) :
    In s (sentences_of text) -> built text maxChunkSize (trim s)
| built_more (cur s : string) :
    built text maxChunkSize cur ->
    In s (sentences_of text) ->
    String.length cur + String.length s <= maxChunkSize ->
    built text maxChunkSize (cur ++ ". " ++ trim s).

(** How many sentences a content holds. *)
Definition single (text : string) (cur : string) : Prop :=
  exists s, In s (sentences_of text) /\ cur = trim s.

(** What the loop of [splitTextIntoChunks] maintains: every closed chunk is
    a built content, trimmed, and the open content is empty or built. *)
Definition splitter_ok (text : string) (maxChunkSize : nat) (st : splitter) : Prop :=
  Forall (fun c => exists cur, built text maxChunkSize cur /\ c = trim cur)
         (chunks st) /\
  (currentChunk st = "" \/ built text maxChunkSize (currentChunk st)).

End Chunks.

(** Stores, files and services to evaluate the code on. *)
Module Examples.

Import Num Data.

Definition constructor_store : SimpleVectorStore.Store :=
  SimpleVectorStore.addDocument
    (SimpleVectorStore.addDocument SimpleVectorStore.empty "constructor" [])
    "health" [].

Definition insurance_store : SimpleVectorStore.Store :=
  SimpleVectorStore.addDocument
    (SimpleVectorStore.addDocument
       (SimpleVectorStore.addDocument SimpleVectorStore.empty
          "health insurance covers you" [])
       "auto insurance for your car" [])
    "life insurance for family" [].

(** A store whose first vector has one component and whose second has two. *)
Definition mixed_store : VectorStore.Store :=
  VectorStore.mkStore [[1%float]; [1%float; 1%float]] ["a"; "b"] [[]; []].

Definition unit_store : VectorStore.Store :=
  VectorStore.mkStore [[1%float; 0%float]; [0%float; 1%float]; [1%float; 0%float]]
    ["a"; "b"; "c"] [[]; []; []].

(** A service that answers every text with the same two components. *)
Definition constant_service (text : string) : completion (list number) :=
  Return [1%float; 1%float].

(** A disk where every file exists and holds text that is not JSON. *)
Definition malformed_disk : VectorStore.filesystem :=
  fun _ => Some VectorStore.Malformed.

Definition saved_disk : VectorStore.filesystem :=
  fun _ => Some (VectorStore.WellFormed
                   (VectorStore.ParsedValue (Some [[1%float]]) (Some ["a"]) None)).

End Examples.

(** What the chunks of a text are made of. *)
Module ChunkGroups.

Import Str.

(** The sentences of a group, trimmed and joined by [". "]. *)
Definition join_sentences (group : list string) : string :=
  match group with
  | [] => ""
  | s :: rest =>
      fold_left (fun acc t : string => (acc ++ ". " ++ trim t)%string) rest (trim s)
  end.

(** No white space at the start. *)
Definition starts_clean (s : string) : Prop :=
  match s with
  | EmptyString => True
  | String c _ => is_space c = false
  end.

(** Not empty, and no white space at either end. *)
Definition clean (s : string) : Prop :=
  s <> "" /\ starts_clean s /\ starts_clean (reverse s).

(** A sentence that the filter of [splitTextIntoChunks] keeps. *)
Definition kept (s : string) : Prop := trim s <> "".

(** The loop state of [splitTextIntoChunks] after the sentences [done]: the
    closed groups and the open one hold them in order. *)
Definition grouped (done : list string) (st : VectorStore.splitter) : Prop :=
  exists closed open,
    List.concat closed ++ open = done /\
    Forall (fun g => g <> []) closed /\
    VectorStore.chunks st = map join_sentences closed /\
    VectorStore.currentChunk st = join_sentences open.

End ChunkGroups.

(** Greedy accumulation, as the description of the splitter words it: the
    sentences are taken in order; the first opens a group; a later one
    joins the open group when the content accumulated for it and the
    sentence fit the maximum, and otherwise closes the group and opens the
    next. *)
Module Greedy.

Import Str ChunkGroups.

(** A piece between runs of sentence punctuation holds none of it. *)
Definition no_terminator (s : string) : bool :=
  all_chars (fun c => negb (is_terminator c)) s.

(** The size check: the length of the content of the open chunk plus the
    length of the sentence as split does not exceed the maximum. *)
Definition fits (maxChunkSize : nat) (content sentence : string) : bool :=
  (String.length content + String.length sentence <=? maxChunkSize)%nat.

(** The groups of the sentences, [open] being the group under way. *)
Fixpoint greedy_groups (maxChunkSize : nat) (open : list string)
    (sentences : list string) : list (list string) :=
  match sentences with
  | [] =>
      match open with
      | [] => []
      | _ :: _ => [open]
      end
  | s :: rest =>
      match open with
      | [] => greedy_groups maxChunkSize [s] rest
      | _ :: _ =>
          if fits maxChunkSize (join_sentences open) s
          then greedy_groups maxChunkSize (open ++ [s]) rest
          else open :: greedy_groups maxChunkSize [s] rest
      end
  end.

(** Every sentence of [more] was let in by the size check, [content] being
    what was accumulated before it. *)
Fixpoint let_in (maxChunkSize : nat) (content : string) (more : list string)
    : Prop :=
  match more with
  | [] => True
  | s :: rest =>
      String.length content + String.length s <= maxChunkSize /\
      let_in maxChunkSize (content ++ ". " ++ trim s)%string rest
  end.

(** A group: a first sentence, taken whatever its length, and further
    sentences that the size check let in. *)
Definition accepted (maxChunkSize : nat) (group : list string) : Prop :=
  match group with
  | [] => False
  | s :: more => let_in maxChunkSize (trim s) more
  end.

(** A group was closed by the sentence that opens the next one: the size
    check refused that sentence. *)
Fixpoint refused (maxChunkSize : nat) (groups : list (list string)) : Prop :=
  match groups with
  | [] => True
  | group :: rest =>
      match rest with
      | [] => True
      | [] :: _ => False
      | (s :: _) :: _ =>
          maxChunkSize < String.length (join_sentences group) + String.length s
      end /\
      refused maxChunkSize rest
  end.

End Greedy.

(** Notions about the remote store and what [addText] appends. *)
Module Appending.

Import Num Data VectorStore.

(** The three arrays have one entry per record. *)
Definition parallel (s : Store) : Prop :=
  List.length (vectors s) = List.length (texts s) /\
  List.length (metadata s) = List.length (texts s).

(** The records for the chunks [done] of a text split into [total] chunks,
    numbered from [i], with the vectors [vs], appended to [s]. *)
Definition appended (s : Store) (meta : Metadata) (total originalLength i : nat)
    (done : list string) (vs : list (list number)) : Store :=
  mkStore (vectors s ++ vs) (texts s ++ done)
          (metadata s
           ++ Arr.mapi_from (fun (_ : string) j =>
                               chunk_metadata meta j total originalLength)
                            i done).

End Appending.

(** The accumulators of [calculateSimilarity] with the two vectors
    exchanged. *)
Module Exchange.

Import VectorStore.

Definition swap (s : sums) : sums :=
  mkSums (dotProduct s) (norm2 s) (norm1 s).

End Exchange.

(** A local store as [addDocument] fills it. *)
Module Indexed.

Import SimpleVectorStore.

(** Every document carries the embedding of its own text, and [embeddings]
    lists the embeddings of the documents in order. *)
Definition indexed (s : Store) : Prop :=
  Forall (fun d => embedding d = createEmbedding (text d)) (documents s) /\
  embeddings s = map embedding (documents s).

End Indexed.

(** ** The scraper that fills the local store (src/scraper.js) *)

Module Scraper.

Import Num Str Data SimpleVectorStore.

(** What the page gives once it is read and parsed: for a selector, the
    text of each element that matches it, in document order, and the text
    of the body. *)
Record Page := mkPage {
  element_texts : string -> list string;
  body_text : string
}.

Record section := mkSection { selector : string; type : string; title : string }.

Definition sections : list section :=
  [mkSection ".hero__content" "hero" "Hero Section";
   mkSection ".service__card" "service" "Services";
   mkSection ".about__content" "about" "About Us";
   mkSection ".stats__item" "stats" "Statistics";
   mkSection ".contact__form" "contact" "Contact Information"].

(** [{ type: ..., title: ..., index: index }] *)
Definition entry_metadata (type title : string) (index : nat) : Metadata :=
  [("type", JStr type); ("title", JStr title); ("index", JNum (of_nat index))].

(** A callback that receives the position of each element, as those of
    [each] and [forEach] do, run over a list from position [i] on. *)
Fixpoint each_from {A} (f : Store -> A -> nat -> Store) (i : nat) (l : list A)
    (s : Store) : Store :=
  match l with
  | [] => s
  | x :: r => each_from f (S i) r (f s x i)
  end.

(** The callback of [$(section.selector).each]. *)
Definition add_element (sec : section) (s : Store) (element : string) (index : nat)
    : Store :=
  let text := trim element in
  if negb (String.eqb text "") && (20 <? String.length text)%nat
  then addDocument s text (entry_metadata (type sec) (title sec) index)
  else s.

Definition add_section (page : Page) (s : Store) (sec : section) : Store :=
  each_from (add_element sec) 0 (element_texts page (selector sec)) s.

(** [s.replace(/\s+/g, ' ')]: every maximal run of white space becomes one
    space.  [in_run] tells that the previous character was white space. *)
Fixpoint collapse_from (s : string) (in_run : bool) : string :=
  match s with
  | EmptyString => EmptyString
  | String c r =>
      if is_space c
      then if in_run then collapse_from r true
           else String " " (collapse_from r true)
      else String c (collapse_from r false)
  end.

Definition collapse_spaces (s : string) : string := collapse_from s false.

(** [s.split(sep)] for a separator of one character: the pieces between
    the separators, empty pieces included.  [cur] holds the piece being
    read, reversed. *)
Fixpoint split_on (sep : ascii) (s : string) (cur : string) : list string :=
  match s with
  | EmptyString => [reverse cur]
  | String c r =>
      if Ascii.eqb c sep then reverse cur :: split_on sep r EmptyString
      else split_on sep r (String c cur)
  end.

Definition generalContent (page : Page) : list string :=
  Arr.slice0 20
    (filter (fun sentence => (30 <? String.length (trim sentence))%nat)
       (split_on "." (trim (collapse_spaces (body_text page))) EmptyString)).

(** The callback of [generalContent.forEach]. *)
Definition add_sentence (s : Store) (sentence : string) (index : nat) : Store :=
  addDocument s (trim sentence) (entry_metadata "general" "General Content" index).

(** [scrapeWebsiteContent()].  [page] is [None] when the file cannot be
    read and [saved] is false when the knowledge file cannot be written;
    either error is caught and the function returns [null], here [None]. *)
Definition scrapeWebsiteContent (page : option Page) (saved : bool) : option Store :=
  match page with
  | None => None
  | Some page =>
      let sectionsDone := fold_left (add_section page) sections empty in
      let vectorStore := each_from add_sentence 0 (generalContent page) sectionsDone in
      if saved then Some vectorStore else None
  end.

(** What the scraper promises of a text it stores. *)
Definition no_period (s : string) : bool :=
  all_chars (fun c => negb (Ascii.eqb c ".")) s.

(** What holds of a document stored for an element of a section. *)
Definition from_section (d : Document) : Prop :=
  ChunkGroups.clean (text d) /\ 20 < String.length (text d) /\
  exists sec, In sec sections /\
              field (metadata d) "type" = Some (JStr (type sec)).

(** What holds of a document stored for a sentence of the body. *)
Definition from_body (d : Document) : Prop :=
  ChunkGroups.clean (text d) /\ 30 < String.length (text d) /\
  no_period (text d) = true /\
  field (metadata d) "type" = Some (JStr "general").

(** The documents of the page, as the scraper means them. *)

(** The document stored for a text. *)
Definition document_of (type title : string) (index : nat) (text : string)
    : Document :=
  mkDocument text (entry_metadata type title index) (createEmbedding text).

(** The documents of a section: one for each element that its selector
    matches and whose trimmed text has more than 20 characters, in the
    order of the page; [index] is the position of the element among the
    matches of the selector. *)
Definition section_documents (page : Page) (sec : section) : list Document :=
  map (fun p => document_of (type sec) (title sec) (fst p) (trim (snd p)))
    (filter (fun p => (20 <? String.length (trim (snd p)))%nat)
       (combine (seq 0 (List.length (element_texts page (selector sec))))
                (element_texts page (selector sec)))).

(** The documents of the body: one for each sentence of [generalContent],
    trimmed; [index] is the position of the sentence in that list. *)
Definition body_documents (page : Page) : list Document :=
  Arr.mapi (fun sentence index =>
              document_of "general" "General Content" index (trim sentence))
           (generalContent page).

End Scraper.

(** ** The chatbot endpoint over the local store (src/api/chatbot.js) *)

Module Chatbot.

Import Num Str Data SimpleVectorStore.

(** [ToBoolean] on data. *)
Definition truthy (v : jsval) : bool :=
  match v with
  | JUndefined | JNull => false
  | JBool b => b
  | JNum x => Num.truthy x
  | JStr s => negb (String.eqb s "")
  | JArr _ | JObj _ => true
  end.

(** [v.name] for the names the endpoint reads ([message], [documents],
    [content], [text], [section], [category], [keywords], [id]): reading a
    property of [null] or [undefined] throws; an object answers with the
    property when it holds it; everything else, arrays, strings, numbers
    and booleans included, has no property of these names and answers
    [undefined]. *)
Definition get (v : jsval) (name : string) : completion jsval :=
  match v with
  | JUndefined | JNull => Throw "TypeError"
  | JObj fields =>
      Return (match field fields name with Some x => x | None => JUndefined end)
  | _ => Return JUndefined
  end.

(** The files of the working directory as [JSON.parse(fs.readFileSync(..))]
    finds them: [None] for a file that cannot be read or does not parse. *)
Definition disk := string -> option jsval.

(** The steps of [initializeChatbot] run inside its [try]; whatever one of
    them throws is caught there, so a step answers [None] when it throws. *)
Definition caught {A} (c : completion A) : option A :=
  match c with
  | Return a => Some a
  | Throw _ => None
  end.

(** The knowledge data: the file extracted from the text when it loads,
    and otherwise the original file, of which the [documents] are taken
    when it has some. *)
Definition knowledgeData (files : disk) : option jsval :=
  match files "chatbot_knowledge_from_text.json" with
  | Some data => Some data
  | None =>
      match files "chatbot_knowledge.json" with
      | None => None
      | Some originalData =>
          match caught (get originalData "documents") with
          | None => None
          | Some documents =>
              Some (if truthy documents then documents else originalData)
          end
      end
  end.

(** [Array.isArray(knowledgeData) ? knowledgeData : knowledgeData.documents] *)
Definition segments_of (data : jsval) : option jsval :=
  match data with
  | JArr _ => Some data
  | _ => caught (get data "documents")
  end.

(** [addDocument(text, metadata)] for a text that came out of a file: the
    embedder calls [text.toLowerCase()], which only a string has. *)
Definition add_text (s : Store) (text : jsval) (metadata : Metadata)
    : option Store :=
  match text with
  | JStr t => Some (addDocument s t metadata)
  | _ => None
  end.

(** [segment.name] once [segment.content] has been read without error. *)
Definition read (v : jsval) (name : string) : jsval :=
  match get v name with
  | Return x => x
  | Throw _ => JUndefined
  end.

(** The callback of [segments.forEach]. *)
Definition add_segment (s : Store) (segment : jsval) : option Store :=
  match caught (get segment "content") with
  | None => None
  | Some content =>
      if truthy content
      then add_text s content
             [("section", read segment "section");
              ("keywords", read segment "keywords");
              ("id", read segment "id")]
      else if truthy (read segment "text")
           then add_text s (read segment "text")
                  [("category", read segment "category");
                   ("keywords", read segment "keywords");
                   ("id", read segment "id")]
           else Some s
  end.

Fixpoint add_segments (s : Store) (segments : list jsval) : option Store :=
  match segments with
  | [] => Some s
  | segment :: rest =>
      match add_segment s segment with
      | None => None
      | Some s' => add_segments s' rest
      end
  end.

(** [initializeChatbot()]: the value left in [chatbotVectorStore], [None]
    for [null]; the function returns [true] exactly when it leaves a store.
    Segments that are missing or empty throw the error of the check, and
    segments that are no array have no [forEach]. *)
Definition initializeChatbot (files : disk) : option Store :=
  match knowledgeData files with
  | None => None
  | Some data =>
      match segments_of data with
      | Some (JArr (segment :: rest)) => add_segments empty (segment :: rest)
      | _ => None
      end
  end.

(** [s.includes(needle)] on strings. *)
Fixpoint starts_with (needle s : string) : bool :=
  match needle, s with
  | EmptyString, _ => true
  | String _ _, EmptyString => false
  | String a needle', String b s' => Ascii.eqb a b && starts_with needle' s'
  end.

Fixpoint contains (s needle : string) : bool :=
  starts_with needle s
  || match s with
     | EmptyString => false
     | String _ r => contains r needle
     end.

(** What the endpoint sends: [res.status(n).end()] or [res.status(n).json(..)]. *)
Inductive Response :=
| Ended (status : nat)
| Json (status : nat) (body : list (string * jsval)).

Definition greeting : string :=
  "Hello! I'm here to help you with insurance-related questions. How can I assist you today?".

Definition welcome : string :=
  "You're welcome! Is there anything else I can help you with regarding insurance?".

Definition fallback : string :=
  "I'd be happy to help you with insurance-related questions. Could you please provide more specific details about what type of insurance information you're looking for? We offer various types of insurance including health, life, auto, and property insurance.".

(** The two line feeds between the paragraphs of a reply. *)
Definition paragraph : string := String "010" (String "010" "").

(** The texts a reply can be. *)
Definition replies : list string :=
  [greeting; welcome; fallback;
   "Based on our insurance information: undefined";
   ("Based on our insurance information: undefined" ++ paragraph
    ++ "Additionally: undefined")%string].

(** What every segment keeps of the store that [initializeChatbot] fills:
    the store is indexed, no text is empty, and the metadata carry the
    three names of one of the two formats. *)
Definition loaded (s : Store) : Prop :=
  Indexed.indexed s /\
  Forall (fun d =>
            text d <> "" /\
            (map fst (metadata d) = ["section"; "keywords"; "id"] \/
             map fst (metadata d) = ["category"; "keywords"; "id"]))
         (documents s).

Section Printing.

(** [Number::toString], which the endpoint leaves to the engine. *)
Variable number_to_string : number -> string.

(** [ToString], as a template literal applies it. *)
Fixpoint to_string (v : jsval) : string :=
  match v with
  | JUndefined => "undefined"
  | JNull => "null"
  | JBool true => "true"
  | JBool false => "false"
  | JNum x => number_to_string x
  | JStr s => s
  | JArr items =>
      String.concat ","
        (map (fun item => match item with
                          | JUndefined | JNull => ""
                          | _ => to_string item
                          end) items)
  | JObj _ => "[object Object]"
  end.

(** [result.content] on a result of the local search. *)
Definition content (result : Result) : jsval :=
  match prop "content" (result_object result) with
  | Some v => v
  | None => JUndefined
  end.

(** The reply to a message, given what the search found. *)
Definition reply (message : string) (searchResults : list Result) : string :=
  let lowerMessage := toLowerCase message in
  if contains lowerMessage "hello" || contains lowerMessage "hi"
     || contains lowerMessage "hey"
  then greeting
  else if contains lowerMessage "thank" || contains lowerMessage "thanks"
  then welcome
  else match searchResults with
       | [] => fallback
       | topResult :: more =>
           let response :=
             ("Based on our insurance information: "
              ++ to_string (content topResult))%string in
           match more with
           | [] => response
           | second :: _ =>
               (response ++ paragraph ++ "Additionally: "
                ++ to_string (content second))%string
           end
       end.

(** [handler(req, res)]: what is sent, and the value left in
    [chatbotVectorStore].  [now] is the time stamp of the answer.  The
    three headers set at the start of every request are left out. *)
Definition handler (files : disk) (now : string)
    (chatbotVectorStore : option Store) (method : string) (body : jsval)
    : Response * option Store :=
  if String.eqb method "OPTIONS" then (Ended 200, chatbotVectorStore)
  else if negb (String.eqb method "POST")
  then (Json 405 [("error", JStr "Method not allowed")], chatbotVectorStore)
  else
    match get body "message" with
    | Throw _ =>
        (Json 500 [("error", JStr "An error occurred while processing your request. Please try again later.")],
         chatbotVectorStore)
    | Return (JStr message) =>
        if String.eqb message ""
        then (Json 400 [("error", JStr "Message is required and must be a string")],
              chatbotVectorStore)
        else
          let ready :=
            match chatbotVectorStore with
            | Some s => Some s
            | None => initializeChatbot files
            end in
          match ready with
          | None =>
              (Json 500 [("error", JStr "Chatbot service is currently unavailable. Please try again later.")],
               None)
          | Some s =>
              (Json 200 [("response", JStr (reply message (search s message 3)));
                         ("timestamp", JStr now)],
               Some s)
          end
    | Return _ =>
        (Json 400 [("error", JStr "Message is required and must be a string")],
         chatbotVectorStore)
    end.

End Printing.

End Chatbot.

(** ** The chatbot endpoint of the server (src/unnamed/part_000) *)

Module Server.

Import Num Str Data SimpleVectorStore.

(** The texts the endpoint answers with. *)
Definition provide : string :=
  "Please provide a message".

Definition trouble : string :=
  "Sorry, I'm having trouble connecting. Please try again later.".

Definition contact_reply : string :=
  "You can contact SecureLife Insurance at 1-800-555-0123 for immediate assistance, email us at quotes@securelife.com, or visit us at 123 Insurance Ave, Suite 100. We provide 24/7 customer service and claims processing to help with all your insurance needs.".

(** The text ends in characters outside U+0000 to U+00FF; they are kept
    as the bytes the source file holds.  Nothing reads the characters of
    this text. *)
Definition statistics_found : string :=
  "Here are our key performance statistics: We process 98.5% of claims successfully, maintain a 4.9/5 customer satisfaction rating, and provide response times under 24 hours. We've served 50K+ happy customers, paid $2.5B in claims, and have 25+ years of experience with a 4.9‚òÖ customer rating.".

Definition statistics_default : string :=
  "SecureLife Insurance maintains excellent performance metrics: 98.5% claims processing rate, 4.9/5 customer satisfaction, response time under 24 hours, 50K+ happy customers served, and $2.5B in claims paid over our 25+ years of experience.".

Definition quote_reply : string :=
  "We offer personalized insurance quotes that fit your life and budget. You can get a free quote by filling out our form on this page, calling us at 1-800-555-0123, or emailing quotes@securelife.com. Our expert team will get back to you within 24 hours with competitive rates.".

Definition insurance_reply : string :=
  "SecureLife Insurance offers comprehensive insurance solutions including Health, Life, Auto, and Property insurance. We provide personalized coverage that fits your life and budget with competitive rates and exceptional service. We've been protecting families and businesses for over 25 years.".

Definition health_reply : string :=
  "Our Health Insurance provides comprehensive medical coverage for individuals and families with access to top healthcare providers nationwide, including preventive care coverage, prescription drug benefits, and mental health support.".

Definition life_reply : string :=
  "Our Life Insurance helps secure your family's financial future with flexible policies tailored to your needs and budget. We offer various coverage options to ensure your loved ones are protected.".

Definition auto_reply : string :=
  "Our Auto Insurance protects your vehicle and yourself on the road with comprehensive coverage at competitive rates. We offer various coverage options to keep you protected while driving.".

Definition property_reply : string :=
  "Our Property Insurance safeguards your home and belongings with comprehensive coverage that protects against damage, theft, and liability. We help protect your most valuable assets.".

Definition company_reply : string :=
  "SecureLife Insurance has been a trusted partner for families and businesses across the nation since 1998. We combine over 25 years of experience with innovative technology to deliver personalized insurance solutions. We're rated A+ by AM Best for financial strength and stability, with licensed professionals averaging 15+ years of experience.".

Definition general_reply : string :=
  "I'm here to help with questions about SecureLife Insurance services. We offer Health, Life, Auto, and Property insurance with personalized coverage and competitive rates. How can I assist you with your insurance needs?".

Definition clarification : string :=
  "I'm here to help with questions about SecureLife Insurance services. We offer comprehensive insurance solutions including Health, Life, Auto, and Property insurance. Could you please be more specific about what you'd like to know?".

Definition failure : string :=
  "Sorry, I encountered an error. Please try again.".

(** [s.includes(w1) || s.includes(w2) || ...] *)
Definition mentions (s : string) (words : list string) : bool :=
  existsb (Chatbot.contains s) words.

(** [searchResults.filter(result => result.document.text.toLowerCase()
    .includes(..) || ..).slice(0, n).map(result => result.document.text)
    .join(' ')] *)
Definition quoted (words : list string) (n : nat) (searchResults : list Result)
    : string :=
  String.concat " "
    (map (fun result => text (document result))
       (Arr.slice0 n
          (filter (fun result =>
                     mentions (toLowerCase (text (document result))) words)
                  searchResults))).

(** [s.substring(0, n)] followed by [...] when [s.length > n]. *)
Definition excerpt (n : nat) (s : string) : string :=
  (String.substring 0 n s
   ++ (if (n <? String.length s)%nat then "..." else ""))%string.

(** [x || y] on strings. *)
Definition or_else (x y : string) : string :=
  if String.eqb x "" then y else x.

(** The condition of the statistics branch, which the chain tests twice. *)
Definition statistics_asked (lowerMessage : string) : bool :=
  mentions lowerMessage ["statistics"; "stats"; "claims processed"; "percentage"]
  || (Chatbot.contains lowerMessage "performance"
      && negb (Chatbot.contains lowerMessage "quote"))
  || mentions lowerMessage
       ["98.5"; "claims processing"; "satisfaction"; "customer rating";
        "response time"].

Definition statistics_reply (searchResults : list Result) : string :=
  let statsContent :=
    quoted ["98.5"; "claims processed"; "statistics"; "performance"] 1
           searchResults in
  if String.eqb statsContent "" then statistics_default else statistics_found.

(** The text of the answer, given what the search found. *)
Definition response (message : string) (searchResults : list Result) : string :=
  match searchResults with
  | [] => clarification
  | bestMatch :: _ =>
      let lowerMessage := toLowerCase message in
      if mentions lowerMessage
           ["contact"; "phone"; "email"; "call"; "number"; "reach"]
      then contact_reply
      else if statistics_asked lowerMessage
      then statistics_reply searchResults
      else if mentions lowerMessage ["quote"; "price"; "cost"; "rate"]
      then quote_reply
      else if mentions lowerMessage ["insurance"; "coverage"; "policy"; "protect"]
      then let insuranceContent := quoted ["insurance"] 2 searchResults in
           if String.eqb insuranceContent "" then insurance_reply
           else excerpt 400 insuranceContent
      else if mentions lowerMessage ["health"; "medical"]
      then or_else (quoted ["health"] 2 searchResults) health_reply
      else if mentions lowerMessage ["life"]
      then or_else (quoted ["life"] 2 searchResults) life_reply
      else if mentions lowerMessage ["auto"; "car"; "vehicle"]
      then or_else (quoted ["auto"] 2 searchResults) auto_reply
      else if mentions lowerMessage ["property"; "home"; "house"]
      then or_else (quoted ["property"] 2 searchResults) property_reply
      else if mentions lowerMessage ["company"; "about"; "experience"; "years"]
      then company_reply
      else if statistics_asked lowerMessage
      then statistics_reply searchResults
      else if (50 <? String.length (text (document bestMatch)))%nat
      then excerpt 350 (text (document bestMatch))
      else general_reply
  end.

(** What [res.json] sends when the endpoint gives up. *)
Definition refusal (text : string) : list (string * jsval) :=
  [("success", JBool false); ("message", JStr text)].

(** The endpoint [POST /api/chatbot]: the body sent, and the value left in
    [chatbotVectorStore].  [reinitialized] is what [initializeChatbot]
    leaves when the endpoint has to call it.  A message that is truthy and
    no string reaches the embedder, whose [toLowerCase] call throws; the
    endpoint catches it. *)
Definition chatbot (reinitialized : option Store)
    (chatbotVectorStore : option Store) (body : jsval)
    : list (string * jsval) * option Store :=
  match Chatbot.get body "message" with
  | Throw _ => (refusal failure, chatbotVectorStore)
  | Return message =>
      if negb (Chatbot.truthy message)
      then (refusal provide, chatbotVectorStore)
      else
        let ready :=
          match chatbotVectorStore with
          | Some s => Some s
          | None => reinitialized
          end in
        match ready with
        | None => (refusal trouble, None)
        | Some s =>
            match message with
            | JStr text =>
                let searchResults := search s text 5 in
                ([("success", JBool true);
                  ("message", JStr (response text searchResults));
                  ("sources", JNum (of_nat (List.length searchResults)))],
                 Some s)
            | _ => (refusal failure, Some s)
            end
        end
  end.

End Server.

(** ** The search demo over the remote store (src/vector_embeddings.js) *)

Module VectorSearchDemo.

Import Num Data VectorStore.

Section Service.

Variable embedContent : string -> completion (list number).

(** The fields [vectorStore] and [isLoaded]. *)
Record Demo := mkDemo { vectorStore : State; isLoaded : bool }.

(** [initialize()]: nothing catches what [loadFromFile] throws. *)
Definition initialize (fs : filesystem) (d : Demo) : completion bool * Demo :=
  match loadFromFile fs (store (vectorStore d)) "website_vectors.json" with
  | (Return true, s) =>
      (Return true, mkDemo (mkState s (requests (vectorStore d))) true)
  | (outcome, s) =>
      (outcome, mkDemo (mkState s (requests (vectorStore d))) (isLoaded d))
  end.

(** The loop that prints the results of [search]: the line of the
    metadata reads [result.metadata.chunkIndex], which throws when the
    result has no metadata. *)
Definition has_metadata (r : Result) : bool :=
  match meta r with Some _ => true | None => false end.

Definition print_results (results : list Result) : completion unit :=
  if forallb has_metadata results then Return tt else Throw "TypeError".

(** [search(query, topK = 5)] *)
Definition search (d : Demo) (query : string) (topK : nat)
    : completion (list Result) * Demo :=
  if negb (isLoaded d) then (Return [], d)
  else
    match VectorStore.search embedContent (vectorStore d) query topK with
    | (Throw e, st) => (Throw e, mkDemo st (isLoaded d))
    | (Return results, st) =>
        match print_results results with
        | Throw e => (Throw e, mkDemo st (isLoaded d))
        | Return _ => (Return results, mkDemo st (isLoaded d))
        end
    end.

End Service.

End VectorSearchDemo.


(** Further texts and services to evaluate the code on. *)
Module MoreExamples.

Import Num Data.

(** Forty-five sentences, 1259 characters: more than one chunk of the
    default size. *)
Definition long_text : string :=
  String.concat ""
    (repeat "Insurance protects your family. " 45).

(** What [splitTextIntoChunks] makes of [long_text]: the first chunk, and
    the second and last one. *)
Definition long_text_first : list string :=
  firstn 1 (VectorStore.splitTextIntoChunks long_text VectorStore.default_maxChunkSize).

Definition long_text_second : string :=
  nth 1 (VectorStore.splitTextIntoChunks long_text VectorStore.default_maxChunkSize) "".

(** A service that answers every text with one component. *)
Definition constant_embedder (text : string) : completion (list number) :=
  Return [1%float].

(** A service that refuses the texts shorter than 500 characters. *)
Definition short_refusing_service (text : string) : completion (list number) :=
  if (String.length text <? 500)%nat then Throw "quota" else Return [1%float].

(** A store with nothing in it and no request made. *)
Definition fresh : VectorStore.State :=
  VectorStore.mkState VectorStore.empty [].

End MoreExamples.

(** A page to run the scraper on. *)
Module Pages.

Import Scraper.

Definition sample_page : Page :=
  mkPage
    (fun selector =>
       if String.eqb selector ".hero__content"
       then ["  Protect what matters most with us  "; " Get a quote "]
       else [])
    "Welcome.   We have protected families and businesses since 1998.
     Call us.".

Definition sample_store : SimpleVectorStore.Store :=
  match scrapeWebsiteContent (Some sample_page) true with
  | Some s => s
  | None => SimpleVectorStore.empty
  end.

End Pages.

(** Knowledge files and requests to run the endpoint on. *)
Module Requests.

Import Data Chatbot.

(** A working directory whose extracted knowledge file holds a segment of
    each format and one with neither text. *)
Definition knowledge_files : disk :=
  fun name =>
    if String.eqb name "chatbot_knowledge_from_text.json"
    then Some (JArr [JObj [("id", JNum 1%float);
                           ("section", JStr "SERVICES");
                           ("content", JStr "We offer health insurance")];
                     JObj [("text", JStr "Call us today")];
                     JObj []])
    else None.

Definition knowledge_store : SimpleVectorStore.Store :=
  match initializeChatbot knowledge_files with
  | Some s => s
  | None => SimpleVectorStore.empty
  end.

(** A printer of numbers that prints nothing. *)
Definition silent (x : Num.number) : string := "".

(** What is sent for the question [health insurance] over the three
    insurance documents. *)
Definition health_answer : Response :=
  fst (handler silent knowledge_files "2024-01-01T00:00:00.000Z"
         (Some Examples.insurance_store) "POST"
         (JObj [("message", JStr "health insurance")])).

Definition health_body : list (string * jsval) :=
  match health_answer with
  | Json _ body => body
  | Ended _ => []
  end.

End Requests.

(** Demos to run the searches on. *)
Module Demos.

Import VectorSearchDemo.

(** [new VectorSearchDemo(apiKey)] *)
Definition new_demo : Demo :=
  mkDemo (VectorStore.mkState VectorStore.empty []) false.

(** The demo after [initialize()] over a file that holds one vector, one
    text and no metadata. *)
Definition loaded_demo : Demo :=
  snd (initialize Examples.saved_disk new_demo).

End Demos.

(** * Properties

    ** Binary64 order and rounding *)

Module FloatFacts.

Import FloatOrder.

Local Open Scope Z_scope.

Lemma digits2_pos_bounds (m : positive) :
  2 ^ (Zpos (SpecFloat.digits2_pos m) - 1) <= Zpos m < 2 ^ Zpos (SpecFloat.digits2_pos m).
Proof.
  induction m as [m IH | m IH | ]; cbn [SpecFloat.digits2_pos].
  - rewrite Pos2Z.inj_succ.
    replace (Z.succ (Zpos (SpecFloat.digits2_pos m)) - 1)
      with (1 + (Zpos (SpecFloat.digits2_pos m) - 1)) by lia.
    rewrite Z.pow_succ_r by lia. rewrite Z.pow_add_r by lia.
    change (2 ^ 1) with 2. lia.
  - rewrite Pos2Z.inj_succ.
    replace (Z.succ (Zpos (SpecFloat.digits2_pos m)) - 1)
      with (1 + (Zpos (SpecFloat.digits2_pos m) - 1)) by lia.
    rewrite Z.pow_succ_r by lia. rewrite Z.pow_add_r by lia.
    change (2 ^ 1) with 2. lia.
  - cbn. lia.
Qed.

(** What validity says of a finite binary64 value. *)
Lemma bounded_inv (m : positive) (e : Z) :
  SpecFloat.bounded prec emax m e = true ->
  -1074 <= e <= 971 /\ Zpos (SpecFloat.digits2_pos m) <= 53 /\
  (-1074 < e -> Zpos (SpecFloat.digits2_pos m) = 53).
Proof.
  unfold SpecFloat.bounded, SpecFloat.canonical_mantissa, SpecFloat.fexp, SpecFloat.emin.
  change prec with 53. change emax with 1024.
  intros H. apply andb_prop in H. destruct H as [H1 H2].
  apply Z.eqb_eq in H1. apply Z.leb_le in H2. lia.
Qed.


Lemma finite_val_bounds (m : positive) (e : Z) :
  SpecFloat.bounded prec emax m e = true ->
  1 <= Zpos m * 2 ^ (e + 1074) < 2 ^ 2098.
Proof.
  intros H. destruct (bounded_inv _ _ H) as (He & Hd & _).
  pose proof (digits2_pos_bounds m) as [_ Hm].
  assert (Hp : 0 < 2 ^ (e + 1074)) by (apply Z.pow_pos_nonneg; lia).
  split; [nia|].
  apply Z.lt_le_trans with (2 ^ 53 * 2 ^ (e + 1074)).
  - apply Z.mul_lt_mono_pos_r; [exact Hp|].
    apply Z.lt_le_trans with (1 := Hm). apply Z.pow_le_mono_r; lia.
  - rewrite <- Z.pow_add_r by lia. apply Z.pow_le_mono_r; lia.
Qed.

Lemma finite_compare (m1 m2 : positive) (e1 e2 : Z) :
  SpecFloat.bounded prec emax m1 e1 = true ->
  SpecFloat.bounded prec emax m2 e2 = true ->
  match e1 ?= e2 with
  | Lt => Lt
  | Gt => Gt
  | Eq => Pos.compare_cont Eq m1 m2
  end = (Zpos m1 * 2 ^ (e1 + 1074) ?= Zpos m2 * 2 ^ (e2 + 1074)).
Proof.
  intros H1 H2.
  destruct (bounded_inv _ _ H1) as (He1 & Hd1 & Hn1).
  destruct (bounded_inv _ _ H2) as (He2 & Hd2 & Hn2).
  pose proof (digits2_pos_bounds m1) as [Hl1 Hu1].
  pose proof (digits2_pos_bounds m2) as [Hl2 Hu2].
  assert (Hlt : forall ma mb ea eb,
             -1074 <= ea -> ea < eb -> Zpos ma < 2 ^ 53 -> 2 ^ 52 <= Zpos mb ->
             Zpos ma * 2 ^ (ea + 1074) < Zpos mb * 2 ^ (eb + 1074)).
  { intros ma mb ea eb Ha Hab Hma Hmb.
    replace (eb + 1074) with ((eb - ea - 1) + 1 + (ea + 1074)) by lia.
    rewrite (Z.pow_add_r 2 (eb - ea - 1 + 1) (ea + 1074)) by lia.
    rewrite (Z.pow_add_r 2 (eb - ea - 1) 1) by lia. change (2 ^ 1) with 2.
    assert (0 < 2 ^ (ea + 1074)) by (apply Z.pow_pos_nonneg; lia).
    assert (1 <= 2 ^ (eb - ea - 1)) by (apply (Z.pow_le_mono_r 2 0); lia).
    assert (Zpos ma < Zpos mb * (2 ^ (eb - ea - 1) * 2)).
    { replace (2 ^ 53) with (2 ^ 52 * 2) in Hma by reflexivity.
      generalize dependent (2 ^ 52). generalize dependent (2 ^ (eb - ea - 1)).
      intros P HP Q HQ1 HQ2. nia. }
    rewrite Z.mul_assoc. apply Z.mul_lt_mono_pos_r; assumption. }
  assert (Hfull : forall m e, -1074 < e -> Zpos (SpecFloat.digits2_pos m) = 53 ->
                  2 ^ 52 <= Zpos m).
  { intros m e _ Hd. pose proof (digits2_pos_bounds m) as [Hl _].
    rewrite Hd in Hl. exact Hl. }
  assert (Hsmall : forall m, Zpos (SpecFloat.digits2_pos m) <= 53 -> Zpos m < 2 ^ 53).
  { intros m Hd. pose proof (digits2_pos_bounds m) as [_ Hu].
    apply Z.lt_le_trans with (1 := Hu). apply Z.pow_le_mono_r; lia. }
  destruct (Z.compare_spec e1 e2) as [Heq | Hl | Hg].
  - subst e2. rewrite Pos.compare_cont_spec. cbn [Pos.switch_Eq].
    assert (0 < 2 ^ (e1 + 1074)) by (apply Z.pow_pos_nonneg; lia).
    rewrite <- (Zmult_compare_compat_r (Zpos m1) (Zpos m2)) by lia.
    rewrite <- Pos2Z.inj_compare.
    destruct (m1 ?= m2)%positive; reflexivity.
  - symmetry. apply (proj2 (Z.compare_lt_iff _ _)).
    apply Hlt; try lia; [apply Hsmall; lia | apply (Hfull m2 e2); [lia | apply Hn2; lia]].
  - symmetry. apply (proj2 (Z.compare_gt_iff _ _)).
    apply Hlt; try lia; [apply Hsmall; lia | apply (Hfull m1 e1); [lia | apply Hn1; lia]].
Qed.

Ltac order_by_lia :=
  symmetry;
  first [ apply (proj2 (Z.compare_lt_iff _ _))
        | apply (proj2 (Z.compare_gt_iff _ _))
        | apply (proj2 (Z.compare_eq_iff _ _)) ];
  lia.


Lemma SFcompare_val (x y : spec_float) :
  valid_binary x = true -> valid_binary y = true ->
  not_nan x -> not_nan y ->
  SFcompare x y = Some (val x ?= val y).
Proof.
  intros Vx Vy Nx Ny.
  destruct x as [sx | sx | | sx mx ex]; [| | congruence |];
  destruct y as [sy | sy | | sy my ey]; try congruence;
    cbn [valid_binary SpecFloat.valid_binary] in Vx, Vy;
    try pose proof (finite_val_bounds _ _ Vx) as Bx;
    try pose proof (finite_val_bounds _ _ Vy) as By;
    cbn [SFcompare val SpecFloat.cond_Zopp].
  - reflexivity.
  - destruct sy; cbn; reflexivity.
  - destruct sy; cbn [SpecFloat.cond_Zopp]; f_equal; order_by_lia.
  - destruct sx; cbn; reflexivity.
  - destruct sx, sy; cbn; reflexivity.
  - assert (0 < 2 ^ 2098) by (apply Z.pow_pos_nonneg; lia).
    destruct sx, sy; cbn [SpecFloat.cond_Zopp]; f_equal; order_by_lia.
  - destruct sx; cbn [SpecFloat.cond_Zopp]; f_equal; order_by_lia.
  - assert (0 < 2 ^ 2098) by (apply Z.pow_pos_nonneg; lia).
    destruct sx, sy; cbn [SpecFloat.cond_Zopp]; f_equal; order_by_lia.
  - pose proof (finite_compare _ _ _ _ Vx Vy) as C.
    pose proof (finite_compare _ _ _ _ Vy Vx) as C'.
    destruct sx, sy; cbn [SpecFloat.cond_Zopp]; f_equal.
    + rewrite Z.compare_opp. rewrite <- C'.
      destruct (Z.compare_spec ex ey) as [E | L | G].
      * subst ey. rewrite Z.compare_refl.
        rewrite Pos.compare_cont_antisym. reflexivity.
      * apply Z.compare_gt_iff in L. rewrite L. reflexivity.
      * apply Z.compare_lt_iff in G. rewrite G. reflexivity.
    + order_by_lia.
    + order_by_lia.
    + exact C.
Qed.


(** *** Rounding keeps the sign *)

Lemma shr_1_m (mrs : shr_record) :
  0 <= shr_m mrs -> shr_m (shr_1 mrs) = shr_m mrs / 2.
Proof.
  destruct mrs as [m r s]. cbn [shr_m]. intros Hm.
  destruct m as [ | p | p ]; [reflexivity | | lia].
  destruct p as [p | p | ]; cbn [shr_1 shr_m].
  - rewrite Pos2Z.inj_xI. apply (Z.div_unique _ 2 _ 1); lia.
  - rewrite Pos2Z.inj_xO. apply (Z.div_unique _ 2 _ 0); lia.
  - reflexivity.
Qed.

Lemma iter_shr_1_m (p : positive) :
  forall mrs, 0 <= shr_m mrs ->
  shr_m (iter_pos shr_1 p mrs) = shr_m mrs / 2 ^ Zpos p.
Proof.
  induction p as [p IH | p IH | ]; intros mrs Hm; cbn [iter_pos];
    try pose proof (Z.pow_pos_nonneg 2 (Zpos p) ltac:(lia) ltac:(lia)) as Hp.
  - assert (H1 : 0 <= shr_m (shr_1 mrs)).
    { rewrite shr_1_m by assumption. apply Z.div_pos; lia. }
    assert (H2 : 0 <= shr_m (iter_pos shr_1 p (shr_1 mrs))).
    { rewrite IH by assumption. apply Z.div_pos; [assumption | apply Z.pow_pos_nonneg; lia]. }
    rewrite IH by assumption. rewrite IH by assumption. rewrite shr_1_m by assumption.
    rewrite !Z.div_div by lia.
    f_equal. rewrite <- Z.pow_add_r by lia. rewrite <- (Z.pow_succ_r 2) by lia.
    f_equal. lia.
  - assert (H2 : 0 <= shr_m (iter_pos shr_1 p mrs)).
    { rewrite IH by assumption. apply Z.div_pos; [assumption | apply Z.pow_pos_nonneg; lia]. }
    rewrite IH by assumption. rewrite IH by assumption.
    rewrite Z.div_div by lia.
    f_equal. rewrite <- Z.pow_add_r by lia. f_equal. lia.
  - rewrite shr_1_m by assumption. reflexivity.
Qed.

Lemma shr_record_of_loc_m (m : Z) (l : location) :
  shr_m (shr_record_of_loc m l) = m.
Proof. destruct l as [ | [ | | ]]; reflexivity. Qed.

Lemma Zdigits2_bounds (m : Z) :
  0 < m -> 2 ^ (Zdigits2 m - 1) <= m /\ 0 < Zdigits2 m.
Proof.
  destruct m as [ | p | p ]; try lia. intros _. cbn [Zdigits2].
  split; [apply digits2_pos_bounds | lia].
Qed.

(** Shifting a positive mantissa to its format exponent leaves it positive. *)
Lemma shr_fexp_pos (m e : Z) (l : location) :
  0 < m -> -1074 <= e ->
  0 < shr_m (fst (shr_fexp prec emax m e l)) /\
  -1074 <= snd (shr_fexp prec emax m e l).
Proof.
  intros Hm He. unfold shr_fexp, shr, SpecFloat.fexp, SpecFloat.emin.
  change prec with 53. change emax with 1024.
  destruct (Zdigits2_bounds Hm) as [Hd Hd0].
  remember (Z.max (Zdigits2 m + e - 53) (3 - 1024 - 53) - e) as n eqn:Hn.
  destruct n as [ | p | p ]; cbn [fst snd];
    rewrite ?shr_record_of_loc_m; try (split; lia).
  rewrite iter_shr_1_m by (rewrite shr_record_of_loc_m; lia).
  rewrite shr_record_of_loc_m. split; [ | lia].
  apply Z.div_str_pos. split; [apply Z.pow_pos_nonneg; lia | ].
  apply Z.le_trans with (2 := Hd). apply Z.pow_le_mono_r; lia.
Qed.

Lemma round_nearest_even_ge (m : Z) (l : location) :
  m <= round_nearest_even m l.
Proof.
  destruct l as [ | [ | | ]]; cbn [round_nearest_even]; try lia.
  destruct (Z.even m); lia.
Qed.


Lemma binary_round_aux_sign (s : bool) (m e : Z) (l : location) :
  0 < m -> -1074 <= e ->
  has_sign s (binary_round_aux prec emax s m e l).
Proof.
  intros Hm He. unfold binary_round_aux.
  pose proof (shr_fexp_pos l Hm He) as H1.
  destruct (shr_fexp prec emax m e l) as [mrs' e']. cbn [fst snd] in H1.
  destruct H1 as [H1 H1e].
  pose proof (round_nearest_even_ge (shr_m mrs') (loc_of_shr_record mrs')) as Hr.
  assert (Hr' : 0 < round_nearest_even (shr_m mrs') (loc_of_shr_record mrs')) by lia.
  pose proof (shr_fexp_pos loc_Exact Hr' H1e) as H2.
  destruct (shr_fexp prec emax _ e' loc_Exact) as [mrs'' e'']. cbn [fst snd] in H2.
  destruct H2 as [H2 _].
  destruct (shr_m mrs'') as [ | q | q ]; try lia.
  destruct (e'' <=? emax - prec); reflexivity.
Qed.

Lemma pos_iter_xO (d m : positive) :
  Zpos (Pos.iter xO m d) = Zpos m * 2 ^ Zpos d.
Proof.
  induction d as [ | d IH ] using Pos.peano_ind.
  - cbn. lia.
  - rewrite Pos.iter_succ, Pos2Z.inj_xO, IH, Pos2Z.inj_succ, Z.pow_succ_r by lia. lia.
Qed.

Lemma shl_align_spec (m : positive) (e e' : Z) :
  e' <= e ->
  Zpos (fst (shl_align m e e')) = Zpos m * 2 ^ (e - e') /\
  snd (shl_align m e e') = e'.
Proof.
  intros H. unfold shl_align.
  remember (e' - e) as d eqn:Hd. destruct d as [ | p | p ]; cbn [fst snd]; try lia.
  - replace (e - e') with 0 by lia. cbn. lia.
  - rewrite pos_iter_xO. replace (e - e') with (Zpos p) by lia. lia.
Qed.

Lemma binary_round_sign (s : bool) (m : positive) (e : Z) :
  -1074 <= e -> has_sign s (binary_round prec emax s m e).
Proof.
  intros He. unfold binary_round.
  remember (SpecFloat.fexp prec emax (Zpos (digits2_pos m) + e)) as e' eqn:He'.
  assert (-1074 <= e').
  { subst e'. unfold SpecFloat.fexp, SpecFloat.emin.
    change prec with 53. change emax with 1024. lia. }
  destruct (shl_align m e e') as [mz ez] eqn:Hs.
  apply binary_round_aux_sign; [lia | ].
  unfold shl_align in Hs. destruct (e' - e) eqn:Hd; inversion Hs; subst; lia.
Qed.

Lemma zero_ltb_has_sign (s : bool) (x : spec_float) :
  has_sign s x -> SFltb (S754_zero false) x = negb s.
Proof.
  destruct x as [ | s' | | s' m e ]; cbn; try contradiction;
    intros ->; destruct s; reflexivity.
Qed.

(** The comparator of the two sorts: the rounded difference is positive
    exactly when the minuend is the larger value. *)
Lemma SFsub_positive (x y : spec_float) :
  valid_binary x = true -> valid_binary y = true ->
  not_nan x -> not_nan y ->
  SFltb (S754_zero false) (SF64sub x y) = (val y <? val x).
Proof.
  intros Vx Vy Nx Ny.
  destruct x as [sx | sx | | sx mx ex]; [| | congruence |];
  destruct y as [sy | sy | | sy my ey]; try congruence;
    cbn [valid_binary SpecFloat.valid_binary] in Vx, Vy;
    try pose proof (finite_val_bounds _ _ Vx) as Bx;
    try pose proof (finite_val_bounds _ _ Vy) as By;
    try (assert (P : 0 < 2 ^ 2098) by (apply Z.pow_pos_nonneg; lia)).
  - destruct sx, sy; reflexivity.
  - destruct sx, sy; cbn [SF64sub SFsub SFltb SFcompare val cond_Zopp negb];
      symmetry; first [apply Z.ltb_lt | apply Z.ltb_ge]; lia.
  - destruct sx, sy; cbn [SF64sub SFsub SFltb SFcompare val cond_Zopp negb];
      symmetry; first [apply Z.ltb_lt | apply Z.ltb_ge]; lia.
  - destruct sx, sy; cbn [SF64sub SFsub SFltb SFcompare val cond_Zopp negb];
      symmetry; first [apply Z.ltb_lt | apply Z.ltb_ge]; lia.
  - destruct sx, sy; cbn [SF64sub SFsub SFltb SFcompare val cond_Zopp negb];
      symmetry; first [apply Z.ltb_lt | apply Z.ltb_ge]; lia.
  - destruct sx, sy; cbn [SF64sub SFsub SFltb SFcompare val cond_Zopp negb];
      symmetry; first [apply Z.ltb_lt | apply Z.ltb_ge]; lia.
  - destruct sx, sy; cbn [SF64sub SFsub SFltb SFcompare val cond_Zopp negb];
      symmetry; first [apply Z.ltb_lt | apply Z.ltb_ge]; lia.
  - destruct sx, sy; cbn [SF64sub SFsub SFltb SFcompare val cond_Zopp negb];
      symmetry; first [apply Z.ltb_lt | apply Z.ltb_ge]; lia.
  - destruct (bounded_inv _ _ Vx) as (Hex & _).
    destruct (bounded_inv _ _ Vy) as (Hey & _).
    unfold SF64sub, SFsub.
    set (ez := Z.min ex ey).
    destruct (shl_align_spec mx (e := ex) (e' := ez) ltac:(lia)) as [Ax _].
    destruct (shl_align_spec my (e := ey) (e' := ez) ltac:(lia)) as [Ay _].
    set (ax := Zpos (fst (shl_align mx ex ez))) in *.
    set (ay := Zpos (fst (shl_align my ey ez))) in *.
    assert (Hscale : (cond_Zopp sx ax - cond_Zopp sy ay) * 2 ^ (ez + 1074)
                     = val (S754_finite sx mx ex) - val (S754_finite sy my ey)).
    { cbn [val].
      replace (ex + 1074) with ((ex - ez) + (ez + 1074)) by lia.
      replace (ey + 1074) with ((ey - ez) + (ez + 1074)) by lia.
      rewrite (Z.pow_add_r 2 (ex - ez)), (Z.pow_add_r 2 (ey - ez)) by lia.
      rewrite Ax, Ay.
      destruct sx, sy; cbn [cond_Zopp]; ring. }
    assert (Pz : 0 < 2 ^ (ez + 1074)) by (apply Z.pow_pos_nonneg; lia).
    remember (cond_Zopp sx ax - cond_Zopp sy ay) as D eqn:HD.
    remember (val (S754_finite sx mx ex)) as vx.
    remember (val (S754_finite sy my ey)) as vy.
    destruct D as [ | p | p ]; cbn [binary_normalize].
    + cbn. symmetry. apply Z.ltb_ge. lia.
    + rewrite (zero_ltb_has_sign false) by (apply binary_round_sign; lia).
      symmetry. apply Z.ltb_lt. nia.
    + rewrite (zero_ltb_has_sign true) by (apply binary_round_sign; lia).
      symmetry. apply Z.ltb_ge. nia.
Qed.


(** *** The facts on primitive floats *)

Local Open Scope float_scope.

Lemma SFcompare_refl (x : spec_float) :
  not_nan x -> SFcompare x x = Some Eq.
Proof.
  destruct x as [s | s | | s m e]; cbn; intros H; try congruence.
  - destruct s; reflexivity.
  - rewrite Z.compare_refl, Pos.compare_cont_refl. destruct s; reflexivity.
Qed.

Lemma is_nan_Prim2SF (x : float) :
  is_nan x = true <-> Prim2SF x = S754_nan.
Proof.
  unfold is_nan. rewrite FloatAxioms.eqb_spec. unfold SFeqb. split.
  - intros H. destruct (Prim2SF x) eqn:E; try reflexivity;
      rewrite SFcompare_refl in H by (unfold not_nan; congruence); discriminate.
  - intros ->. reflexivity.
Qed.

(** There is one NaN. *)
Lemma is_nan_eq (x : float) : is_nan x = true -> x = nan.
Proof.
  intros H. apply is_nan_Prim2SF in H. apply Prim2SF_inj. rewrite H. reflexivity.
Qed.

Lemma not_nan_Prim2SF (x : float) :
  is_nan x = false -> not_nan (Prim2SF x).
Proof.
  intros H E. apply is_nan_Prim2SF in E. congruence.
Qed.


Lemma compare_key (x y : float) :
  is_nan x = false -> is_nan y = false ->
  SFcompare (Prim2SF x) (Prim2SF y) = Some (key x ?= key y)%Z.
Proof.
  intros Hx Hy. apply SFcompare_val;
    auto using Prim2SF_valid, not_nan_Prim2SF.
Qed.

Lemma ltb_key (x y : float) :
  is_nan x = false -> is_nan y = false -> (x <? y) = (key x <? key y)%Z.
Proof.
  intros Hx Hy. rewrite FloatAxioms.ltb_spec. unfold SFltb, Z.ltb.
  rewrite compare_key by assumption. reflexivity.
Qed.

Lemma leb_key (x y : float) :
  is_nan x = false -> is_nan y = false -> (x <=? y) = (key x <=? key y)%Z.
Proof.
  intros Hx Hy. rewrite FloatAxioms.leb_spec. unfold SFleb, Z.leb.
  rewrite compare_key by assumption. reflexivity.
Qed.

Lemma eqb_key (x y : float) :
  is_nan x = false -> is_nan y = false -> (x =? y) = (key x =? key y)%Z.
Proof.
  intros Hx Hy. rewrite FloatAxioms.eqb_spec. unfold SFeqb, Z.eqb.
  rewrite compare_key by assumption.
  destruct (key x) as [ | p | p ], (key y) as [ | q | q ]; cbn; try reflexivity.
  - destruct (Pos.compare_spec p q) as [-> | H | H];
      [ rewrite Pos.eqb_refl; reflexivity | | ];
      symmetry; apply Pos.eqb_neq; lia.
  - rewrite <- Pos.compare_antisym.
    destruct (Pos.compare_spec q p) as [-> | H | H];
      [ rewrite Pos.eqb_refl; reflexivity | | ];
      symmetry; apply Pos.eqb_neq; lia.
Qed.

(** [y - x > 0] is [x < y] as long as neither is NaN. *)
Lemma sub_positive (x y : float) :
  is_nan x = false -> is_nan y = false ->
  (zero <? y - x) = (key x <? key y)%Z.
Proof.
  intros Hx Hy. rewrite FloatAxioms.ltb_spec, FloatAxioms.sub_spec.
  change (Prim2SF zero) with (S754_zero false).
  apply SFsub_positive; auto using Prim2SF_valid, not_nan_Prim2SF.
Qed.

(** NaN is contagious. *)
Lemma add_nan_r (x : float) : x + nan = nan.
Proof.
  apply Prim2SF_inj. rewrite FloatAxioms.add_spec.
  change (Prim2SF nan) with S754_nan. destruct (Prim2SF x); reflexivity.
Qed.

Lemma add_nan_l (x : float) : nan + x = nan.
Proof.
  apply Prim2SF_inj. rewrite FloatAxioms.add_spec.
  change (Prim2SF nan) with S754_nan. destruct (Prim2SF x); reflexivity.
Qed.

Lemma mul_nan_r (x : float) : x * nan = nan.
Proof.
  apply Prim2SF_inj. rewrite FloatAxioms.mul_spec.
  change (Prim2SF nan) with S754_nan. destruct (Prim2SF x); reflexivity.
Qed.

Lemma div_nan_l (x : float) : nan / x = nan.
Proof.
  apply Prim2SF_inj. rewrite FloatAxioms.div_spec.
  change (Prim2SF nan) with S754_nan. destruct (Prim2SF x); reflexivity.
Qed.

End FloatFacts.

(** ** Lists, and the sort of the two searches *)

Module ArrFacts.

Import Num Arr Ranking FloatFacts FloatOrder.

Section Lists.

Variable A : Type.

Lemma In_firstn (n : nat) (l : list A) (x : A) : In x (firstn n l) -> In x l.
Proof.
  revert n. induction l as [ | a l IH ]; intros [ | n ]; cbn; try tauto.
  intros [-> | H]; [left; reflexivity | right; eapply IH; exact H].
Qed.

Lemma filter_none (p : A -> bool) (l : list A) :
  (forall x, In x l -> p x = false) -> filter p l = [].
Proof.
  induction l as [ | a l IH ]; cbn; intros H; [reflexivity | ].
  rewrite (H a) by auto. apply IH. intros x Hx. apply H. auto.
Qed.

Lemma ForallOrdPairs_firstn (R : A -> A -> Prop) (n : nat) (l : list A) :
  ForallOrdPairs R l -> ForallOrdPairs R (firstn n l).
Proof.
  intros H. revert n. induction H as [ | a l Ha Hl IH ]; intros [ | n ]; cbn;
    try constructor.
  - apply Forall_forall. intros x Hx. apply (proj1 (Forall_forall _ _) Ha).
    eapply In_firstn; eassumption.
  - apply IH.
Qed.

Lemma ForallOrdPairs_filter (R : A -> A -> Prop) (p : A -> bool) (l : list A) :
  ForallOrdPairs R l -> ForallOrdPairs R (filter p l).
Proof.
  induction 1 as [ | a l Ha Hl IH ]; cbn; [constructor | ].
  destruct (p a); [ | exact IH ].
  constructor; [ | exact IH ].
  apply Forall_forall. intros x Hx. apply filter_In in Hx.
  apply (proj1 (Forall_forall _ _) Ha). tauto.
Qed.

Lemma ForallOrdPairs_impl (R S : A -> A -> Prop) (l : list A) :
  (forall a b, In a l -> In b l -> R a b -> S a b) ->
  ForallOrdPairs R l -> ForallOrdPairs S l.
Proof.
  intros H HR. induction HR as [ | a l Ha Hl IH ]; constructor.
  - apply Forall_forall. intros x Hx. apply H; cbn; auto.
    apply (proj1 (Forall_forall _ _) Ha). exact Hx.
  - apply IH. intros x y Hx Hy. apply H; cbn; auto.
Qed.

(** Truncating and then filtering is filtering and then truncating, on a
    list whose entries that pass the filter come before those that fail. *)
Lemma filter_firstn_commute (p : A -> bool) (n : nat) (l : list A) :
  ForallOrdPairs (fun a b => p b = true -> p a = true) l ->
  filter p (firstn n l) = firstn n (filter p l).
Proof.
  intros H. revert n. induction H as [ | a l Ha Hl IH ]; intros [ | n ]; cbn;
    try reflexivity.
  destruct (p a) eqn:Pa.
  - cbn. rewrite IH. reflexivity.
  - assert (Hnone : forall m, filter p (firstn m l) = []).
    { intros m. apply filter_none.
      intros x Hx. apply In_firstn in Hx.
      pose proof (proj1 (Forall_forall _ _) Ha x Hx) as Hax.
      cbn beta in Hax. destruct (p x); [ | reflexivity ].
      specialize (Hax eq_refl). discriminate. }
    rewrite Hnone. specialize (Hnone (List.length l)).
    rewrite firstn_all in Hnone. rewrite Hnone. destruct n; reflexivity.
Qed.

End Lists.

(** Whatever the comparator answers, the sort rearranges its input. *)
Section AnyComparator.

Variable A : Type.
Variable comparefn : A -> A -> number.

Lemma insert_perm (x : A) (l : list A) :
  Permutation (insert comparefn x l) (x :: l).
Proof.
  induction l as [ | y r IH ]; cbn [insert]; [reflexivity | ].
  destruct (sorts_after comparefn x y); [ | reflexivity ].
  rewrite IH. apply perm_swap.
Qed.

Lemma sort_perm (l : list A) : Permutation (sort comparefn l) l.
Proof.
  induction l as [ | x l IH ]; cbn; [reflexivity | ].
  rewrite insert_perm. constructor. exact IH.
Qed.

Lemma sort_length (l : list A) : List.length (sort comparefn l) = List.length l.
Proof. apply Permutation_length, sort_perm. Qed.

End AnyComparator.

Section KeySortFacts.

Variable A : Type.
Variable k : A -> Z.

Lemma kinsert_perm (x : A) (l : list A) : Permutation (kinsert k x l) (x :: l).
Proof.
  induction l as [ | y r IH ]; cbn; [reflexivity | ].
  destruct (k x <? k y)%Z; [ | reflexivity ].
  rewrite IH. apply perm_swap.
Qed.

Lemma ksort_perm (l : list A) : Permutation (ksort k l) l.
Proof.
  induction l as [ | x l IH ]; cbn; [reflexivity | ].
  rewrite kinsert_perm. constructor. exact IH.
Qed.

Variable pos : A -> nat.

Lemma kinsert_before (x : A) (l : list A) :
  Forall (fun y => pos x < pos y) l ->
  ForallOrdPairs (before k pos) l ->
  ForallOrdPairs (before k pos) (kinsert k x l).
Proof.
  intros Hpos Hl. induction Hl as [ | y r Hy Hr IH ]; cbn.
  - repeat constructor.
  - inversion Hpos as [ | ? ? Hxy Hxr ]; subst.
    destruct (k x <? k y)%Z eqn:E.
    + apply Z.ltb_lt in E. constructor; [ | apply IH; exact Hxr ].
      apply Forall_forall. intros z Hz.
      apply (Permutation_in _ (kinsert_perm x r)) in Hz.
      destruct Hz as [<- | Hz]; [left; exact E | ].
      apply (proj1 (Forall_forall _ _) Hy). exact Hz.
    + apply Z.ltb_ge in E. constructor; [ | constructor; assumption ].
      constructor.
      * unfold before. lia.
      * apply Forall_forall. intros z Hz.
        pose proof (proj1 (Forall_forall _ _) Hy z Hz) as Hyz.
        pose proof (proj1 (Forall_forall _ _) Hxr z Hz) as Hxz.
        cbn beta in Hxz. unfold before in *. lia.
Qed.

Lemma ksort_before (l : list A) :
  ForallOrdPairs (fun a b => pos a < pos b) l ->
  ForallOrdPairs (before k pos) (ksort k l).
Proof.
  induction 1 as [ | x l Hx Hl IH ]; cbn; [constructor | ].
  apply kinsert_before; [ | exact IH ].
  apply Forall_forall. intros y Hy.
  apply (Permutation_in _ (ksort_perm l)) in Hy.
  apply (proj1 (Forall_forall _ _) Hx). exact Hy.
Qed.

End KeySortFacts.

Section SortBySimilarity.

Variable A : Type.
Variable sim : A -> number.

Lemma insert_kinsert (x : A) (l : list A) :
  PrimFloat.is_nan (sim x) = false -> sims_ok sim l ->
  insert (descending sim) x l = kinsert (fun a => key (sim a)) x l.
Proof.
  intros Hx Hl. induction Hl as [ | y r Hy Hr IH ]; cbn; [reflexivity | ].
  unfold sorts_after, gtb, descending.
  rewrite sub_positive by assumption.
  destruct (key (sim x) <? key (sim y))%Z; [ | reflexivity ].
  f_equal. exact IH.
Qed.

Lemma sort_ksort (l : list A) :
  sims_ok sim l -> sort (descending sim) l = ksort (fun a => key (sim a)) l.
Proof.
  induction 1 as [ | x l Hx Hl IH ]; cbn; [reflexivity | ].
  unfold sort in IH. rewrite IH. apply insert_kinsert; [assumption | ].
  apply Forall_forall. intros y Hy.
  apply (Permutation_in _ (ksort_perm _ l)) in Hy.
  apply (proj1 (Forall_forall _ _) Hl). exact Hy.
Qed.


(** Without a NaN the sort ranks its input. *)
Lemma sort_ranked (pos : A -> nat) (l : list A) :
  sims_ok sim l ->
  ForallOrdPairs (fun a b => pos a < pos b) l ->
  ranked sim pos (sort (descending sim) l).
Proof.
  intros Hok Hpos. unfold ranked.
  apply ForallOrdPairs_impl
    with (R := before (fun a => key (sim a)) pos).
  - intros a b Ha Hb Hab.
    assert (Na : PrimFloat.is_nan (sim a) = false).
    { apply (proj1 (Forall_forall _ _) Hok).
      apply (Permutation_in _ (sort_perm (descending sim) l)). exact Ha. }
    assert (Nb : PrimFloat.is_nan (sim b) = false).
    { apply (proj1 (Forall_forall _ _) Hok).
      apply (Permutation_in _ (sort_perm (descending sim) l)). exact Hb. }
    rewrite leb_key, eqb_key by assumption. unfold before in Hab. split.
    + apply Z.leb_le. lia.
    + intros E. apply Z.eqb_eq in E. lia.
  - rewrite sort_ksort by assumption. apply ksort_before. exact Hpos.
Qed.

End SortBySimilarity.

(** The sort does not look at what the records carry beside the
    similarity. *)
Lemma sort_map (A B : Type) (f : A -> B) (c : B -> B -> number) (l : list A) :
  map f (sort (fun a b => c (f a) (f b)) l) = sort c (map f l).
Proof.
  induction l as [ | x l IH ]; cbn; [reflexivity | ].
  unfold sort in IH. rewrite <- IH.
  generalize (fold_right (insert (fun a b => c (f a) (f b))) [] l) as s.
  induction s as [ | y r IHr ]; cbn; [reflexivity | ].
  unfold sorts_after, gtb. destruct (PrimFloat.ltb _ (c (f x) (f y))); cbn;
    [ f_equal; exact IHr | reflexivity ].
Qed.

End ArrFacts.

(** ** Strings *)

Module StrFacts.

Import Str.

Lemma reverse_onto_length (s acc : string) :
  String.length (reverse_onto s acc) = String.length s + String.length acc.
Proof.
  revert acc. induction s as [ | c r IH ]; intros acc; cbn; [reflexivity | ].
  rewrite IH. cbn. lia.
Qed.

Lemma reverse_length (s : string) : String.length (reverse s) = String.length s.
Proof. unfold reverse. rewrite reverse_onto_length. cbn. lia. Qed.

Lemma trimStart_length (s : string) :
  String.length (trimStart s) <= String.length s.
Proof.
  induction s as [ | c r IH ]; cbn; [lia | ].
  destruct (is_space c); cbn; lia.
Qed.

(** Trimming never lengthens. *)
Lemma trim_length (s : string) : String.length (trim s) <= String.length s.
Proof.
  unfold trim, trimEnd. rewrite reverse_length.
  pose proof (trimStart_length (reverse (trimStart s))) as H1.
  rewrite reverse_length in H1. pose proof (trimStart_length s). lia.
Qed.

Lemma append_empty_r (s : string) : (s ++ "")%string = s.
Proof. induction s as [ | c r IH ]; cbn; [reflexivity | rewrite IH; reflexivity]. Qed.

Lemma reverse_onto_twice (s a b : string) :
  reverse_onto (reverse_onto s a) b = reverse_onto a (s ++ b)%string.
Proof.
  revert a b. induction s as [ | c r IH ]; intros a b; cbn; [reflexivity | ].
  rewrite IH. reflexivity.
Qed.

Lemma reverse_involutive (s : string) : reverse (reverse s) = s.
Proof. unfold reverse. rewrite reverse_onto_twice. cbn. apply append_empty_r. Qed.

(** A string of white space trims to nothing. *)
Lemma trimStart_spaces (s : string) :
  all_chars is_space s = true -> trimStart s = "".
Proof.
  induction s as [ | c r IH ]; cbn; [reflexivity | ].
  intros H. apply andb_prop in H. destruct H as [Hc Hr].
  rewrite Hc. apply IH. exact Hr.
Qed.

Lemma trim_spaces (s : string) : all_chars is_space s = true -> trim s = "".
Proof. intros H. unfold trim. rewrite trimStart_spaces by assumption. reflexivity. Qed.

Lemma trim_empty : trim "" = "".
Proof. reflexivity. Qed.

Lemma space_not_terminator (c : ascii) :
  is_space c = true -> is_terminator c = false.
Proof.
  destruct c as [[] [] [] [] [] [] [] []]; cbv; intros H;
    first [reflexivity | discriminate H].
Qed.

Lemma space_not_word (c : ascii) :
  is_space c = true -> is_word_char (lower_char c) = false.
Proof.
  destruct c as [[] [] [] [] [] [] [] []]; cbv; intros H;
    first [reflexivity | discriminate H].
Qed.

(** A string of white space is one sentence piece, itself. *)
Lemma split_from_spaces (s cur : string) :
  all_chars is_space s = true ->
  split_from s cur false = [reverse (reverse_onto s cur)].
Proof.
  revert cur. induction s as [ | c r IH ]; intros cur H; cbn; [reflexivity | ].
  cbn in H. apply andb_prop in H. destruct H as [Hc Hr].
  rewrite (space_not_terminator _ Hc). apply IH. exact Hr.
Qed.

Lemma split_sentences_spaces (s : string) :
  all_chars is_space s = true -> split_sentences s = [s].
Proof.
  intros H. unfold split_sentences. rewrite split_from_spaces by assumption.
  f_equal. apply reverse_involutive.
Qed.

(** A string of white space holds no word. *)
Lemma match_words_spaces (s : string) :
  all_chars is_space s = true -> match_words (toLowerCase s) = [].
Proof.
  unfold match_words. induction s as [ | c r IH ]; cbn; [reflexivity | ].
  intros H. apply andb_prop in H. destruct H as [Hc Hr].
  rewrite (space_not_word _ Hc). apply IH. exact Hr.
Qed.

End StrFacts.

(** ** Indexed maps, and what the sort leaves in place *)

Module RankFacts.

Import Num Arr Ranking FloatFacts FloatOrder ArrFacts.

Section Mapi.

Variables A B : Type.
Variable f : A -> nat -> B.

Lemma mapi_from_In (i : nat) (l : list A) (r : B) :
  In r (mapi_from f i l) ->
  exists j x, nth_error l j = Some x /\ r = f x (i + j).
Proof.
  revert i. induction l as [ | a l IH ]; intros i; cbn; [tauto | ].
  intros [<- | H].
  - exists 0, a. rewrite Nat.add_0_r. split; reflexivity.
  - destruct (IH _ H) as (j & x & Hj & ->).
    exists (S j), x. split; [exact Hj | f_equal; lia].
Qed.

Lemma mapi_from_length (i : nat) (l : list A) :
  List.length (mapi_from f i l) = List.length l.
Proof.
  revert i. induction l as [ | a l IH ]; intros i; cbn; [reflexivity | ].
  rewrite IH. reflexivity.
Qed.

Lemma mapi_from_map (C : Type) (g : B -> C) (h : A -> C) (i : nat) (l : list A) :
  (forall x j, g (f x j) = h x) ->
  map g (mapi_from f i l) = map h l.
Proof.
  intros H. revert i. induction l as [ | a l IH ]; intros i; cbn; [reflexivity | ].
  rewrite H, IH. reflexivity.
Qed.

(** The entries of an indexed map stand in the order of their indices. *)
Lemma mapi_from_ordered (pos : B -> nat) (i : nat) (l : list A) :
  (forall x j, pos (f x j) = j) ->
  ForallOrdPairs (fun a b => pos a < pos b) (mapi_from f i l).
Proof.
  intros H. revert i. induction l as [ | a l IH ]; intros i; cbn; constructor.
  - apply Forall_forall. intros b Hb.
    destruct (mapi_from_In _ _ _ Hb) as (j & x & _ & ->).
    rewrite !H. lia.
  - apply IH.
Qed.

End Mapi.

Section Descending.

Variable A : Type.
Variable k : A -> Z.

Lemma kinsert_descending (x : A) (l : list A) :
  ForallOrdPairs (fun a b => (k b <= k a)%Z) l ->
  ForallOrdPairs (fun a b => (k b <= k a)%Z) (kinsert k x l).
Proof.
  induction 1 as [ | y r Hy Hr IH ]; cbn.
  - repeat constructor.
  - destruct (k x <? k y)%Z eqn:E.
    + apply Z.ltb_lt in E. constructor; [ | exact IH ].
      apply Forall_forall. intros z Hz.
      apply (Permutation_in _ (kinsert_perm k x r)) in Hz.
      destruct Hz as [<- | Hz]; [lia | ].
      apply (proj1 (Forall_forall _ _) Hy). exact Hz.
    + apply Z.ltb_ge in E. constructor; [ | constructor; assumption ].
      constructor; [exact E | ].
      apply Forall_forall. intros z Hz.
      pose proof (proj1 (Forall_forall _ _) Hy z Hz) as Hyz.
      cbn beta in Hyz. lia.
Qed.

Lemma ksort_descending (l : list A) :
  ForallOrdPairs (fun a b => (k b <= k a)%Z) (ksort k l).
Proof.
  induction l as [ | x l IH ]; cbn; [constructor | ].
  apply kinsert_descending. exact IH.
Qed.

End Descending.

Lemma filter_perm_length (A : Type) (p : A -> bool) (l l' : list A) :
  Permutation l l' -> List.length (filter p l) = List.length (filter p l').
Proof.
  induction 1 as [ | x l l' _ IH | x y l | l l' l'' _ IH1 _ IH2 ]; cbn.
  - reflexivity.
  - destruct (p x); cbn; rewrite IH; reflexivity.
  - destruct (p x), (p y); reflexivity.
  - rewrite IH1. exact IH2.
Qed.

Lemma no_nan_sims_ok (A : Type) (sim : A -> number) (l : list A) :
  no_nan (map sim l) = true -> sims_ok sim l.
Proof.
  unfold no_nan, sims_ok. intros H. apply Forall_forall. intros a Ha.
  rewrite forallb_forall in H. specialize (H (sim a) (in_map sim l a Ha)).
  destruct (PrimFloat.is_nan (sim a)); [discriminate H | reflexivity].
Qed.

(** Above a threshold that is no NaN, the sorted list has its passing
    entries first. *)
Lemma sort_threshold_first (A : Type) (sim : A -> number) (t : number) (l : list A) :
  PrimFloat.is_nan t = false -> sims_ok sim l ->
  ForallOrdPairs (fun a b => gtb (sim b) t = true -> gtb (sim a) t = true)
    (sort (descending sim) l).
Proof.
  intros Ht Hok. rewrite sort_ksort by assumption.
  apply ForallOrdPairs_impl with (R := fun a b => (key (sim b) <= key (sim a))%Z).
  - intros a b Ha Hb Hab.
    assert (Na : PrimFloat.is_nan (sim a) = false).
    { apply (proj1 (Forall_forall _ _) Hok).
      apply (Permutation_in _ (ksort_perm (fun a => key (sim a)) l)). exact Ha. }
    assert (Nb : PrimFloat.is_nan (sim b) = false).
    { apply (proj1 (Forall_forall _ _) Hok).
      apply (Permutation_in _ (ksort_perm (fun a => key (sim a)) l)). exact Hb. }
    unfold gtb. rewrite !ltb_key by assumption.
    intros H. apply Z.ltb_lt in H. apply Z.ltb_lt. lia.
  - apply ksort_descending.
Qed.

End RankFacts.

(** ** The vocabulary of an embedding *)

Module ObjFacts.

Import Str Obj.

Lemma update_names (o : object) (key : string) (v : prim) (k : string) :
  In k (map fst (update o key v)) <-> k = key \/ In k (map fst o).
Proof.
  induction o as [ | [k0 w] r IH ]; cbn.
  - intuition congruence.
  - destruct (String.eqb k0 key) eqn:E; cbn.
    + apply String.eqb_eq in E. subst k0. intuition congruence.
    + rewrite IH. intuition congruence.
Qed.

Lemma update_NoDup (o : object) (key : string) (v : prim) :
  NoDup (map fst o) -> NoDup (map fst (update o key v)).
Proof.
  induction o as [ | [k0 w] r IH ]; cbn; intros H.
  - constructor; [intros [] | constructor].
  - inversion H as [ | ? ? Hk0 Hr ]; subst.
    destruct (String.eqb k0 key) eqn:E; cbn.
    + constructor; assumption.
    + constructor; [ | apply IH; exact Hr ].
      rewrite update_names. intros [-> | Hin]; [ | contradiction ].
      rewrite String.eqb_refl in E. discriminate E.
Qed.

(** The own property names after counting: the names before, and every
    counted word but [__proto__]. *)
Lemma count_words_names (words : list string) (o : object) (k : string) :
  In k (map fst (fold_left SimpleVectorStore.count_word words o)) <->
  In k (map fst o) \/ (In k words /\ k <> "__proto__").
Proof.
  revert o. induction words as [ | w ws IH ]; intros o; cbn.
  - tauto.
  - rewrite IH. unfold SimpleVectorStore.count_word at 1, set.
    destruct (String.eqb w "__proto__") eqn:E.
    + apply String.eqb_eq in E. subst w. intuition congruence.
    + apply String.eqb_neq in E. rewrite update_names.
      intuition (subst; auto).
Qed.

Lemma count_words_NoDup (words : list string) (o : object) :
  NoDup (map fst o) ->
  NoDup (map fst (fold_left SimpleVectorStore.count_word words o)).
Proof.
  revert o. induction words as [ | w ws IH ]; intros o H; cbn; [exact H | ].
  apply IH. unfold SimpleVectorStore.count_word, set.
  destruct (String.eqb w "__proto__"); [exact H | apply update_NoDup; exact H].
Qed.

Lemma insert_index_perm (x : N * string) (l : list (N * string)) :
  Permutation (insert_index x l) (x :: l).
Proof.
  induction l as [ | y r IH ]; cbn; [reflexivity | ].
  destruct (fst x <? fst y)%N; [reflexivity | ].
  rewrite IH. apply perm_swap.
Qed.

(** [Object.keys] lists every own property name once. *)
Lemma keys_perm (o : object) : Permutation (keys o) (map fst o).
Proof.
  unfold keys. induction o as [ | [k v] r IH ]; cbn; [reflexivity | ].
  destruct (array_index k) as [n | ].
  - rewrite (Permutation_map snd (insert_index_perm (n, k) (index_keys r))).
    cbn. constructor. exact IH.
  - rewrite <- Permutation_middle. constructor. exact IH.
Qed.

End ObjFacts.

Section Vocabulary.

Import Str Obj SimpleVectorStore ObjFacts.

(** The vocabulary of an embedding lists, each once, the words of the
    lowercased text other than [__proto__]. *)
Lemma vocabulary_words (text : string) :
  NoDup (vocabulary (createEmbedding text)) /\
  forall w, In w (vocabulary (createEmbedding text)) <->
            In w (match_words (toLowerCase text)) /\ w <> "__proto__".
Proof.
  unfold createEmbedding. cbn [vocabulary]. unfold count_words. split.
  - apply (Permutation_NoDup (Permutation_sym (keys_perm _))).
    apply count_words_NoDup. constructor.
  - intros w. split.
    + intros H. apply (Permutation_in _ (keys_perm _)) in H.
      apply count_words_names in H. destruct H as [[] | H]. exact H.
    + intros H. apply (Permutation_in _ (Permutation_sym (keys_perm _))).
      apply count_words_names. right. exact H.
Qed.

End Vocabulary.

(** ** Counting by increments *)

Module CountFacts.

Import Num Str Obj Counting FloatOrder FloatFacts.

Local Open Scope float_scope.

(** Adding one to a positive number gives a positive number. *)
Lemma add_one_positive (x : float) :
  has_sign false (Prim2SF x) -> has_sign false (Prim2SF (x + 1)).
Proof.
  intros H. rewrite FloatAxioms.add_spec.
  pose proof (Prim2SF_valid x) as V.
  change (Prim2SF 1) with (S754_finite false 4503599627370496 (-52)).
  destruct (Prim2SF x) as [s | s | | s m e]; cbn in H; try contradiction; subst s.
  - reflexivity.
  - unfold SF64add, SFadd.
    cbn [SpecFloat.valid_binary] in V. destruct (bounded_inv _ _ V) as (He & _).
    cbn [cond_Zopp].
    rewrite <- Pos2Z.inj_add. cbn [binary_normalize].
    apply binary_round_sign. lia.
Qed.

Lemma positive_truthy (x : float) :
  has_sign false (Prim2SF x) -> Num.truthy x = true.
Proof.
  intros H. unfold Num.truthy.
  assert (N : PrimFloat.is_nan x = false).
  { destruct (PrimFloat.is_nan x) eqn:E; [ | reflexivity ].
    apply is_nan_Prim2SF in E. rewrite E in H. contradiction. }
  rewrite N. unfold PrimFloat.is_zero. rewrite FloatAxioms.eqb_spec.
  change (Prim2SF PrimFloat.zero) with (S754_zero false).
  destruct (Prim2SF x) as [s | s | | s m e]; cbn in H; try contradiction; subst s;
    reflexivity.
Qed.

Lemma counted_positive (n : nat) : has_sign false (Prim2SF (counted (S n))).
Proof.
  induction n as [ | n IH ].
  - vm_compute. reflexivity.
  - change (counted (S (S n))) with (counted (S n) + 1).
    apply add_one_positive. exact IH.
Qed.

Lemma plus_one_counted (w : string) (o : object) (n : nat) :
  ordinary w -> own o w = counted_value n ->
  plus_one (or_zero (get o w)) = PNum (counted (S n)).
Proof.
  intros Hw Ho. unfold get. rewrite Ho.
  destruct n as [ | n ]; cbn [counted_value].
  - rewrite Hw. reflexivity.
  - unfold or_zero, truthy. rewrite (positive_truthy _ (counted_positive n)).
    reflexivity.
Qed.

Lemma own_update (o : object) (key : string) (v : prim) (w : string) :
  own (update o key v) w = if String.eqb key w then Some v else own o w.
Proof.
  induction o as [ | [k0 x] r IH ]; cbn.
  - destruct (String.eqb key w); reflexivity.
  - destruct (String.eqb k0 key) eqn:E; cbn.
    + apply String.eqb_eq in E. subst k0.
      destruct (String.eqb key w); reflexivity.
    + destruct (String.eqb k0 w) eqn:E'.
      * apply String.eqb_eq in E'. subst k0. rewrite String.eqb_sym, E. reflexivity.
      * exact IH.
Qed.

Lemma count_words_own (w : string) (words : list string) (o : object) (n : nat) :
  ordinary w -> own o w = counted_value n ->
  own (fold_left SimpleVectorStore.count_word words o) w
  = counted_value (n + count_occ string_dec words w).
Proof.
  intros Hw. revert o n. induction words as [ | w' ws IH ]; intros o n Ho; cbn.
  - rewrite Nat.add_0_r. exact Ho.
  - destruct (string_dec w' w) as [-> | Hne].
    + rewrite Nat.add_succ_r. apply (IH _ (S n)).
      unfold SimpleVectorStore.count_word, set.
      assert (P : String.eqb w "__proto__" = false).
      { apply String.eqb_neq. intros ->. discriminate Hw. }
      rewrite P, own_update, String.eqb_refl.
      rewrite (plus_one_counted _ _ Hw Ho). reflexivity.
    + apply IH. unfold SimpleVectorStore.count_word, set.
      destruct (String.eqb w' "__proto__"); [exact Ho | ].
      rewrite own_update. apply String.eqb_neq in Hne. rewrite Hne. exact Ho.
Qed.

End CountFacts.

(** ** The words of a lowercased text *)

Module WordFacts.

Import Str Obj Counting.

Lemma lower_char_not_capital (c : ascii) : not_capital (lower_char c) = true.
Proof. destruct c as [[] [] [] [] [] [] [] []]; reflexivity. Qed.

Lemma toLowerCase_not_capital (s : string) :
  all_chars not_capital (toLowerCase s) = true.
Proof.
  induction s as [ | c r IH ]; cbn; [reflexivity | ].
  rewrite lower_char_not_capital. exact IH.
Qed.

Lemma all_chars_reverse_onto (p : ascii -> bool) (s acc : string) :
  all_chars p (reverse_onto s acc) = all_chars p s && all_chars p acc.
Proof.
  revert acc. induction s as [ | c r IH ]; intros acc; cbn; [reflexivity | ].
  rewrite IH. cbn. destruct (p c), (all_chars p r); reflexivity.
Qed.

Lemma all_chars_reverse (p : ascii -> bool) (s : string) :
  all_chars p (reverse s) = all_chars p s.
Proof. unfold reverse. rewrite all_chars_reverse_onto. cbn. apply andb_true_r. Qed.

(** The characters of a word are characters of the text. *)
Lemma match_words_from_chars (p : ascii -> bool) (s cur w : string) :
  all_chars p s = true -> all_chars p cur = true ->
  In w (match_words_from s cur) -> all_chars p w = true.
Proof.
  revert cur. induction s as [ | c r IH ]; intros cur Hs Hcur;
    cbn [match_words_from].
  - destruct cur; cbn [In]; [tauto | ].
    intros [<- | []]. rewrite all_chars_reverse. exact Hcur.
  - cbn in Hs. apply andb_prop in Hs. destruct Hs as [Hc Hr].
    destruct (is_word_char c).
    + apply IH; [exact Hr | cbn; rewrite Hc; exact Hcur].
    + destruct cur as [ | c0 cur0 ].
      * apply IH; [exact Hr | reflexivity].
      * cbn [In]. intros [<- | H].
        -- rewrite all_chars_reverse. exact Hcur.
        -- revert H. apply IH; [exact Hr | reflexivity].
Qed.

(** Of the names that [Object.prototype] defines, a word of a lowercased
    text can only be [constructor] or [__proto__]. *)
Lemma lowercase_word_ordinary (text w : string) :
  In w (match_words (toLowerCase text)) ->
  w <> "constructor" -> w <> "__proto__" -> ordinary w.
Proof.
  intros Hin Hc Hp.
  assert (L : all_chars not_capital w = true).
  { eapply match_words_from_chars; [apply toLowerCase_not_capital | | exact Hin].
    reflexivity. }
  unfold ordinary, Object_prototype_get.
  apply String.eqb_neq in Hc. apply String.eqb_neq in Hp. rewrite Hc, Hp.
  cbn [existsb].
  repeat match goal with
         | |- context [String.eqb w ?name] =>
             destruct (String.eqb_spec w name) as [-> | _];
             [discriminate L | ]
         end.
  reflexivity.
Qed.

End WordFacts.

Section Frequencies.

Import Num Str Obj Counting SimpleVectorStore ObjFacts CountFacts WordFacts.

Lemma Forall2_map_self (A B : Type) (R : A -> B -> Prop) (f : A -> B) (l : list A) :
  (forall a, In a l -> R a (f a)) -> Forall2 R l (map f l).
Proof.
  induction l as [ | a l IH ]; cbn; intros H; constructor.
  - apply H. left. reflexivity.
  - apply IH. intros b Hb. apply H. right. exact Hb.
Qed.

(** The component of a word other than [constructor] is the number of its
    occurrences in the lowercased text, counted from [0] by steps of [1],
    divided by the number of words. *)
Lemma vector_frequencies (text : string) :
  Forall2
    (fun w x =>
       w <> "constructor" ->
       x = (counted (count_occ string_dec (match_words (toLowerCase text)) w)
            / of_nat (List.length (match_words (toLowerCase text))))%float)
    (vocabulary (createEmbedding text)) (vector (createEmbedding text)).
Proof.
  pose proof (vocabulary_words text) as [_ Hvoc].
  unfold createEmbedding in *. cbn [vocabulary vector] in *.
  apply Forall2_map_self. intros w Hw Hc.
  apply Hvoc in Hw. destruct Hw as [Hin Hp].
  pose proof (lowercase_word_ordinary _ Hin Hc Hp) as Ho.
  unfold get, count_words.
  rewrite (@count_words_own w _ [] 0 Ho eq_refl). cbn [Nat.add].
  apply (count_occ_In string_dec) in Hin.
  destruct (count_occ string_dec _ w) eqn:E; [lia | reflexivity].
Qed.

End Frequencies.

(** ** The local term-frequency embedder *)

Section LocalEmbedder.

Import Num Str Obj Data SimpleVectorStore.

(** C7, evaluated where the code departs from it.  The word [constructor]
    is counted through [Object.prototype.constructor]: the count becomes a
    string and its frequency NaN, where one occurrence among one word is the
    frequency 1.  The word [__proto__] is counted in the total and never
    enters the vocabulary. *)
Theorem createEmbedding_constructor :
  match_words (toLowerCase "constructor") = ["constructor"] /\
  count_words ["constructor"]
    = [("constructor", PStr "function Object() { [native code] }1")] /\
  createEmbedding "constructor"
    = mkEmbedding [PrimFloat.nan] ["constructor"] "constructor" /\
  (of_nat 1 / of_nat 1)%float = 1%float /\
  createEmbedding "a __proto__"
    = mkEmbedding [0.5%float] ["a"] "a __proto__".
Proof. repeat split; vm_compute; reflexivity. Qed.

(** The vector and the vocabulary of an embedding have the same length. *)
Lemma createEmbedding_lengths (text : string) :
  List.length (vector (createEmbedding text))
  = List.length (vocabulary (createEmbedding text)).
Proof. unfold createEmbedding. cbn [vector vocabulary]. apply length_map. Qed.

(** A text without a word has the empty vector and the empty vocabulary. *)
Lemma createEmbedding_no_words (text : string) :
  match_words (toLowerCase text) = [] ->
  vector (createEmbedding text) = [] /\ vocabulary (createEmbedding text) = [].
Proof.
  intros H. unfold createEmbedding. rewrite H. split; reflexivity.
Qed.

Lemma createEmbedding_no_words_witness :
  vector (createEmbedding "?! ...") = [] /\
  vocabulary (createEmbedding "?! ...") = [].
Proof. apply (@createEmbedding_no_words "?! ..."). reflexivity. Defined.

(** C10, evaluated where the code departs from it.  Two embeddings of the
    text [constructor] share that word; both components read as [0] through
    [|| 0], both norms are [0], and the similarity is [0 / 0]. *)
Theorem cosineSimilarity_constructor :
  filter (includes (vocabulary (createEmbedding "constructor")))
         (vocabulary (createEmbedding "constructor")) = ["constructor"] /\
  component (vector (createEmbedding "constructor")) (Some 0) = PrimFloat.zero /\
  cosineSimilarity (vector (createEmbedding "constructor"))
                   (vector (createEmbedding "constructor"))
                   (vocabulary (createEmbedding "constructor"))
                   (vocabulary (createEmbedding "constructor")) = PrimFloat.nan /\
  map similarity
      (map (score (createEmbedding "constructor health"))
           (documents Examples.constructor_store))
    = [PrimFloat.nan; 1%float].
Proof. repeat split; vm_compute; reflexivity. Qed.

(** Two vocabularies without a common word score exactly [0]. *)
Lemma cosineSimilarity_disjoint (vec1 vec2 : list number) (vocab1 vocab2 : list string) :
  (forall w, In w vocab1 -> includes vocab2 w = false) ->
  cosineSimilarity vec1 vec2 vocab1 vocab2 = PrimFloat.zero.
Proof.
  intros H. unfold cosineSimilarity.
  rewrite (ArrFacts.filter_none _ _ H). reflexivity.
Qed.

Lemma cosineSimilarity_disjoint_witness :
  cosineSimilarity [1%float] [1%float] ["health"] ["auto"] = PrimFloat.zero.
Proof.
  apply cosineSimilarity_disjoint.
  intros w [<- | []]. reflexivity.
Defined.

End LocalEmbedder.

(** ** The local search *)

Section LocalSearch.

Import Num Str Data SimpleVectorStore Ranking.

(** C1, evaluated where the code departs from it.  The document
    [constructor] scores NaN against the query and keeps the first place,
    since every comparison with NaN counts as a tie; with [limit = 1] it
    alone survives the truncation and the filter then removes it, although
    one stored document clears the threshold. *)
Theorem search_drops_relevant_document :
  map similarity
      (map (score (createEmbedding "constructor health"))
           (documents Examples.constructor_store))
    = [PrimFloat.nan; 1%float] /\
  List.length
    (filter relevant
       (map (score (createEmbedding "constructor health"))
            (documents Examples.constructor_store))) = 1 /\
  search Examples.constructor_store "constructor health" 1 = [].
Proof. repeat split; vm_compute; reflexivity. Qed.

(** A local search returns at most [limit] results, each above the
    threshold. *)
Lemma search_bounded (s : Store) (query : string) (limit : nat) :
  List.length (search s query limit) <= limit /\
  Forall (fun r => gtb (similarity r) 0.1%float = true) (search s query limit).
Proof.
  unfold search. split.
  - eapply Nat.le_trans; [apply filter_length_le | apply firstn_le_length].
  - apply Forall_forall. intros r Hr. apply filter_In in Hr. apply Hr.
Qed.

(** Three insurance documents and the query [health insurance].  A document
    that shares one word with the query scores exactly [1] on that word; the
    first document shares both words and scores [1] up to rounding, which
    puts it last of the three. *)
Example search_insurance :
  createEmbedding "Health insurance covers you, health!"
    = mkEmbedding [0.40000000000000002%float; 0.20000000000000001%float;
                   0.20000000000000001%float; 0.20000000000000001%float]
                  ["health"; "insurance"; "covers"; "you"]
                  "Health insurance covers you, health!" /\
  map (fun r => (text (document r), similarity r))
      (search Examples.insurance_store "health insurance" 3)
    = [("auto insurance for your car", 1%float);
       ("life insurance for family", 1%float);
       ("health insurance covers you", 0.99999999999999978%float)] /\
  search empty "anything" 5 = [].
Proof. repeat split; vm_compute; reflexivity. Qed.

End LocalSearch.

(** ** Ranking, in both searches *)

Section RankedSearches.

Import Num Str Data Arr Ranking ArrFacts RankFacts.

Lemma tagged_search_untagged (s : SimpleVectorStore.Store) (query : string) (limit : nat) :
  map snd (tagged_search s query limit) = SimpleVectorStore.search s query limit.
Proof.
  unfold tagged_search, SimpleVectorStore.search, slice0.
  rewrite <- (filter_map_swap SimpleVectorStore.relevant snd).
  rewrite <- firstn_map.
  change (descending (fun t : nat * SimpleVectorStore.Result =>
                        SimpleVectorStore.similarity (snd t)))
    with (fun a b : nat * SimpleVectorStore.Result =>
            SimpleVectorStore.by_similarity (snd a) (snd b)).
  rewrite (sort_map snd SimpleVectorStore.by_similarity).
  unfold mapi.
  rewrite (mapi_from_map _ snd
             (SimpleVectorStore.score (SimpleVectorStore.createEmbedding query)))
    by reflexivity.
  reflexivity.
Qed.

Lemma tagged_search_positions (s : SimpleVectorStore.Store) (query : string) (limit : nat) :
  Forall (fun t => nth_error (SimpleVectorStore.documents s) (fst t)
                   = Some (SimpleVectorStore.document (snd t)))
         (tagged_search s query limit).
Proof.
  apply Forall_forall. intros t Ht. unfold tagged_search in Ht.
  apply filter_In in Ht. destruct Ht as [Ht _].
  apply In_firstn in Ht.
  apply (Permutation_in _ (sort_perm _ _)) in Ht.
  destruct (mapi_from_In _ _ _ _ Ht) as (j & d & Hj & ->). exact Hj.
Qed.

Lemma tagged_search_ranked (s : SimpleVectorStore.Store) (query : string) (limit : nat) :
  no_nan (map SimpleVectorStore.similarity
            (map (SimpleVectorStore.score (SimpleVectorStore.createEmbedding query))
                 (SimpleVectorStore.documents s))) = true ->
  ranked (fun t => SimpleVectorStore.similarity (snd t)) fst
         (tagged_search s query limit).
Proof.
  intros H. unfold tagged_search, ranked.
  apply ForallOrdPairs_filter, ForallOrdPairs_firstn.
  apply sort_ranked.
  - apply no_nan_sims_ok. unfold mapi.
    rewrite (mapi_from_map _ (fun t => SimpleVectorStore.similarity (snd t))
               (fun d => SimpleVectorStore.similarity
                           (SimpleVectorStore.score
                              (SimpleVectorStore.createEmbedding query) d)))
      by reflexivity.
    rewrite map_map in H. exact H.
  - apply mapi_from_ordered. reflexivity.
Qed.

Lemma rank_ranked (s : VectorStore.Store) (queryEmbedding : list number) (topK : nat) :
  no_nan (map (VectorStore.calculateSimilarity queryEmbedding)
              (VectorStore.vectors s)) = true ->
  ranked VectorStore.similarity VectorStore.index
         (VectorStore.rank s queryEmbedding topK).
Proof.
  intros H. unfold VectorStore.rank, slice0, ranked.
  apply ForallOrdPairs_firstn.
  change VectorStore.by_similarity with (descending VectorStore.similarity).
  apply sort_ranked.
  - apply no_nan_sims_ok. unfold mapi.
    rewrite (mapi_from_map _ VectorStore.similarity
               (VectorStore.calculateSimilarity queryEmbedding))
      by reflexivity.
    exact H.
  - apply mapi_from_ordered. reflexivity.
Qed.

(** C6, amended: as long as no computed similarity is NaN, the results of
    either search are non-increasing in similarity and results of equal
    similarity keep the insertion order of their documents.  For the remote
    search the position is the [index] of the result; the results of the
    local search carry none, and are the ranked list of their documents'
    positions with the positions dropped. *)
Theorem searches_ranked_without_nan
    (embedContent : string -> completion (list number))
    (st : VectorStore.State) (query : string) (topK : nat)
    (queryEmbedding : list number)
    (s : SimpleVectorStore.Store) (text : string) (limit : nat) :
  embedContent query = Return queryEmbedding ->
  no_nan (map (VectorStore.calculateSimilarity queryEmbedding)
              (VectorStore.vectors (VectorStore.store st))) = true ->
  no_nan (map SimpleVectorStore.similarity
            (map (SimpleVectorStore.score (SimpleVectorStore.createEmbedding text))
                 (SimpleVectorStore.documents s))) = true ->
  (exists results,
      fst (VectorStore.search embedContent st query topK) = Return results /\
      ranked VectorStore.similarity VectorStore.index results) /\
  (exists tagged,
      map snd tagged = SimpleVectorStore.search s text limit /\
      Forall (fun t => nth_error (SimpleVectorStore.documents s) (fst t)
                       = Some (SimpleVectorStore.document (snd t))) tagged /\
      ranked (fun t => SimpleVectorStore.similarity (snd t)) fst tagged).
Proof.
  intros Hq Hremote Hlocal. split.
  - exists (VectorStore.rank (VectorStore.store st) queryEmbedding topK). split.
    + unfold VectorStore.search, VectorStore.generateEmbedding. rewrite Hq.
      reflexivity.
    + apply rank_ranked. exact Hremote.
  - exists (tagged_search s text limit).
    split; [apply tagged_search_untagged | ].
    split; [apply tagged_search_positions | ].
    apply tagged_search_ranked. exact Hlocal.
Qed.

Lemma searches_ranked_without_nan_witness :
  (exists results,
      fst (VectorStore.search Examples.constant_service
             (VectorStore.mkState Examples.unit_store []) "claims" 2)
        = Return results /\
      ranked VectorStore.similarity VectorStore.index results) /\
  (exists tagged,
      map snd tagged
        = SimpleVectorStore.search Examples.insurance_store "health insurance" 2 /\
      Forall (fun t => nth_error (SimpleVectorStore.documents Examples.insurance_store)
                                 (fst t)
                       = Some (SimpleVectorStore.document (snd t))) tagged /\
      ranked (fun t => SimpleVectorStore.similarity (snd t)) fst tagged).
Proof.
  apply (@searches_ranked_without_nan Examples.constant_service
           (VectorStore.mkState Examples.unit_store []) "claims" 2
           [1%float; 1%float] Examples.insurance_store "health insurance" 2).
  - reflexivity.
  - vm_compute. reflexivity.
  - vm_compute. reflexivity.
Defined.

(** The claim of C6 fails where a similarity is NaN: a stored vector
    shorter than the query scores NaN, stays first, and the list returned is
    not ranked. *)
Lemma rank_with_nan_not_ranked :
  map VectorStore.similarity
      (VectorStore.rank Examples.mixed_store [1%float; 1%float] 2)
    = [PrimFloat.nan; 0.99999999999999978%float] /\
  ~ ranked VectorStore.similarity VectorStore.index
      (VectorStore.rank Examples.mixed_store [1%float; 1%float] 2).
Proof.
  split; [vm_compute; reflexivity | ].
  intros H. unfold ranked in H. vm_compute in H.
  inversion H as [ | a l Ha _ ]; subst.
  inversion Ha as [ | b l' [Hab _] _ ]; subst.
  vm_compute in Hab. discriminate Hab.
Qed.

End RankedSearches.

(** ** What a result record holds *)

Section ResultRecords.

Import Num Str Data Arr Ranking ArrFacts RankFacts.

Lemma rank_In (s : VectorStore.Store) (queryEmbedding : list number) (topK : nat)
    (r : VectorStore.Result) :
  In r (VectorStore.rank s queryEmbedding topK) ->
  exists vector,
    nth_error (VectorStore.vectors s) (VectorStore.index r) = Some vector /\
    r = VectorStore.score s queryEmbedding vector (VectorStore.index r).
Proof.
  unfold VectorStore.rank, slice0, mapi. intros H.
  apply In_firstn in H.
  apply (Permutation_in _ (sort_perm _ _)) in H.
  destruct (mapi_from_In _ _ _ _ H) as (j & v & Hj & ->).
  exists v. split; [exact Hj | reflexivity].
Qed.

Lemma search_In (s : SimpleVectorStore.Store) (query : string) (limit : nat)
    (r : SimpleVectorStore.Result) :
  In r (SimpleVectorStore.search s query limit) ->
  In (SimpleVectorStore.document r) (SimpleVectorStore.documents s) /\
  r = SimpleVectorStore.score (SimpleVectorStore.createEmbedding query)
        (SimpleVectorStore.document r).
Proof.
  unfold SimpleVectorStore.search, slice0. intros H.
  apply filter_In in H. destruct H as [H _].
  apply In_firstn in H.
  apply (Permutation_in _ (sort_perm _ _)) in H.
  apply in_map_iff in H. destruct H as (d & <- & Hd).
  split; [exact Hd | reflexivity].
Qed.

(** C3, amended: a result of the remote search has an [index], the
    zero-based position of the matched vector in the store, and its text,
    metadata and similarity are those of that position.  A result of the
    local search is the record [{ document, similarity }]: it has no
    [index], [text] or [metadata] property; [document] is a stored document,
    which holds the text and the metadata, and [similarity] is its score. *)
Theorem result_records
    (embedContent : string -> completion (list number))
    (st : VectorStore.State) (query : string) (topK : nat)
    (s : SimpleVectorStore.Store) (text : string) (limit : nat) :
  (forall results,
      fst (VectorStore.search embedContent st query topK) = Return results ->
      exists queryEmbedding,
        embedContent query = Return queryEmbedding /\
        Forall (fun r =>
          (exists vector,
              nth_error (VectorStore.vectors (VectorStore.store st))
                        (VectorStore.index r) = Some vector /\
              VectorStore.similarity r
                = VectorStore.calculateSimilarity queryEmbedding vector) /\
          VectorStore.text r
            = nth_error (VectorStore.texts (VectorStore.store st)) (VectorStore.index r) /\
          VectorStore.meta r
            = nth_error (VectorStore.metadata (VectorStore.store st)) (VectorStore.index r) /\
          prop "index" (VectorStore.result_object r)
            = Some (JNum (of_nat (VectorStore.index r))))
          results) /\
  Forall (fun r =>
    In (SimpleVectorStore.document r) (SimpleVectorStore.documents s) /\
    r = SimpleVectorStore.score (SimpleVectorStore.createEmbedding text)
          (SimpleVectorStore.document r) /\
    prop "document" (SimpleVectorStore.result_object r)
      = Some (SimpleVectorStore.document_object (SimpleVectorStore.document r)) /\
    prop "similarity" (SimpleVectorStore.result_object r)
      = Some (JNum (SimpleVectorStore.similarity r)) /\
    prop "index" (SimpleVectorStore.result_object r) = None /\
    prop "text" (SimpleVectorStore.result_object r) = None /\
    prop "metadata" (SimpleVectorStore.result_object r) = None)
    (SimpleVectorStore.search s text limit).
Proof.
  split.
  - intros results. unfold VectorStore.search, VectorStore.generateEmbedding.
    destruct (embedContent query) as [queryEmbedding | e]; cbn [fst];
      [ | discriminate ].
    intros [= <-]. exists queryEmbedding. split; [reflexivity | ].
    apply Forall_forall. intros r Hr. cbn [VectorStore.store] in *.
    destruct (rank_In _ _ _ _ Hr) as (v & Hv & Er).
    repeat split.
    + exists v. split; [exact Hv | ]. rewrite Er at 1. reflexivity.
    + rewrite Er at 1. reflexivity.
    + rewrite Er at 1. reflexivity.
  - apply Forall_forall. intros r Hr.
    destruct (search_In _ _ _ _ Hr) as [Hd Er].
    repeat split; assumption.
Qed.

(** The claim of C3 fails for the local search: its one result for this
    query has no [index], and no [text] either. *)
Lemma local_result_without_index :
  map (prop "index")
      (map SimpleVectorStore.result_object
           (SimpleVectorStore.search Examples.insurance_store "health" 3))
    = [None] /\
  map (prop "text")
      (map SimpleVectorStore.result_object
           (SimpleVectorStore.search Examples.insurance_store "health" 3))
    = [None].
Proof. split; vm_compute; reflexivity. Qed.

(** The local search keeps its passing results, as many as fit: where no
    similarity is NaN, selecting before truncating gives the same list, and
    [limit] results come back once that many documents pass. *)
Lemma search_full (s : SimpleVectorStore.Store) (query : string) (limit : nat) :
  no_nan (map SimpleVectorStore.similarity
            (map (SimpleVectorStore.score (SimpleVectorStore.createEmbedding query))
                 (SimpleVectorStore.documents s))) = true ->
  SimpleVectorStore.search s query limit
    = slice0 limit
        (filter SimpleVectorStore.relevant
           (sort SimpleVectorStore.by_similarity
              (map (SimpleVectorStore.score (SimpleVectorStore.createEmbedding query))
                   (SimpleVectorStore.documents s)))) /\
  (limit <= List.length
              (filter SimpleVectorStore.relevant
                 (map (SimpleVectorStore.score (SimpleVectorStore.createEmbedding query))
                      (SimpleVectorStore.documents s))) ->
   List.length (SimpleVectorStore.search s query limit) = limit).
Proof.
  intros H. apply no_nan_sims_ok in H.
  assert (E : SimpleVectorStore.search s query limit
    = slice0 limit
        (filter SimpleVectorStore.relevant
           (sort SimpleVectorStore.by_similarity
              (map (SimpleVectorStore.score (SimpleVectorStore.createEmbedding query))
                   (SimpleVectorStore.documents s))))).
  { unfold SimpleVectorStore.search, slice0. apply filter_firstn_commute.
    change SimpleVectorStore.by_similarity
      with (descending SimpleVectorStore.similarity).
    apply (@sort_threshold_first _ SimpleVectorStore.similarity 0.1%float);
      [reflexivity | exact H]. }
  split; [exact E | ].
  intros Hk. rewrite E. unfold slice0. apply firstn_length_le.
  rewrite (filter_perm_length _ (sort_perm SimpleVectorStore.by_similarity _)).
  exact Hk.
Qed.

Lemma search_full_witness :
  SimpleVectorStore.search Examples.insurance_store "health insurance" 2
    = slice0 2
        (filter SimpleVectorStore.relevant
           (sort SimpleVectorStore.by_similarity
              (map (SimpleVectorStore.score
                      (SimpleVectorStore.createEmbedding "health insurance"))
                   (SimpleVectorStore.documents Examples.insurance_store)))) /\
  (2 <= List.length
          (filter SimpleVectorStore.relevant
             (map (SimpleVectorStore.score
                     (SimpleVectorStore.createEmbedding "health insurance"))
                  (SimpleVectorStore.documents Examples.insurance_store))) ->
   List.length
     (SimpleVectorStore.search Examples.insurance_store "health insurance" 2) = 2).
Proof.
  apply (@search_full Examples.insurance_store "health insurance" 2).
  vm_compute. reflexivity.
Defined.

(** The remote search applies no threshold: once the query is embedded it
    returns [topK] results, or all of them when fewer vectors are stored. *)
Lemma rank_length (s : VectorStore.Store) (queryEmbedding : list number) (topK : nat) :
  List.length (VectorStore.rank s queryEmbedding topK)
  = Nat.min topK (List.length (VectorStore.vectors s)).
Proof.
  unfold VectorStore.rank, slice0, mapi.
  rewrite length_firstn, sort_length, mapi_from_length. reflexivity.
Qed.

End ResultRecords.

(** ** The remote similarity on vectors of different lengths *)

Module SimilarityFacts.

Import Num VectorStore FloatFacts.

Local Open Scope float_scope.

Lemma norm1_accumulate_from (vector1 : list number) (i : nat)
    (vector2 : list number) (acc : sums) :
  norm1 (accumulate_from vector1 i vector2 acc)
  = fold_left (fun a x => a + x * x) vector1 (norm1 acc).
Proof.
  revert i acc. induction vector1 as [ | x rest IH ]; intros i acc; cbn;
    [reflexivity | ].
  rewrite IH. reflexivity.
Qed.

(** Only the first [vector1.length] components of [vector2] are read. *)
Lemma accumulate_from_ext (vector1 : list number) (i : nat)
    (vector2 vector2' : list number) (acc : sums) :
  (forall j, i <= j < i + List.length vector1 ->
             at_index vector2 j = at_index vector2' j)%nat ->
  accumulate_from vector1 i vector2 acc = accumulate_from vector1 i vector2' acc.
Proof.
  revert i acc. induction vector1 as [ | x rest IH ]; intros i acc H; cbn;
    [reflexivity | ].
  cbn [List.length] in H. rewrite (H i) by lia. apply IH.
  intros j Hj. apply H. lia.
Qed.

Lemma at_index_firstn (n : nat) (v : list number) (j : nat) :
  (j < n)%nat -> at_index (firstn n v) j = at_index v j.
Proof.
  intros H. unfold at_index. rewrite nth_error_firstn.
  apply Nat.ltb_lt in H. rewrite H. reflexivity.
Qed.

Lemma accumulate_from_nan (vector1 : list number) (i : nat)
    (vector2 : list number) (acc : sums) :
  dotProduct acc = nan -> norm2 acc = nan ->
  dotProduct (accumulate_from vector1 i vector2 acc) = nan /\
  norm2 (accumulate_from vector1 i vector2 acc) = nan.
Proof.
  revert i acc. induction vector1 as [ | x rest IH ]; intros i acc Hd Hn; cbn;
    [split; assumption | ].
  apply IH; cbn [dotProduct norm2]; [rewrite Hd | rewrite Hn]; apply add_nan_l.
Qed.

(** Reading [vector2] past its end turns the dot product and the second norm
    into NaN. *)
Lemma accumulate_from_short (vector1 : list number) (i : nat)
    (vector2 : list number) (acc : sums) :
  (i <= List.length vector2 < i + List.length vector1)%nat ->
  dotProduct (accumulate_from vector1 i vector2 acc) = nan /\
  norm2 (accumulate_from vector1 i vector2 acc) = nan.
Proof.
  revert i acc. induction vector1 as [ | x rest IH ]; intros i acc H.
  - cbn in H. exfalso. lia.
  - cbn [accumulate_from].
    destruct (Nat.le_gt_cases (List.length vector2) i) as [Hle | Hgt].
    + assert (E : at_index vector2 i = nan).
      { unfold at_index. apply nth_error_None in Hle. rewrite Hle. reflexivity. }
      rewrite E. apply accumulate_from_nan; cbn [dotProduct norm2].
      * rewrite mul_nan_r. apply add_nan_r.
      * rewrite mul_nan_r. apply add_nan_r.
    + apply IH. cbn [List.length] in H. lia.
Qed.

End SimilarityFacts.

Section RemoteSimilarity.

Import Num Data VectorStore FloatFacts SimilarityFacts.

(** C5, amended: the similarity computation does not fail on vectors of
    different lengths, and the search returns normally with what it yields.
    Against a stored vector shorter than the query it is NaN, or [0] when
    the norm of the query is [0]; against a longer one it is the similarity
    with the first components of the stored vector, the rest ignored. *)
Theorem calculateSimilarity_on_mismatch :
  (forall vector1 vector2,
      List.length vector2 < List.length vector1 ->
      calculateSimilarity vector1 vector2
      = if PrimFloat.eqb (norm_of vector1) PrimFloat.zero
        then PrimFloat.zero else PrimFloat.nan) /\
  (forall vector1 vector2,
      List.length vector1 <= List.length vector2 ->
      calculateSimilarity vector1 vector2
      = calculateSimilarity vector1 (firstn (List.length vector1) vector2)) /\
  (forall embedContent st query topK queryEmbedding,
      embedContent query = Return queryEmbedding ->
      fst (search embedContent st query topK)
      = Return (rank (store st) queryEmbedding topK)).
Proof.
  split; [ | split ].
  - intros v1 v2 H. unfold calculateSimilarity, norm_of.
    rewrite norm1_accumulate_from. cbn [norm1].
    destruct (@accumulate_from_short v1 0 v2
                (mkSums PrimFloat.zero PrimFloat.zero PrimFloat.zero)) as [Hd Hn];
      [cbn; lia | ].
    rewrite Hd, Hn.
    change (PrimFloat.sqrt PrimFloat.nan) with PrimFloat.nan.
    change (PrimFloat.eqb PrimFloat.nan PrimFloat.zero) with false.
    rewrite Bool.orb_false_r.
    destruct (PrimFloat.eqb _ PrimFloat.zero); [reflexivity | ].
    apply div_nan_l.
  - intros v1 v2 H. unfold calculateSimilarity.
    rewrite (@accumulate_from_ext v1 0 v2 (firstn (List.length v1) v2)).
    + reflexivity.
    + intros j Hj. symmetry. apply at_index_firstn. lia.
  - intros embedContent st query topK qe H.
    unfold search, generateEmbedding. rewrite H. reflexivity.
Qed.

(** The claim of C5 fails: with a stored vector of one component and a query
    of two, the search returns normally, and the first score is NaN. *)
Lemma search_on_mismatch_returns :
  fst (search Examples.constant_service
         (mkState Examples.mixed_store []) "claims" 2)
  = Return [mkResult (Some "a") (Some []) PrimFloat.nan 0;
            mkResult (Some "b") (Some []) 0.99999999999999978%float 1].
Proof. vm_compute. reflexivity. Qed.

End RemoteSimilarity.

(** ** Loading, statistics and adding *)

Section RemoteStore.

Import Num Str Data VectorStore StrFacts.

(** C2, amended: [loadFromFile] returns [false] and leaves the store as it
    was when the file is missing.  When the file exists and cannot be read,
    or its text fails to parse, or parses to [null], the error reaches the
    caller instead of a [false], and the store is as it was.  On success it
    returns [true] and the three arrays are those of the file, an absent one
    read as empty, whatever the store held before. *)
Theorem loadFromFile_outcomes (fs : filesystem) (s s' : Store) (filename : string) :
  (fs filename = None -> loadFromFile fs s filename = (Return false, s)) /\
  (fs filename = Some Malformed ->
     loadFromFile fs s filename = (Throw "SyntaxError", s)) /\
  (fs filename = Some Unreadable \/ fs filename = Some (WellFormed ParsedNull) ->
     exists e, loadFromFile fs s filename = (Throw e, s)) /\
  (forall v t m,
     fs filename = Some (WellFormed (ParsedValue v t m)) ->
     loadFromFile fs s filename
     = (Return true, mkStore (or_empty v) (or_empty t) (or_empty m))) /\
  (fst (loadFromFile fs s filename) <> Return true ->
     snd (loadFromFile fs s filename) = s) /\
  (fst (loadFromFile fs s filename) = Return true ->
     snd (loadFromFile fs s filename) = snd (loadFromFile fs s' filename)).
Proof.
  unfold loadFromFile.
  destruct (fs filename) as [[ | | [ | v t m]] | ]; cbn;
    repeat split; intros; try discriminate; try congruence; eauto.
  all: destruct H as [H | H]; discriminate H.
Qed.

(** The claim of C2 fails on a file that is not JSON: the call throws. *)
Lemma loadFromFile_malformed :
  loadFromFile Examples.malformed_disk empty "website_vectors.json"
  = (Throw "SyntaxError", empty) /\
  fst (loadFromFile Examples.malformed_disk empty "website_vectors.json")
  <> Return false.
Proof. split; [reflexivity | discriminate]. Qed.

(** A file with vectors and texts and no metadata, loaded over a store of
    two records: the three arrays are the file's. *)
Example loadFromFile_replaces :
  loadFromFile Examples.saved_disk Examples.mixed_store "website_vectors.json"
  = (Return true, mkStore [[1%float]] ["a"] []).
Proof. reflexivity. Qed.

(** C8, evaluated where the code departs from it: on the empty store the
    sum [0] is divided by the length [0]. *)
Theorem getStats_empty :
  getStats empty = mkStats 0 0 PrimFloat.nan 0.
Proof. vm_compute. reflexivity. Qed.

(** The counts and the dimension that the statistics report. *)
Lemma getStats_counts (s : Store) :
  totalVectors (getStats s) = List.length (vectors s) /\
  totalTexts (getStats s) = List.length (texts s) /\
  vectorDimension (getStats s)
  = match nth_error (vectors s) 0 with
    | Some v => List.length v
    | None => 0
    end.
Proof.
  unfold getStats. cbn. destruct (vectors s); repeat split; reflexivity.
Qed.

Lemma splitTextIntoChunks_spaces (text : string) (maxChunkSize : nat) :
  all_chars is_space text = true -> splitTextIntoChunks text maxChunkSize = [].
Proof.
  intros H. unfold splitTextIntoChunks, sentences_of.
  rewrite (split_sentences_spaces text H). cbn [filter].
  rewrite (trim_spaces text H). reflexivity.
Qed.

(** C9, amended: no add operation rejects a text that is empty or all white
    space.  The local [addDocument] embeds it and appends a record whose
    vector and vocabulary are empty; the remote [addText] finds no chunk in
    it, sends nothing to the embedding service, appends nothing and
    returns. *)
Theorem add_blank_text
    (text : string) (meta : Metadata)
    (s : SimpleVectorStore.Store)
    (embedContent : string -> completion (list number)) (st : State) :
  all_chars is_space text = true ->
  SimpleVectorStore.addDocument s text meta
  = SimpleVectorStore.mkStore
      (SimpleVectorStore.documents s
       ++ [SimpleVectorStore.mkDocument text meta
             (SimpleVectorStore.mkEmbedding [] [] text)])
      (SimpleVectorStore.embeddings s
       ++ [SimpleVectorStore.mkEmbedding [] [] text]) /\
  addText embedContent st text meta = (Return tt, st).
Proof.
  intros H. split.
  - unfold SimpleVectorStore.addDocument, SimpleVectorStore.createEmbedding.
    rewrite (match_words_spaces text H). reflexivity.
  - unfold addText. rewrite (splitTextIntoChunks_spaces text _ H).
    reflexivity.
Qed.

Lemma add_blank_text_witness :
  SimpleVectorStore.addDocument SimpleVectorStore.empty "   " []
  = SimpleVectorStore.mkStore
      (SimpleVectorStore.documents SimpleVectorStore.empty
       ++ [SimpleVectorStore.mkDocument "   " []
             (SimpleVectorStore.mkEmbedding [] [] "   ")])
      (SimpleVectorStore.embeddings SimpleVectorStore.empty
       ++ [SimpleVectorStore.mkEmbedding [] [] "   "]) /\
  addText Examples.constant_service (mkState empty []) "   " []
  = (Return tt, mkState empty []).
Proof.
  apply (@add_blank_text "   " [] SimpleVectorStore.empty
           Examples.constant_service (mkState empty [])).
  reflexivity.
Defined.

(** The claim of C9 fails for the local store: the empty text is embedded
    and a record with a vector of length zero is appended. *)
Lemma addDocument_empty_text :
  SimpleVectorStore.documents
    (SimpleVectorStore.addDocument SimpleVectorStore.empty "" [])
  = [SimpleVectorStore.mkDocument "" []
       (SimpleVectorStore.mkEmbedding [] [] "")].
Proof. reflexivity. Qed.

End RemoteStore.

(** ** Chunking *)

Section Chunking.

Import Str VectorStore Chunks StrFacts.

Variable text : string.
Variable maxChunkSize : nat.

Lemma split_step_ok (st : splitter) (sentence : string) :
  In sentence (sentences_of text) ->
  splitter_ok text maxChunkSize st ->
  splitter_ok text maxChunkSize (split_step maxChunkSize st sentence).
Proof.
  intros Hs [Hchunks Hcur]. unfold split_step.
  destruct (currentChunk st) as [ | c r ] eqn:E.
  - change (0 <? String.length "")%nat with false. rewrite Bool.andb_false_r.
    cbn [chunks currentChunk]. split; [exact Hchunks | right].
    apply built_first. exact Hs.
  - destruct Hcur as [Hcur | Hcur]; [discriminate Hcur | ].
    destruct ((maxChunkSize <? String.length (String c r) + String.length sentence)%nat
              && (0 <? String.length (String c r))%nat) eqn:C.
    + cbn [chunks currentChunk]. split.
      * apply Forall_app. split; [exact Hchunks | ].
        constructor; [ | constructor ].
        exists (String c r). split; [exact Hcur | reflexivity].
      * right. apply built_first. exact Hs.
    + cbn [chunks currentChunk]. split; [exact Hchunks | right].
      change (String.eqb (String c r) "") with false. cbn iota.
      apply built_more; [exact Hcur | exact Hs | ].
      apply andb_false_iff in C. destruct C as [C | C].
      * apply Nat.ltb_ge in C. exact C.
      * apply Nat.ltb_ge in C. cbn in C. lia.
Qed.

Lemma fold_split_step_ok (l : list string) (st : splitter) :
  (forall s, In s l -> In s (sentences_of text)) ->
  splitter_ok text maxChunkSize st ->
  splitter_ok text maxChunkSize (fold_left (split_step maxChunkSize) l st).
Proof.
  revert st. induction l as [ | s l IH ]; intros st Hl Hst; cbn; [exact Hst | ].
  apply IH.
  - intros s' Hs'. apply Hl. right. exact Hs'.
  - apply split_step_ok; [apply Hl; left; reflexivity | exact Hst].
Qed.

(** Every chunk is the trimmed content that was accumulated for it, and
    that content is either one sentence, trimmed, whatever its length, or
    an earlier content joined by [". "] with a further sentence that the
    size check let in: the length of the earlier content plus the length of
    the sentence as split did not exceed the maximum. *)
Lemma splitTextIntoChunks_built :
  Forall (fun chunk => exists cur, built text maxChunkSize cur /\ chunk = trim cur)
         (splitTextIntoChunks text maxChunkSize).
Proof.
  unfold splitTextIntoChunks.
  assert (H : splitter_ok text maxChunkSize (fold_left (split_step maxChunkSize) (sentences_of text)
                             (mkSplitter [] ""))).
  { apply fold_split_step_ok; [auto | ].
    split; [constructor | left; reflexivity]. }
  destruct H as [Hchunks Hcur].
  destruct (String.eqb (trim (currentChunk _)) "") eqn:E; [exact Hchunks | ].
  apply Forall_app. split; [exact Hchunks | ].
  constructor; [ | constructor ].
  destruct Hcur as [Hcur | Hcur].
  - rewrite Hcur in E. discriminate E.
  - eexists. split; [exact Hcur | reflexivity].
Qed.

Lemma append_length (a b : string) :
  String.length (a ++ b) = String.length a + String.length b.
Proof. induction a as [ | c r IH ]; cbn; [reflexivity | rewrite IH; reflexivity]. Qed.

Lemma built_length (cur : string) :
  built text maxChunkSize cur ->
  single text cur \/ String.length cur <= maxChunkSize + 2.
Proof.
  intros H. destruct H as [s Hs | cur0 s H0 Hs Hle].
  - left. exists s. split; [exact Hs | reflexivity].
  - right. rewrite !append_length. cbn [String.length].
    pose proof (trim_length s). lia.
Qed.

(** A chunk of more than one sentence exceeds the maximum by two characters
    at most. *)
Lemma splitTextIntoChunks_bound :
  Forall (fun chunk =>
            (exists s, In s (sentences_of text) /\ chunk = trim (trim s)) \/
            String.length chunk <= maxChunkSize + 2)
         (splitTextIntoChunks text maxChunkSize).
Proof.
  eapply Forall_impl; [ | apply splitTextIntoChunks_built ].
  intros chunk (cur & Hcur & ->).
  destruct (built_length Hcur) as [(s & Hs & ->) | Hle].
  - left. exists s. split; [exact Hs | reflexivity].
  - right. pose proof (trim_length cur). lia.
Qed.

End Chunking.

(** The claim of C4 fails: a sentence longer than the maximum is a chunk by
    itself, and the joiner is not counted when a sentence is let in. *)
Lemma splitTextIntoChunks_oversize :
  VectorStore.splitTextIntoChunks "aaaa" 3 = ["aaaa"] /\
  VectorStore.splitTextIntoChunks "ab.cd" 4 = ["ab. cd"] /\
  ~ Forall (fun chunk => String.length chunk <= 3)
           (VectorStore.splitTextIntoChunks "aaaa" 3).
Proof.
  split; [reflexivity | split; [reflexivity | ] ].
  intros H. vm_compute in H. inversion H as [ | c l Hc _ ]; subst. lia.
Qed.

(** ** Trimmed strings, and the chunks as groups of sentences *)

Module TrimFacts.

Import Str StrFacts ChunkGroups.

Lemma trimStart_clean (s : string) : starts_clean (trimStart s).
Proof.
  induction s as [ | c r IH ]; cbn; [exact I | ].
  destruct (is_space c) eqn:E; [exact IH | exact E].
Qed.

Lemma trimStart_id (s : string) : starts_clean s -> trimStart s = s.
Proof. destruct s as [ | c r ]; cbn; [reflexivity | intros ->; reflexivity]. Qed.

Lemma trimStart_suffix (s : string) :
  exists spaces, s = (spaces ++ trimStart s)%string.
Proof.
  induction s as [ | c r [sp IH] ]; cbn.
  - exists "". reflexivity.
  - destruct (is_space c).
    + exists (String c sp). cbn. rewrite <- IH. reflexivity.
    + exists "". reflexivity.
Qed.

Lemma append_assoc (a b c : string) :
  ((a ++ b) ++ c = a ++ (b ++ c))%string.
Proof. induction a as [ | x a IH ]; cbn; [reflexivity | rewrite IH; reflexivity]. Qed.

Lemma reverse_onto_append (s acc : string) :
  reverse_onto s acc = (reverse s ++ acc)%string.
Proof.
  unfold reverse. revert acc. induction s as [ | c r IH ]; intros acc; cbn;
    [reflexivity | ].
  rewrite IH, (IH (String c "")), append_assoc. reflexivity.
Qed.

Lemma reverse_onto_app (a b acc : string) :
  reverse_onto (a ++ b) acc = reverse_onto b (reverse_onto a acc).
Proof.
  revert acc. induction a as [ | c r IH ]; intros acc; cbn; [reflexivity | ].
  apply IH.
Qed.

Lemma reverse_append (a b : string) :
  reverse (a ++ b) = (reverse b ++ reverse a)%string.
Proof.
  unfold reverse at 1. rewrite reverse_onto_app. apply reverse_onto_append.
Qed.

Lemma starts_clean_append (a b : string) :
  a <> "" -> starts_clean a -> starts_clean (a ++ b).
Proof. destruct a as [ | c r ]; cbn; [congruence | tauto]. Qed.

Lemma starts_clean_prefix (a b : string) :
  a <> "" -> starts_clean (a ++ b) -> starts_clean a.
Proof. destruct a as [ | c r ]; cbn; [congruence | tauto]. Qed.

Lemma reverse_nonempty (s : string) : s <> "" -> reverse s <> "".
Proof.
  intros H E. apply (f_equal String.length) in E.
  rewrite reverse_length in E. destruct s; [congruence | discriminate E].
Qed.

(** A trimmed string has no white space at either end. *)
Lemma trim_ends (s : string) :
  starts_clean (trim s) /\ starts_clean (reverse (trim s)).
Proof.
  unfold trim, trimEnd. split.
  - pose proof (trimStart_clean s) as Ht.
    set (t := trimStart s) in *.
    destruct (trimStart_suffix (reverse t)) as [sp Hsp].
    set (y := trimStart (reverse t)) in *.
    destruct y as [ | c r ] eqn:Ey; [exact I | ].
    assert (Et : t = (reverse (String c r) ++ reverse sp)%string).
    { rewrite <- (reverse_involutive t), Hsp. apply reverse_append. }
    rewrite Et in Ht. eapply starts_clean_prefix; [ | exact Ht].
    apply reverse_nonempty. discriminate.
  - rewrite reverse_involutive. apply trimStart_clean.
Qed.

(** Trimming a string that is clean at both ends changes nothing. *)
Lemma trim_id (s : string) :
  starts_clean s -> starts_clean (reverse s) -> trim s = s.
Proof.
  intros H1 H2. unfold trim, trimEnd.
  rewrite (trimStart_id _ H1), (trimStart_id _ H2). apply reverse_involutive.
Qed.

Lemma trim_idempotent (s : string) : trim (trim s) = trim s.
Proof. destruct (trim_ends s). apply trim_id; assumption. Qed.

Lemma clean_trim (s : string) : trim s <> "" -> clean (trim s).
Proof. intros H. split; [exact H | apply trim_ends]. Qed.

Lemma clean_join (a b : string) :
  clean a -> clean b -> clean (a ++ ". " ++ b).
Proof.
  intros (Ha & Sa & _) (Hb & _ & Eb). split; [ | split ].
  - destruct a; [congruence | discriminate].
  - apply starts_clean_append; assumption.
  - rewrite reverse_append, reverse_append.
    rewrite append_assoc. apply starts_clean_append;
      [apply reverse_nonempty; exact Hb | exact Eb].
Qed.

Lemma clean_trim_id (s : string) : clean s -> trim s = s.
Proof. intros (_ & H1 & H2). apply trim_id; assumption. Qed.

End TrimFacts.

Section ChunkPartition.

Import Str VectorStore StrFacts ChunkGroups TrimFacts.

Variable maxChunkSize : nat.

Lemma join_sentences_snoc (g : list string) (s : string) :
  g <> [] ->
  join_sentences (g ++ [s]) = (join_sentences g ++ ". " ++ trim s)%string.
Proof.
  destruct g as [ | s0 rest ]; [congruence | intros _ ].
  cbn [join_sentences app]. rewrite fold_left_app. reflexivity.
Qed.

Lemma join_sentences_clean (g : list string) :
  g <> [] -> Forall kept g -> clean (join_sentences g).
Proof.
  induction g as [ | s g IH ] using rev_ind; [congruence | intros _ H ].
  apply Forall_app in H. destruct H as [Hg Hs].
  inversion Hs as [ | ? ? Hk _ ]; subst.
  destruct g as [ | s0 rest ].
  - cbn. apply clean_trim. exact Hk.
  - rewrite join_sentences_snoc by discriminate.
    apply clean_join; [apply IH; [discriminate | exact Hg] | apply clean_trim; exact Hk].
Qed.

Lemma split_step_grouped (done : list string) (st : splitter) (s : string) :
  Forall kept done -> kept s ->
  grouped done st -> grouped (done ++ [s]) (split_step maxChunkSize st s).
Proof.
  intros Hdone Hs (closed & open & Hcat & Hne & Hchunks & Hcur).
  assert (Hopen : Forall kept open).
  { rewrite <- Hcat in Hdone. apply Forall_app in Hdone. tauto. }
  unfold split_step. destruct open as [ | s0 rest ].
  - (* nothing accumulated yet *)
    rewrite Hcur. cbn [join_sentences].
    change (0 <? String.length "")%nat with false. rewrite Bool.andb_false_r.
    exists closed, [s]. cbn [chunks currentChunk].
    repeat split; try assumption.
    rewrite <- Hcat, <- app_assoc. reflexivity.
  - pose proof (@join_sentences_clean (s0 :: rest) ltac:(discriminate) Hopen)
      as Hclean.
    rewrite <- Hcur in Hclean.
    destruct ((maxChunkSize <? String.length (currentChunk st) + String.length s)%nat
              && (0 <? String.length (currentChunk st))%nat).
    + exists (closed ++ [s0 :: rest]), [s]. cbn [chunks currentChunk].
      repeat split.
      * rewrite concat_app. cbn [List.concat]. rewrite app_nil_r, <- Hcat.
        rewrite <- app_assoc. reflexivity.
      * apply Forall_app. split; [exact Hne | ].
        constructor; [discriminate | constructor].
      * rewrite map_app, Hchunks. cbn [map].
        rewrite (clean_trim_id Hclean), Hcur. reflexivity.
    + exists closed, ((s0 :: rest) ++ [s]). cbn [chunks currentChunk].
      repeat split; try assumption.
      * rewrite <- Hcat, app_assoc. reflexivity.
      * rewrite join_sentences_snoc by discriminate. rewrite <- Hcur.
        destruct Hclean as (Hn & _).
        apply String.eqb_neq in Hn. rewrite Hn. reflexivity.
Qed.

Lemma fold_split_step_grouped (l done : list string) (st : splitter) :
  Forall kept done -> Forall kept l ->
  grouped done st ->
  grouped (done ++ l) (fold_left (split_step maxChunkSize) l st).
Proof.
  revert done st. induction l as [ | s l IH ]; intros done st Hdone Hl Hst; cbn.
  - rewrite app_nil_r. exact Hst.
  - inversion Hl as [ | ? ? Hs Hl' ]; subst.
    replace (done ++ s :: l) with ((done ++ [s]) ++ l)
      by (rewrite <- app_assoc; reflexivity).
    apply IH.
    + apply Forall_app. split; [exact Hdone | constructor; [exact Hs | constructor]].
    + exact Hl'.
    + apply split_step_grouped; assumption.
Qed.

Lemma sentences_of_kept (text : string) : Forall kept (sentences_of text).
Proof.
  apply Forall_forall. intros s Hs. unfold sentences_of in Hs.
  apply filter_In in Hs. destruct Hs as [_ Hs]. unfold kept.
  intros E. rewrite E in Hs. discriminate Hs.
Qed.

Lemma chunks_grouped (text : string) :
  exists groups,
    List.concat groups = sentences_of text /\
    Forall (fun g => g <> []) groups /\
    splitTextIntoChunks text maxChunkSize = map join_sentences groups.
Proof.
  unfold splitTextIntoChunks.
  destruct (@fold_split_step_grouped (sentences_of text) [] (mkSplitter [] ""))
    as (closed & open & Hcat & Hne & Hchunks & Hcur).
  { constructor. }
  { apply sentences_of_kept. }
  { exists [], []. repeat split. constructor. }
  cbn [app] in Hcat.
  assert (Hopen : Forall kept open).
  { pose proof (sentences_of_kept text) as H. rewrite <- Hcat in H.
    apply Forall_app in H. tauto. }
  destruct open as [ | s0 rest ].
  - rewrite Hcur. cbn [join_sentences]. change (trim "") with "".
    cbn [String.eqb]. exists closed. rewrite app_nil_r in Hcat.
    repeat split; assumption.
  - pose proof (@join_sentences_clean (s0 :: rest) ltac:(discriminate) Hopen)
      as Hclean.
    rewrite <- Hcur in Hclean. rewrite (clean_trim_id Hclean).
    destruct Hclean as (Hn & _). apply String.eqb_neq in Hn. rewrite Hn.
    exists (closed ++ [s0 :: rest]). repeat split.
    + rewrite concat_app. cbn [List.concat]. rewrite app_nil_r. exact Hcat.
    + apply Forall_app. split; [exact Hne | ].
      constructor; [discriminate | constructor].
    + rewrite map_app, Hchunks, Hcur. reflexivity.
Qed.

Lemma concat_nonempty_length (A : Type) (groups : list (list A)) :
  Forall (fun g => g <> []) groups ->
  List.length groups <= List.length (List.concat groups).
Proof.
  induction 1 as [ | g groups Hg _ IH ]; cbn [List.concat List.length]; [lia | ].
  rewrite length_app. destruct g as [ | x g ]; [congruence | ].
  cbn [List.length]. lia.
Qed.

(** The chunks hold the sentences of the text, each once and in order: the
    sentences fall into consecutive groups, none empty, and each chunk is
    the sentences of one group, trimmed and joined by [". "].  So there are
    at most as many chunks as sentences. *)
Theorem splitTextIntoChunks_groups (text : string) :
  exists groups,
    List.concat groups = sentences_of text /\
    Forall (fun g => g <> []) groups /\
    splitTextIntoChunks text maxChunkSize = map join_sentences groups /\
    List.length (splitTextIntoChunks text maxChunkSize)
    <= List.length (sentences_of text).
Proof.
  destruct (chunks_grouped text) as (groups & Hcat & Hne & Hchunks).
  exists groups. split; [exact Hcat | ]. split; [exact Hne | ].
  split; [exact Hchunks | ].
  rewrite Hchunks, length_map, <- Hcat. apply concat_nonempty_length. exact Hne.
Qed.

(** No chunk is empty, and none starts or ends with white space. *)
Theorem splitTextIntoChunks_clean (text : string) :
  Forall clean (splitTextIntoChunks text maxChunkSize).
Proof.
  destruct (chunks_grouped text) as (groups & Hcat & Hne & ->).
  apply Forall_forall. intros c Hc. apply in_map_iff in Hc.
  destruct Hc as (g & <- & Hg).
  apply join_sentences_clean.
  - apply (proj1 (Forall_forall _ _) Hne). exact Hg.
  - apply Forall_forall. intros s Hs.
    apply (proj1 (Forall_forall _ _) (sentences_of_kept text)).
    rewrite <- Hcat. apply in_concat. exists g. split; assumption.
Qed.

End ChunkPartition.

(** ** The splitter accumulates greedily *)

Module GreedyFacts.

Import Str VectorStore StrFacts ChunkGroups TrimFacts Greedy.

(** No piece of the split holds a terminator. *)
Lemma split_from_pieces (s cur : string) (in_sep : bool) :
  no_terminator cur = true ->
  Forall (fun piece => no_terminator piece = true) (split_from s cur in_sep).
Proof.
  unfold no_terminator. revert cur in_sep.
  induction s as [ | c r IH ]; intros cur in_sep Hcur; cbn [split_from].
  - constructor; [ | constructor]. rewrite WordFacts.all_chars_reverse. exact Hcur.
  - destruct (is_terminator c) eqn:E.
    + destruct in_sep.
      * apply IH. reflexivity.
      * constructor; [rewrite WordFacts.all_chars_reverse; exact Hcur | ].
        apply IH. reflexivity.
    + apply IH. cbn. rewrite E. exact Hcur.
Qed.

(** The sentences are pieces between runs of punctuation, and none is
    blank. *)
Lemma sentences_of_pieces (text : string) :
  Forall (fun s => no_terminator s = true /\ trim s <> "") (sentences_of text).
Proof.
  apply Forall_forall. intros s Hs. unfold sentences_of in Hs.
  apply filter_In in Hs. destruct Hs as [Hin Hlen]. split.
  - pose proof (@split_from_pieces text "" false eq_refl) as H.
    rewrite Forall_forall in H. apply H. exact Hin.
  - intros E. rewrite E in Hlen. discriminate Hlen.
Qed.

(** The content accumulated from [content] by the sentences [more]. *)
Lemma let_in_snoc (maxChunkSize : nat) (more : list string) (content s : string) :
  let_in maxChunkSize content more ->
  String.length
    (fold_left (fun acc t : string => (acc ++ ". " ++ trim t)%string) more content)
  + String.length s <= maxChunkSize ->
  let_in maxChunkSize content (more ++ [s]).
Proof.
  revert content. induction more as [ | t more IH ]; intros content; cbn.
  - intros _ H. split; [exact H | exact I].
  - intros [H1 H2] H. split; [exact H1 | apply IH; assumption].
Qed.

Lemma accepted_snoc (maxChunkSize : nat) (group : list string) (s : string) :
  accepted maxChunkSize group ->
  fits maxChunkSize (join_sentences group) s = true ->
  accepted maxChunkSize (group ++ [s]).
Proof.
  destruct group as [ | s0 more ]; cbn [accepted app]; [tauto | ].
  intros H F. apply let_in_snoc; [exact H | ].
  unfold fits in F. apply Nat.leb_le in F. exact F.
Qed.

(** The sentences that were let in, and the content they joined, are no
    longer than the maximum. *)
Lemma let_in_lengths (maxChunkSize : nat) (more : list string) (content : string) :
  let_in maxChunkSize content more -> more <> [] ->
  String.length content <= maxChunkSize /\
  Forall (fun s => String.length s <= maxChunkSize) more.
Proof.
  revert content. induction more as [ | t more IH ]; intros content;
    [congruence | ].
  cbn [let_in]. intros [H1 H2] _. split; [lia | ].
  constructor; [lia | ].
  destruct more as [ | t' more' ]; [constructor | ].
  apply (IH _ H2). discriminate.
Qed.

(** A sentence whose trimmed text is longer than the maximum is alone in
    its group. *)
Lemma accepted_oversize (maxChunkSize : nat) (group : list string) (s : string) :
  accepted maxChunkSize group -> In s group ->
  maxChunkSize < String.length (trim s) -> group = [s].
Proof.
  destruct group as [ | s0 more ]; cbn [accepted]; [tauto | ].
  intros H Hin Hlen. destruct more as [ | t more ].
  - destruct Hin as [-> | []]. reflexivity.
  - exfalso. destruct (@let_in_lengths _ _ _ H ltac:(discriminate)) as [H0 Hm].
    destruct Hin as [-> | Hin]; [lia | ].
    rewrite Forall_forall in Hm. specialize (Hm _ Hin).
    pose proof (trim_length s). lia.
Qed.

(** The groups that [greedy_groups] returns, [open] being a group under
    way that holds accepted sentences. *)
Lemma greedy_groups_spec (maxChunkSize : nat) (sentences open : list string) :
  open = [] \/ accepted maxChunkSize open ->
  List.concat (greedy_groups maxChunkSize open sentences) = open ++ sentences /\
  Forall (fun g => g <> []) (greedy_groups maxChunkSize open sentences) /\
  Forall (accepted maxChunkSize) (greedy_groups maxChunkSize open sentences) /\
  refused maxChunkSize (greedy_groups maxChunkSize open sentences) /\
  (forall s0 more, open = s0 :: more ->
     exists tail rest,
       greedy_groups maxChunkSize open sentences = (s0 :: more ++ tail) :: rest).
Proof.
  revert open. induction sentences as [ | s rest IH ]; intros open Hopen;
    cbn [greedy_groups].
  - destruct open as [ | s0 more ].
    + repeat split; try constructor. intros ? ? E. discriminate E.
    + destruct Hopen as [E | Hacc]; [discriminate E | ].
      cbn [List.concat]. rewrite !app_nil_r.
      split; [reflexivity | ].
      split; [constructor; [discriminate | constructor] | ].
      split; [constructor; [exact Hacc | constructor] | ].
      split; [cbn; tauto | ].
      intros ? ? [= <- <-]. exists [], []. rewrite app_nil_r. reflexivity.
  - destruct open as [ | s0 more ].
    + destruct (IH [s] (or_intror I)) as (Hc & Hn & Ha & Hr & _).
      split; [exact Hc | ]. split; [exact Hn | ]. split; [exact Ha | ].
      split; [exact Hr | ]. intros ? ? E. discriminate E.
    + destruct Hopen as [E | Hacc]; [discriminate E | ].
      destruct (fits maxChunkSize (join_sentences (s0 :: more)) s) eqn:F.
      * destruct (IH ((s0 :: more) ++ [s]) (or_intror (@accepted_snoc _ _ _ Hacc F)))
          as (Hc & Hn & Ha & Hr & Hh).
        split; [rewrite Hc, <- app_assoc; reflexivity | ].
        split; [exact Hn | ]. split; [exact Ha | ]. split; [exact Hr | ].
        intros ? ? [= <- <-].
        destruct (Hh s0 (more ++ [s]) eq_refl) as (tail & rest' & E).
        exists (s :: tail), rest'. rewrite E, <- app_assoc. reflexivity.
      * destruct (IH [s] (or_intror I)) as (Hc & Hn & Ha & Hr & Hh).
        destruct (Hh s [] eq_refl) as (tail & rest' & E).
        split; [cbn [List.concat]; rewrite Hc; reflexivity | ].
        split; [constructor; [discriminate | exact Hn] | ].
        split; [constructor; [exact Hacc | exact Ha] | ].
        split.
        -- cbn [refused]. split; [ | exact Hr]. rewrite E.
           unfold fits in F. apply Nat.leb_gt in F. exact F.
        -- intros ? ? [= <- <-]. exists [], (greedy_groups maxChunkSize [s] rest).
           rewrite app_nil_r. reflexivity.
Qed.

(** The loop of [splitTextIntoChunks] from a state whose open content is
    that of the group [open]: what is returned in the end is what was
    closed so far, followed by the contents of the greedy groups. *)
Lemma fold_split_greedy (maxChunkSize : nat) (rest open : list string)
    (st : splitter) :
  Forall kept open -> Forall kept rest ->
  currentChunk st = join_sentences open ->
  (if String.eqb
        (trim (currentChunk (fold_left (split_step maxChunkSize) rest st))) ""
   then chunks (fold_left (split_step maxChunkSize) rest st)
   else chunks (fold_left (split_step maxChunkSize) rest st)
        ++ [trim (currentChunk (fold_left (split_step maxChunkSize) rest st))])
  = chunks st ++ map join_sentences (greedy_groups maxChunkSize open rest).
Proof.
  revert open st. induction rest as [ | s rest IH ]; intros open st Ho Hr Hcur;
    cbn [fold_left greedy_groups].
  - destruct open as [ | s0 more ].
    + rewrite Hcur. cbn. rewrite app_nil_r. reflexivity.
    + pose proof (@join_sentences_clean (s0 :: more) ltac:(discriminate) Ho)
        as Hclean.
      rewrite Hcur, (clean_trim_id Hclean).
      destruct Hclean as (Hn & _). apply String.eqb_neq in Hn. rewrite Hn.
      reflexivity.
  - inversion Hr as [ | ? ? Hs Hrest ]; subst.
    destruct open as [ | s0 more ].
    + rewrite (IH [s] (split_step maxChunkSize st s)).
      * unfold split_step. rewrite Hcur. cbn [join_sentences].
        change (0 <? String.length "")%nat with false.
        rewrite Bool.andb_false_r. reflexivity.
      * constructor; [exact Hs | constructor].
      * exact Hrest.
      * unfold split_step. rewrite Hcur. cbn [join_sentences].
        change (0 <? String.length "")%nat with false.
        rewrite Bool.andb_false_r. reflexivity.
    + pose proof (@join_sentences_clean (s0 :: more) ltac:(discriminate) Ho)
        as Hclean.
      assert (Hpos : (0 <? String.length (join_sentences (s0 :: more)))%nat = true).
      { destruct Hclean as (Hn & _).
        destruct (join_sentences (s0 :: more)); [congruence | reflexivity]. }
      assert (Hne : String.eqb (join_sentences (s0 :: more)) "" = false).
      { apply String.eqb_neq. apply Hclean. }
      unfold fits.
      destruct (String.length (join_sentences (s0 :: more)) + String.length s
                <=? maxChunkSize)%nat eqn:F.
      * rewrite (IH ((s0 :: more) ++ [s]) (split_step maxChunkSize st s)).
        -- unfold split_step. rewrite Hcur.
           apply Nat.leb_le in F. apply Nat.ltb_ge in F. rewrite F.
           reflexivity.
        -- apply Forall_app. split; [exact Ho | constructor; [exact Hs | constructor] ].
        -- exact Hrest.
        -- unfold split_step. rewrite Hcur.
           apply Nat.leb_le in F. apply Nat.ltb_ge in F. rewrite F.
           cbn [andb currentChunk]. rewrite Hne.
           rewrite join_sentences_snoc by discriminate. reflexivity.
      * rewrite (IH [s] (split_step maxChunkSize st s)).
        -- unfold split_step. rewrite Hcur.
           apply Nat.leb_gt in F. apply Nat.ltb_lt in F. rewrite F, Hpos.
           cbn [andb chunks map]. rewrite (clean_trim_id Hclean).
           rewrite <- app_assoc. reflexivity.
        -- constructor; [exact Hs | constructor].
        -- exact Hrest.
        -- unfold split_step. rewrite Hcur.
           apply Nat.leb_gt in F. apply Nat.ltb_lt in F. rewrite F, Hpos.
           reflexivity.
Qed.

End GreedyFacts.

Section GreedySplitter.

Import Str VectorStore ChunkGroups Greedy GreedyFacts.

(** C4, amended: the text is split on the runs of sentence punctuation and
    the blank pieces are dropped, so that no sentence holds a terminator
    and none is blank; the sentences are accumulated greedily, in order and
    each once.  The chunks are the
    contents of the groups that the greedy accumulation makes of them: the
    sentences of a group, trimmed and joined by [". "].  In a group every
    sentence after the first was let in by the size check, the length of
    the content before it plus its own length as split not exceeding the
    maximum; the sentence that opens a further group was refused by the
    check against the whole content of the group before it.  The first
    sentence of a group is taken whatever its length, and a sentence whose
    trimmed text is longer than the maximum is alone in its group. *)
Theorem splitTextIntoChunks_greedy (text : string) (maxChunkSize : nat) :
  Forall (fun s => no_terminator s = true /\ trim s <> "") (sentences_of text) /\
  exists groups,
    groups = greedy_groups maxChunkSize [] (sentences_of text) /\
    splitTextIntoChunks text maxChunkSize = map join_sentences groups /\
    List.concat groups = sentences_of text /\
    Forall (fun g => g <> []) groups /\
    Forall (accepted maxChunkSize) groups /\
    refused maxChunkSize groups /\
    Forall (fun g => forall s, In s g ->
                       maxChunkSize < String.length (trim s) -> g = [s])
           groups.
Proof.
  split; [apply sentences_of_pieces | ].
  exists (greedy_groups maxChunkSize [] (sentences_of text)).
  destruct (@greedy_groups_spec maxChunkSize (sentences_of text) [] (or_introl eq_refl))
    as (Hc & Hn & Ha & Hr & _).
  split; [reflexivity | ].
  split.
  - unfold splitTextIntoChunks.
    apply (@fold_split_greedy maxChunkSize (sentences_of text) []
             (mkSplitter [] "")).
    + constructor.
    + apply sentences_of_kept.
    + reflexivity.
  - split; [exact Hc | ]. split; [exact Hn | ]. split; [exact Ha | ].
    split; [exact Hr | ].
    eapply Forall_impl; [ | exact Ha ].
    intros g Hg s Hin Hlen. exact (@accepted_oversize _ _ _ Hg Hin Hlen).
Qed.

End GreedySplitter.

(** The greedy accumulation at work: with a maximum of 12 the third
    sentence is refused by the content of the first two, and the joiner of
    the first chunk is not counted. *)
Example splitTextIntoChunks_greedy_run :
  VectorStore.sentences_of "Hello. World! Fine? "
  = ["Hello"; " World"; " Fine"] /\
  Greedy.greedy_groups 12 [] ["Hello"; " World"; " Fine"]
  = [["Hello"; " World"]; [" Fine"]] /\
  VectorStore.splitTextIntoChunks "Hello. World! Fine? " 12
  = ["Hello. World"; "Fine"] /\
  VectorStore.splitTextIntoChunks "Hello. World! Fine? " 10
  = ["Hello"; "World. Fine"].
Proof. repeat split; vm_compute; reflexivity. Qed.

(** ** Adding a text to the remote store *)

Section AddText.

Import Num Data Arr VectorStore Appending RankFacts.

Variable embedContent : string -> completion (list number).

(** The loop of [addText] commits the chunks one by one up to the first one
    that the service refuses. *)
Lemma add_chunks_outcome (meta : Metadata) (total originalLength : nat)
    (rest : list string) (st : State) (i : nat) :
  exists done vs remaining,
    rest = done ++ remaining /\
    Forall2 (fun c v => embedContent c = Return v) done vs /\
    store (snd (add_chunks embedContent st meta total originalLength rest i))
    = appended (store st) meta total originalLength i done vs /\
    ((remaining = [] /\
      fst (add_chunks embedContent st meta total originalLength rest i) = Return tt /\
      requests (snd (add_chunks embedContent st meta total originalLength rest i))
      = requests st ++ done) \/
     (exists e c later,
        remaining = c :: later /\ embedContent c = Throw e /\
        fst (add_chunks embedContent st meta total originalLength rest i) = Throw e /\
        requests (snd (add_chunks embedContent st meta total originalLength rest i))
        = requests st ++ done ++ [c])).
Proof.
  revert st i. induction rest as [ | chunk more IH ]; intros st i.
  - exists [], [], []. cbn [add_chunks fst snd app].
    split; [reflexivity | ]. split; [constructor | ]. split.
    + unfold appended. cbn [mapi_from]. rewrite !app_nil_r.
      destruct (store st); reflexivity.
    + left. rewrite app_nil_r. repeat split.
  - cbn [add_chunks]. unfold generateEmbedding.
    destruct (embedContent chunk) as [v | e] eqn:E.
    + match goal with
      | |- context [add_chunks _ ?st' _ _ _ more (S i)] =>
          destruct (IH st' (S i)) as (done & vs & remaining & Hrest & Hvs & Hstore & Hout)
      end.
      exists (chunk :: done), (v :: vs), remaining.
      split; [cbn; rewrite Hrest; reflexivity | ].
      split; [constructor; assumption | ].
      split.
      * rewrite Hstore. unfold appended. cbn [store vectors texts metadata mapi_from].
        rewrite <- !app_assoc. reflexivity.
      * destruct Hout as [(Hrem & Hret & Hreq)
                         | (e & c & later & Hrem & Hc & Hret & Hreq)].
        -- left. split; [exact Hrem | ]. split; [exact Hret | ].
           rewrite Hreq. cbn [requests]. rewrite <- app_assoc. reflexivity.
        -- right. exists e, c, later.
           split; [exact Hrem | ]. split; [exact Hc | ]. split; [exact Hret | ].
           rewrite Hreq. cbn [requests]. rewrite <- !app_assoc. reflexivity.
    + exists [], [], (chunk :: more). cbn [fst snd app store requests].
      split; [reflexivity | ]. split; [constructor | ]. split.
      * unfold appended. cbn [mapi_from]. rewrite !app_nil_r.
        destruct (store st); reflexivity.
      * right. exists e, chunk, more. repeat split. exact E.
Qed.

(** Whatever the service does, [addText] only appends: the records that
    were stored stay where they were, the three arrays grow by the same
    number of entries, and the texts appended are the first chunks of the
    text, in order. *)
Theorem addText_appends (st : State) (text : string) (meta : Metadata) :
  exists done vs ms,
    store (snd (addText embedContent st text meta))
    = mkStore (vectors (store st) ++ vs) (texts (store st) ++ done)
              (metadata (store st) ++ ms) /\
    List.length vs = List.length done /\
    List.length ms = List.length done /\
    (exists remaining,
        splitTextIntoChunks text default_maxChunkSize = done ++ remaining) /\
    (parallel (store st) -> parallel (store (snd (addText embedContent st text meta)))).
Proof.
  unfold addText.
  destruct (add_chunks_outcome meta
              (List.length (splitTextIntoChunks text default_maxChunkSize))
              (String.length text)
              (splitTextIntoChunks text default_maxChunkSize) st 0)
    as (done & vs & remaining & Hrest & Hvs & Hstore & _).
  exists done, vs,
    (mapi_from (fun (_ : string) j =>
                  chunk_metadata meta j
                    (List.length (splitTextIntoChunks text default_maxChunkSize))
                    (String.length text)) 0 done).
  assert (Lv : List.length vs = List.length done).
  { symmetry. eapply Forall2_length. exact Hvs. }
  split; [exact Hstore | ].
  split; [exact Lv | ].
  split; [apply mapi_from_length | ].
  split; [exists remaining; exact Hrest | ].
  intros [P1 P2]. rewrite Hstore. unfold parallel, appended.
  cbn [vectors texts metadata]. rewrite !length_app, mapi_from_length. lia.
Qed.

(** When the service answers every chunk, [addText] returns, having sent
    the chunks to the service in order, and has appended one record per
    chunk in order: the chunk as text, the answer of the service as vector,
    and the metadata of the chunk. *)
Theorem addText_all_chunks (st : State) (text : string) (meta : Metadata) :
  (forall c, In c (splitTextIntoChunks text default_maxChunkSize) ->
             exists v, embedContent c = Return v) ->
  exists vs,
    Forall2 (fun c v => embedContent c = Return v)
            (splitTextIntoChunks text default_maxChunkSize) vs /\
    addText embedContent st text meta
    = (Return tt,
       mkState
         (appended (store st) meta
            (List.length (splitTextIntoChunks text default_maxChunkSize))
            (String.length text) 0
            (splitTextIntoChunks text default_maxChunkSize) vs)
         (requests st ++ splitTextIntoChunks text default_maxChunkSize)).
Proof.
  intros Hall. unfold addText.
  destruct (add_chunks_outcome meta
              (List.length (splitTextIntoChunks text default_maxChunkSize))
              (String.length text)
              (splitTextIntoChunks text default_maxChunkSize) st 0)
    as (done & vs & remaining & Hrest & Hvs & Hstore & Hout).
  destruct Hout as [(Hrem & Hret & Hreq) | (e & c & later & Hrem & Hc & _)].
  - subst remaining. rewrite app_nil_r in Hrest. subst done.
    exists vs. split; [exact Hvs | ].
    destruct (add_chunks embedContent st meta _ _ _ 0) as [r st'].
    cbn [fst snd] in *. subst r. f_equal.
    destruct st' as [s' rq]. cbn [store requests] in *. subst. reflexivity.
  - exfalso. destruct (Hall c) as [v Hv].
    + rewrite Hrest, Hrem. apply in_or_app. right. left. reflexivity.
    + congruence.
Qed.

Lemma add_chunks_refused (meta : Metadata) (total originalLength : nat)
    (done later : list string) (c : string) (e : string) (st : State) (i : nat) :
  (forall d, In d done -> exists v, embedContent d = Return v) ->
  embedContent c = Throw e ->
  exists vs,
    Forall2 (fun d v => embedContent d = Return v) done vs /\
    add_chunks embedContent st meta total originalLength (done ++ c :: later) i
    = (Throw e,
       mkState (appended (store st) meta total originalLength i done vs)
               (requests st ++ done ++ [c])).
Proof.
  intros Hdone Hc. revert st i.
  induction done as [ | d done IH ]; intros st i;
    cbn [app add_chunks]; unfold generateEmbedding.
  - rewrite Hc. exists []. split; [constructor | ].
    unfold appended. cbn [mapi_from app]. rewrite !app_nil_r.
    destruct (store st); reflexivity.
  - destruct (Hdone d (or_introl eq_refl)) as [v Hv]. rewrite Hv.
    match goal with
    | |- context [add_chunks _ ?st' _ _ _ _ (S i)] =>
        destruct (IH (fun x Hx => Hdone x (or_intror Hx)) st' (S i))
          as (vs & Hvs & Hrun)
    end.
    exists (v :: vs). split; [constructor; assumption | ].
    rewrite Hrun. unfold appended.
    cbn [store vectors texts metadata requests mapi_from].
    rewrite <- !app_assoc. reflexivity.
Qed.

(** When the service refuses a chunk, [addText] throws that error.  The
    chunks before the refused one stay stored with their vectors and
    metadata, the refused chunk and those after it are not stored, and
    nothing is sent to the service after the refusal. *)
Theorem addText_refused (st : State) (text : string) (meta : Metadata)
    (done later : list string) (c : string) (e : string) :
  splitTextIntoChunks text default_maxChunkSize = done ++ c :: later ->
  (forall d, In d done -> exists v, embedContent d = Return v) ->
  embedContent c = Throw e ->
  exists vs,
    Forall2 (fun d v => embedContent d = Return v) done vs /\
    addText embedContent st text meta
    = (Throw e,
       mkState
         (appended (store st) meta (List.length (done ++ c :: later))
            (String.length text) 0 done vs)
         (requests st ++ done ++ [c])).
Proof.
  intros Hsplit Hdone Hc. unfold addText. rewrite Hsplit.
  apply add_chunks_refused; assumption.
Qed.

End AddText.

(** The two theorems at work: a text of two chunks sent to a service that
    answers everything, and to one that refuses the second chunk. *)
Lemma addText_all_chunks_witness :
  exists vs,
    Forall2 (fun c v => MoreExamples.constant_embedder c = Return v)
            (VectorStore.splitTextIntoChunks MoreExamples.long_text
               VectorStore.default_maxChunkSize) vs /\
    VectorStore.addText MoreExamples.constant_embedder
      MoreExamples.fresh MoreExamples.long_text []
    = (Return tt,
       VectorStore.mkState
         (Appending.appended (VectorStore.store MoreExamples.fresh) []
            (List.length (VectorStore.splitTextIntoChunks MoreExamples.long_text
                            VectorStore.default_maxChunkSize))
            (String.length MoreExamples.long_text) 0
            (VectorStore.splitTextIntoChunks MoreExamples.long_text
               VectorStore.default_maxChunkSize) vs)
         (VectorStore.requests MoreExamples.fresh
          ++ VectorStore.splitTextIntoChunks MoreExamples.long_text
               VectorStore.default_maxChunkSize)).
Proof.
  apply (@addText_all_chunks MoreExamples.constant_embedder
           MoreExamples.fresh MoreExamples.long_text []).
  intros c _. exists [1%float]. reflexivity.
Defined.

Lemma addText_refused_witness :
  exists vs,
    Forall2 (fun d v => MoreExamples.short_refusing_service d = Return v)
            MoreExamples.long_text_first vs /\
    VectorStore.addText MoreExamples.short_refusing_service
      MoreExamples.fresh MoreExamples.long_text []
    = (Throw "quota",
       VectorStore.mkState
         (Appending.appended (VectorStore.store MoreExamples.fresh) []
            (List.length (MoreExamples.long_text_first
                          ++ MoreExamples.long_text_second :: []))
            (String.length MoreExamples.long_text) 0
            MoreExamples.long_text_first vs)
         (VectorStore.requests MoreExamples.fresh
          ++ MoreExamples.long_text_first ++ [MoreExamples.long_text_second])).
Proof.
  apply (@addText_refused MoreExamples.short_refusing_service
           MoreExamples.fresh MoreExamples.long_text []
           MoreExamples.long_text_first [] MoreExamples.long_text_second "quota").
  - vm_compute. reflexivity.
  - intros d Hd. vm_compute in Hd. destruct Hd as [Hd | []]. subst d. exists [1%float]. vm_compute. reflexivity.
  - vm_compute. reflexivity.
Defined.

(** ** The metadata of a chunk *)

Section ChunkMetadata.

Import Num Data VectorStore.

Lemma field_assign (fields : list (string * jsval)) (name : string) (v : jsval)
    (k : string) :
  field (assign fields name v) k
  = if String.eqb name k then Some v else field fields k.
Proof.
  induction fields as [ | [k' w] r IH ]; cbn [assign field].
  - destruct (String.eqb_spec name k); reflexivity.
  - destruct (String.eqb_spec k' name) as [E | N]; cbn [field].
    + subst k'. destruct (String.eqb_spec name k); reflexivity.
    + rewrite IH. destruct (String.eqb_spec k' k) as [E' | N'].
      * subst k'. destruct (String.eqb_spec name k); [congruence | reflexivity].
      * reflexivity.
Qed.

(** The metadata stored with a chunk holds the position of the chunk, the
    number of chunks and the length of the whole text under the names
    [chunkIndex], [totalChunks] and [originalLength], whatever the caller's
    metadata held under these names, and every other field of the caller's
    metadata as it was. *)
Theorem chunk_metadata_fields (meta : Metadata) (i total originalLength : nat) :
  field (chunk_metadata meta i total originalLength) "chunkIndex"
  = Some (JNum (of_nat i)) /\
  field (chunk_metadata meta i total originalLength) "totalChunks"
  = Some (JNum (of_nat total)) /\
  field (chunk_metadata meta i total originalLength) "originalLength"
  = Some (JNum (of_nat originalLength)) /\
  forall k,
    k <> "chunkIndex" -> k <> "totalChunks" -> k <> "originalLength" ->
    field (chunk_metadata meta i total originalLength) k = field meta k.
Proof.
  unfold chunk_metadata. repeat split; rewrite ?field_assign; try reflexivity.
  intros k H1 H2 H3. rewrite !field_assign.
  destruct (String.eqb_spec "originalLength" k); [congruence | ].
  destruct (String.eqb_spec "totalChunks" k); [congruence | ].
  destruct (String.eqb_spec "chunkIndex" k); [congruence | ].
  reflexivity.
Qed.

End ChunkMetadata.

(** ** The remote similarity: symmetry and the zero vector *)

Module SymmetryFacts.

Import Num VectorStore FloatFacts FloatOrder Exchange.

Local Open Scope float_scope.

(** Multiplication of floats commutes. *)
Lemma mul_comm (x y : float) : x * y = y * x.
Proof.
  apply Prim2SF_inj. rewrite !FloatAxioms.mul_spec.
  destruct (Prim2SF x) as [sx | sx | | sx mx ex],
           (Prim2SF y) as [sy | sy | | sy my ey];
    cbn [SF64mul SFmul]; try reflexivity;
    try (destruct sx, sy; reflexivity).
  unfold SF64mul, SFmul.
  rewrite (Pos.mul_comm mx my), (Z.add_comm ex ey), (Bool.xorb_comm sx sy).
  reflexivity.
Qed.

Lemma is_zero_Prim2SF (x : float) :
  PrimFloat.is_zero x = true -> exists s, Prim2SF x = S754_zero s.
Proof.
  unfold PrimFloat.is_zero. rewrite FloatAxioms.eqb_spec.
  change (Prim2SF PrimFloat.zero) with (S754_zero false).
  destruct (Prim2SF x) as [s | s | | s m e]; cbn; intros H;
    try discriminate H; try (destruct s; discriminate H).
  exists s. reflexivity.
Qed.

(** The square of a zero is [+0]. *)
Lemma zero_square (x : float) :
  PrimFloat.is_zero x = true -> x * x = PrimFloat.zero.
Proof.
  intros H. destruct (@is_zero_Prim2SF x H) as [s Hs].
  apply Prim2SF_inj. rewrite FloatAxioms.mul_spec, Hs.
  destruct s; reflexivity.
Qed.

(** With as many components on both sides, the loop pairs them off. *)
Lemma accumulate_from_pairs (v1 v2 pre1 pre2 : list number) (acc : sums) :
  List.length v1 = List.length v2 ->
  List.length pre1 = List.length pre2 ->
  swap (accumulate_from v1 (List.length pre2) (pre2 ++ v2) acc)
  = accumulate_from v2 (List.length pre1) (pre1 ++ v1) (swap acc).
Proof.
  revert v2 pre1 pre2 acc.
  induction v1 as [ | x v1 IH ]; intros [ | y v2 ] pre1 pre2 acc Hl Hp;
    try discriminate Hl; cbn [accumulate_from]; [reflexivity | ].
  assert (E2 : at_index (pre2 ++ y :: v2) (List.length pre2) = y).
  { unfold at_index. rewrite nth_error_app2 by lia.
    rewrite Nat.sub_diag. reflexivity. }
  assert (E1 : at_index (pre1 ++ x :: v1) (List.length pre1) = x).
  { unfold at_index. rewrite nth_error_app2 by lia.
    rewrite Nat.sub_diag. reflexivity. }
  rewrite E1, E2.
  specialize (IH v2 (pre1 ++ [x]) (pre2 ++ [y])).
  rewrite !length_app in IH. cbn [List.length] in IH.
  rewrite !Nat.add_1_r in IH. rewrite <- !app_assoc in IH. cbn [app] in IH.
  rewrite IH by (cbn in Hl; lia).
  unfold swap. cbn [dotProduct norm1 norm2].
  rewrite (mul_comm x y). reflexivity.
Qed.

End SymmetryFacts.

Section RemoteSymmetry.

Import Num VectorStore Exchange SymmetryFacts.

(** Between two vectors of the same length the similarity does not depend
    on which one is the query. *)
Theorem calculateSimilarity_symmetric (vector1 vector2 : list number) :
  List.length vector1 = List.length vector2 ->
  calculateSimilarity vector1 vector2 = calculateSimilarity vector2 vector1.
Proof.
  intros H. unfold calculateSimilarity.
  pose proof (@accumulate_from_pairs vector1 vector2 [] []
                (mkSums PrimFloat.zero PrimFloat.zero PrimFloat.zero)
                H eq_refl) as E.
  cbn [app List.length] in E.
  change (swap (mkSums PrimFloat.zero PrimFloat.zero PrimFloat.zero))
    with (mkSums PrimFloat.zero PrimFloat.zero PrimFloat.zero) in E.
  rewrite <- E. unfold swap. cbn [dotProduct norm1 norm2].
  rewrite Bool.orb_comm.
  rewrite (mul_comm (PrimFloat.sqrt (norm2 _)) (PrimFloat.sqrt (norm1 _))).
  reflexivity.
Qed.

Lemma calculateSimilarity_symmetric_witness :
  calculateSimilarity [0.3%float; 0.7%float] [2%float; 0.1%float]
  = calculateSimilarity [2%float; 0.1%float] [0.3%float; 0.7%float].
Proof.
  apply (@calculateSimilarity_symmetric [0.3%float; 0.7%float]
           [2%float; 0.1%float]).
  reflexivity.
Defined.

(** A query whose components are all zero scores [0] against every stored
    vector, whatever its length: the guard on the norms answers before the
    division. *)
Theorem calculateSimilarity_zero_query (vector1 vector2 : list number) :
  forallb PrimFloat.is_zero vector1 = true ->
  calculateSimilarity vector1 vector2 = PrimFloat.zero.
Proof.
  intros H. unfold calculateSimilarity.
  rewrite SimilarityFacts.norm1_accumulate_from. cbn [norm1].
  assert (E : fold_left (fun a x => (a + x * x)%float) vector1 PrimFloat.zero
              = PrimFloat.zero).
  { induction vector1 as [ | x v IH ]; cbn [fold_left]; [reflexivity | ].
    cbn in H. apply andb_prop in H. destruct H as [Hx Hv].
    rewrite (@zero_square x Hx).
    change (PrimFloat.zero + PrimFloat.zero)%float with PrimFloat.zero.
    apply IH. exact Hv. }
  rewrite E. reflexivity.
Qed.

Lemma calculateSimilarity_zero_query_witness :
  calculateSimilarity [0%float; (-0)%float] [1%float] = PrimFloat.zero.
Proof.
  apply (@calculateSimilarity_zero_query [0%float; (-0)%float] [1%float]).
  reflexivity.
Defined.

End RemoteSymmetry.

(** ** What a local search can return *)

Section LocalResults.

Import Num Str Data SimpleVectorStore Indexed.

(** A word of the vocabulary is a word of the lowercased text. *)
Lemma vocabulary_in_words (text w : string) :
  In w (vocabulary (createEmbedding text)) ->
  In w (match_words (toLowerCase text)).
Proof.
  unfold createEmbedding. cbn [vocabulary]. unfold count_words. intros H.
  apply (Permutation_in _ (ObjFacts.keys_perm _)) in H.
  apply ObjFacts.count_words_names in H. destruct H as [[] | H]. apply H.
Qed.

(** A score above the threshold needs a word that both vocabularies hold. *)
Lemma relevant_common (queryEmbedding : Embedding) (doc : Document) :
  relevant (score queryEmbedding doc) = true ->
  exists w, In w (vocabulary queryEmbedding) /\
            In w (vocabulary (embedding doc)).
Proof.
  unfold relevant, score. cbn [similarity]. unfold cosineSimilarity.
  destruct (filter (includes (vocabulary (embedding doc)))
                   (vocabulary queryEmbedding)) as [ | w rest ] eqn:E.
  - intros H. vm_compute in H. discriminate H.
  - intros _. exists w.
    assert (Hw : In w (filter (includes (vocabulary (embedding doc)))
                              (vocabulary queryEmbedding))).
    { rewrite E. left. reflexivity. }
    apply filter_In in Hw. destruct Hw as [Hq Hd]. split; [exact Hq | ].
    unfold includes in Hd. apply existsb_exists in Hd.
    destruct Hd as (x & Hx & Hwx). apply String.eqb_eq in Hwx. subst x. exact Hx.
Qed.

(** Every result is the score of a stored document and passes the filter. *)
Lemma search_relevant_In (s : Store) (query : string) (limit : nat) (r : Result) :
  In r (search s query limit) ->
  relevant r = true /\
  exists doc, In doc (documents s) /\ r = score (createEmbedding query) doc.
Proof.
  unfold search. intros H. apply filter_In in H. destruct H as [H Hrel].
  split; [exact Hrel | ].
  apply ArrFacts.In_firstn in H.
  apply (Permutation_in _ (ArrFacts.sort_perm by_similarity _)) in H.
  apply in_map_iff in H. destruct H as (doc & Hdoc & Hin).
  exists doc. split; [exact Hin | symmetry; exact Hdoc].
Qed.

Lemma search_common (s : Store) (query : string) (limit : nat) (r : Result) :
  In r (search s query limit) ->
  In (document r) (documents s) /\
  exists w, In w (vocabulary (createEmbedding query)) /\
            In w (vocabulary (embedding (document r))).
Proof.
  intros H. apply search_relevant_In in H. destruct H as (Hrel & doc & Hin & ->).
  split; [exact Hin | ]. apply relevant_common. exact Hrel.
Qed.

(** The store that [addDocument] returns is indexed when the store it was
    given is, and the new document comes last with the embedding of its
    text. *)
Theorem addDocument_indexed (s : Store) (text : string) (meta : Metadata) :
  indexed s ->
  indexed (addDocument s text meta) /\
  documents (addDocument s text meta)
  = documents s ++ [mkDocument text meta (createEmbedding text)].
Proof.
  intros [Hd He]. unfold indexed, addDocument. cbn [documents embeddings].
  repeat split.
  - apply Forall_app. split; [exact Hd | ]. constructor; [reflexivity | constructor].
  - rewrite map_app, He. reflexivity.
Qed.

Lemma addDocument_indexed_witness :
  indexed (addDocument Examples.insurance_store "home insurance" []) /\
  documents (addDocument Examples.insurance_store "home insurance" [])
  = documents Examples.insurance_store
    ++ [mkDocument "home insurance" [] (createEmbedding "home insurance")].
Proof.
  apply (@addDocument_indexed Examples.insurance_store "home insurance" []).
  split; [ | reflexivity ].
  repeat constructor.
Defined.

(** Every result of a search over an indexed store is a stored document
    whose text, lowercased, holds a word of the lowercased query. *)
Theorem search_shares_word (s : Store) (query : string) (limit : nat) :
  indexed s ->
  Forall (fun r =>
            In (document r) (documents s) /\
            exists w, In w (match_words (toLowerCase query)) /\
                      In w (match_words (toLowerCase (text (document r)))))
         (search s query limit).
Proof.
  intros [Hd _]. apply Forall_forall. intros r Hr.
  apply search_common in Hr. destruct Hr as (Hin & w & Hq & Hw).
  split; [exact Hin | ]. exists w.
  rewrite Forall_forall in Hd. rewrite (Hd _ Hin) in Hw.
  split; apply vocabulary_in_words; assumption.
Qed.

Lemma search_shares_word_witness :
  Forall (fun r =>
            In (document r) (documents Examples.insurance_store) /\
            exists w, In w (match_words (toLowerCase "Health Insurance")) /\
                      In w (match_words (toLowerCase (text (document r)))))
         (search Examples.insurance_store "Health Insurance" 3).
Proof.
  apply (@search_shares_word Examples.insurance_store "Health Insurance" 3).
  split; [ | reflexivity ].
  repeat constructor.
Defined.

(** A query without a word finds nothing, whatever the store holds. *)
Theorem search_no_words (s : Store) (query : string) (limit : nat) :
  match_words (toLowerCase query) = [] -> search s query limit = [].
Proof.
  intros H.
  destruct (search s query limit) as [ | r rest ] eqn:E; [reflexivity | ].
  exfalso.
  assert (Hr : In r (search s query limit)) by (rewrite E; left; reflexivity).
  apply search_common in Hr. destruct Hr as (_ & w & Hq & _).
  apply vocabulary_in_words in Hq. rewrite H in Hq. destruct Hq.
Qed.

Lemma search_no_words_witness :
  search Examples.insurance_store "  ?!" 3 = [].
Proof.
  apply (@search_no_words Examples.insurance_store "  ?!" 3). reflexivity.
Defined.

(** Two queries that differ only in the case of their letters find the
    same results. *)
Theorem search_ignores_case (s : Store) (query1 query2 : string) (limit : nat) :
  toLowerCase query1 = toLowerCase query2 ->
  search s query1 limit = search s query2 limit.
Proof.
  intros H. unfold search.
  assert (E : score (createEmbedding query1) = score (createEmbedding query2)).
  { unfold score, createEmbedding. cbn [vector vocabulary]. rewrite H. reflexivity. }
  rewrite E. reflexivity.
Qed.

Lemma search_ignores_case_witness :
  search Examples.insurance_store "HEALTH Insurance" 3
  = search Examples.insurance_store "health insurance" 3.
Proof.
  apply (@search_ignores_case Examples.insurance_store
           "HEALTH Insurance" "health insurance" 3).
  reflexivity.
Defined.

End LocalResults.

(** ** What the scraper stores *)

Module ScrapeFacts.

Import Num Str Data SimpleVectorStore Indexed Scraper ChunkGroups.

Lemma all_chars_trimStart (p : ascii -> bool) (s : string) :
  all_chars p s = true -> all_chars p (trimStart s) = true.
Proof.
  induction s as [ | c r IH ]; cbn; [reflexivity | ].
  intros H. destruct (is_space c); [ | exact H].
  apply andb_prop in H. apply IH, H.
Qed.

(** Trimming keeps what holds of every character. *)
Lemma all_chars_trim (p : ascii -> bool) (s : string) :
  all_chars p s = true -> all_chars p (trim s) = true.
Proof.
  intros H. unfold trim, trimEnd.
  rewrite WordFacts.all_chars_reverse. apply all_chars_trimStart.
  rewrite WordFacts.all_chars_reverse. apply all_chars_trimStart. exact H.
Qed.

(** No piece of a split holds the separator. *)
Lemma split_on_pieces (sep : ascii) (s cur : string) :
  all_chars (fun c => negb (Ascii.eqb c sep)) cur = true ->
  Forall (fun piece => all_chars (fun c => negb (Ascii.eqb c sep)) piece = true)
         (split_on sep s cur).
Proof.
  revert cur. induction s as [ | c r IH ]; intros cur Hcur; cbn [split_on].
  - constructor; [ | constructor]. rewrite WordFacts.all_chars_reverse. exact Hcur.
  - destruct (Ascii.eqb c sep) eqn:E.
    + constructor.
      * rewrite WordFacts.all_chars_reverse. exact Hcur.
      * apply IH. reflexivity.
    + apply IH. cbn. rewrite E. exact Hcur.
Qed.

(** A loop whose every step either leaves the store alone or adds one
    document with a property [Q] appends documents with that property, at
    most one for each element, and keeps the store indexed. *)
Lemma each_from_adds (A : Type) (Q : Document -> Prop)
    (f : Store -> A -> nat -> Store) (l : list A) :
  (forall s x i, In x l ->
     f s x i = s \/
     exists text meta, f s x i = addDocument s text meta /\
                       Q (mkDocument text meta (createEmbedding text))) ->
  forall (i : nat) (s : Store),
  exists new,
    documents (each_from f i l s) = documents s ++ new /\
    List.length new <= List.length l /\
    Forall Q new /\
    (indexed s -> indexed (each_from f i l s)).
Proof.
  induction l as [ | x r IH ]; intros Hf i s; cbn [each_from].
  - exists []. rewrite app_nil_r.
    split; [reflexivity | split; [apply Nat.le_refl | split; [constructor | tauto] ] ].
  - destruct (IH (fun s' y j Hy => Hf s' y j (or_intror Hy)) (S i) (f s x i))
      as (new & Hdocs & Hlen & HQ & Hidx).
    destruct (Hf s x i (or_introl eq_refl)) as [E | (text & meta & E & Hq)].
    + rewrite E in *. exists new. cbn [List.length].
      split; [exact Hdocs | split; [lia | split; [exact HQ | exact Hidx] ] ].
    + rewrite E in *. exists (mkDocument text meta (createEmbedding text) :: new).
      cbn [List.length]. split; [ | split; [ | split] ].
      * rewrite Hdocs. unfold addDocument. cbn [documents].
        rewrite <- app_assoc. reflexivity.
      * lia.
      * constructor; assumption.
      * intros [Hd He]. apply Hidx. unfold indexed, addDocument.
        cbn [documents embeddings]. split.
        -- apply Forall_app. split; [exact Hd | ].
           constructor; [reflexivity | constructor].
        -- rewrite map_app, He. reflexivity.
Qed.

Lemma nonempty_of_length (s : string) (n : nat) : n < String.length s -> s <> "".
Proof. intros H ->. cbn in H. lia. Qed.

Lemma add_section_adds (page : Page) (sec : section) (s : Store) :
  In sec sections ->
  exists new,
    documents (add_section page s sec) = documents s ++ new /\
    Forall from_section new /\
    (indexed s -> indexed (add_section page s sec)).
Proof.
  intros Hsec. unfold add_section.
  assert (Hf : forall s' x i, In x (element_texts page (selector sec)) ->
             add_element sec s' x i = s' \/
             exists text meta,
               add_element sec s' x i = addDocument s' text meta /\
               from_section (mkDocument text meta (createEmbedding text))).
  { intros s' x i _. unfold add_element.
    destruct (negb (String.eqb (trim x) "") && (20 <? String.length (trim x))%nat)
      eqn:E; [right | left; reflexivity].
    apply andb_prop in E. destruct E as [_ E]. apply Nat.ltb_lt in E.
    exists (trim x), (entry_metadata (type sec) (title sec) i).
    split; [reflexivity | ]. unfold from_section. cbn [text metadata].
    split; [apply TrimFacts.clean_trim; eapply nonempty_of_length; exact E | ].
    split; [exact E | ]. exists sec. split; [exact Hsec | reflexivity]. }
  destruct (each_from_adds from_section (add_element sec) _ Hf 0 s)
    as (new & Hdocs & _ & HQ & Hidx).
  exists new. split; [exact Hdocs | split; [exact HQ | exact Hidx] ].
Qed.

Lemma add_sections_adds (page : Page) (secs : list section) (s : Store) :
  (forall sec, In sec secs -> In sec sections) ->
  exists new,
    documents (fold_left (add_section page) secs s) = documents s ++ new /\
    Forall from_section new /\
    (indexed s -> indexed (fold_left (add_section page) secs s)).
Proof.
  revert s. induction secs as [ | sec r IH ]; intros s Hin; cbn [fold_left].
  - exists []. rewrite app_nil_r.
    split; [reflexivity | split; [constructor | tauto] ].
  - destruct (@add_section_adds page sec s (Hin sec (or_introl eq_refl)))
      as (new1 & H1 & Q1 & I1).
    destruct (IH (add_section page s sec) (fun x Hx => Hin x (or_intror Hx)))
      as (new2 & H2 & Q2 & I2).
    exists (new1 ++ new2). split; [ | split].
    + rewrite H2, H1, <- app_assoc. reflexivity.
    + apply Forall_app. split; assumption.
    + intros Hs. apply I2, I1, Hs.
Qed.

Lemma generalContent_sentences (page : Page) :
  List.length (generalContent page) <= 20 /\
  Forall (fun sentence => 30 < String.length (trim sentence) /\
                          no_period sentence = true)
         (generalContent page).
Proof.
  unfold generalContent, Arr.slice0. split; [apply firstn_le_length | ].
  apply Forall_forall. intros x Hx. apply ArrFacts.In_firstn in Hx.
  apply filter_In in Hx. destruct Hx as [Hx Hlen].
  split; [apply Nat.ltb_lt; exact Hlen | ].
  pose proof (@split_on_pieces "."%char
                (trim (collapse_spaces (body_text page))) "" eq_refl) as Hp.
  rewrite Forall_forall in Hp. apply Hp. exact Hx.
Qed.

(** The loop over the elements of a section stores the documents of the
    elements that are long enough, with their positions. *)
Lemma each_from_add_element (sec : section) (l : list string) (i : nat) (s : Store) :
  documents (each_from (add_element sec) i l s)
  = documents s
    ++ map (fun p => document_of (type sec) (title sec) (fst p) (trim (snd p)))
         (filter (fun p => (20 <? String.length (trim (snd p)))%nat)
            (combine (seq i (List.length l)) l)).
Proof.
  revert i s. induction l as [ | x l IH ]; intros i s;
    cbn [each_from List.length seq combine filter map].
  - rewrite app_nil_r. reflexivity.
  - rewrite IH. unfold add_element. cbn [fst snd].
    destruct (20 <? String.length (trim x))%nat eqn:E.
    + assert (N : String.eqb (trim x) "" = false).
      { apply String.eqb_neq. apply Nat.ltb_lt in E.
        eapply nonempty_of_length. exact E. }
      rewrite N. cbn [negb andb map]. unfold addDocument, document_of.
      cbn [documents]. rewrite <- app_assoc. reflexivity.
    + rewrite Bool.andb_false_r. reflexivity.
Qed.

Lemma fold_add_section (page : Page) (secs : list section) (s : Store) :
  documents (fold_left (add_section page) secs s)
  = documents s ++ List.concat (map (section_documents page) secs).
Proof.
  revert s. induction secs as [ | sec secs IH ]; intros s;
    cbn [fold_left map List.concat].
  - rewrite app_nil_r. reflexivity.
  - rewrite IH. unfold add_section, section_documents.
    rewrite each_from_add_element, <- app_assoc. reflexivity.
Qed.

(** The loop over the sentences of the body stores one document for each,
    with its position. *)
Lemma each_from_add_sentence (l : list string) (i : nat) (s : Store) :
  documents (each_from add_sentence i l s)
  = documents s
    ++ Arr.mapi_from
         (fun sentence index =>
            document_of "general" "General Content" index (trim sentence))
         i l.
Proof.
  revert i s. induction l as [ | x l IH ]; intros i s;
    cbn [each_from Arr.mapi_from].
  - rewrite app_nil_r. reflexivity.
  - rewrite IH. unfold add_sentence, addDocument, document_of.
    cbn [documents]. rewrite <- app_assoc. reflexivity.
Qed.

Lemma section_documents_from_section (page : Page) (sec : section) :
  In sec sections -> Forall from_section (section_documents page sec).
Proof.
  intros Hsec. apply Forall_forall. intros d Hd. unfold section_documents in Hd.
  apply in_map_iff in Hd. destruct Hd as ([i e] & <- & Hp).
  apply filter_In in Hp. destruct Hp as [_ Hlen]. cbn [fst snd] in *.
  apply Nat.ltb_lt in Hlen. unfold from_section, document_of. cbn [text metadata].
  split; [apply TrimFacts.clean_trim; eapply nonempty_of_length; exact Hlen | ].
  split; [exact Hlen | ]. exists sec. split; [exact Hsec | reflexivity].
Qed.

Lemma body_documents_from_body (page : Page) :
  Forall from_body (body_documents page).
Proof.
  apply Forall_forall. intros d Hd. unfold body_documents, Arr.mapi in Hd.
  destruct (RankFacts.mapi_from_In _ _ _ _ Hd) as (j & x & Hj & ->).
  apply nth_error_In in Hj.
  destruct (generalContent_sentences page) as [_ Hsent].
  rewrite Forall_forall in Hsent. destruct (Hsent x Hj) as [Hl Hp].
  unfold from_body, document_of. cbn [text metadata].
  split; [apply TrimFacts.clean_trim; eapply nonempty_of_length; exact Hl | ].
  split; [exact Hl | ]. split; [ | reflexivity].
  apply all_chars_trim. exact Hp.
Qed.

End ScrapeFacts.

Section ScrapedStore.

Import Num Str Data SimpleVectorStore Indexed Scraper ChunkGroups ScrapeFacts.

(** When the scraper returns a store, its documents are those of the page:
    the documents of the five sections, section after section, followed by
    the documents of the sentences of the body, of which there are at most
    twenty; and the store is indexed.  The text of every document is
    trimmed; a text of a section has more than 20 characters and carries
    the type of its section; a text of the body has more than 30
    characters, holds no period and carries the type [general]. *)
Theorem scrapeWebsiteContent_documents (page : Page) (saved : bool) (s : Store) :
  scrapeWebsiteContent (Some page) saved = Some s ->
  documents s
  = List.concat (map (section_documents page) sections) ++ body_documents page /\
  indexed s /\
  List.length (body_documents page) <= 20 /\
  Forall (fun d =>
            clean (text d) /\ 20 < String.length (text d) /\
            exists sec, In sec sections /\
                        field (metadata d) "type" = Some (JStr (type sec)))
         (List.concat (map (section_documents page) sections)) /\
  Forall (fun d =>
            clean (text d) /\ 30 < String.length (text d) /\
            no_period (text d) = true /\
            field (metadata d) "type" = Some (JStr "general"))
         (body_documents page).
Proof.
  unfold scrapeWebsiteContent.
  destruct saved; [ | discriminate]. cbv zeta.
  set (sectionsDone := fold_left (add_section page) sections empty).
  set (vectorStore := each_from add_sentence 0 (generalContent page) sectionsDone).
  intros E. injection E as <-. unfold vectorStore, sectionsDone.
  clear vectorStore sectionsDone.
  split; [ | split; [ | split; [ | split] ] ].
  - rewrite each_from_add_sentence, fold_add_section. reflexivity.
  - destruct (@add_sections_adds page sections empty (fun _ H => H))
      as (found & _ & _ & Ifound).
    assert (Hf : forall s' x i, In x (generalContent page) ->
               add_sentence s' x i = s' \/
               exists text meta,
                 add_sentence s' x i = addDocument s' text meta /\
                 True).
    { intros s' x i _. right.
      exists (trim x), (entry_metadata "general" "General Content" i).
      split; [reflexivity | exact I]. }
    destruct (each_from_adds (fun _ => True) add_sentence _ Hf 0
                (fold_left (add_section page) sections empty))
      as (general & _ & _ & _ & Igen).
    apply Igen, Ifound. split; [constructor | reflexivity].
  - unfold body_documents, Arr.mapi. rewrite RankFacts.mapi_from_length.
    apply generalContent_sentences.
  - apply Forall_forall. intros d Hd. apply in_concat in Hd.
    destruct Hd as (l & Hl & Hd). apply in_map_iff in Hl.
    destruct Hl as (sec & <- & Hsec).
    pose proof (section_documents_from_section page Hsec) as H.
    rewrite Forall_forall in H. exact (H d Hd).
  - exact (body_documents_from_body page).
Qed.

Lemma scrapeWebsiteContent_documents_witness :
  documents Pages.sample_store
  = List.concat (map (section_documents Pages.sample_page) sections)
    ++ body_documents Pages.sample_page /\
  indexed Pages.sample_store /\
  List.length (body_documents Pages.sample_page) <= 20 /\
  Forall (fun d =>
            clean (text d) /\ 20 < String.length (text d) /\
            exists sec, In sec sections /\
                        field (metadata d) "type" = Some (JStr (type sec)))
         (List.concat (map (section_documents Pages.sample_page) sections)) /\
  Forall (fun d =>
            clean (text d) /\ 30 < String.length (text d) /\
            no_period (text d) = true /\
            field (metadata d) "type" = Some (JStr "general"))
         (body_documents Pages.sample_page).
Proof.
  apply (@scrapeWebsiteContent_documents Pages.sample_page true
           Pages.sample_store).
  reflexivity.
Defined.

(** The sample page at work: of the two hero elements only the first is
    long enough, and of the three sentences of the body only the second. *)
Example scrape_sample :
  map (fun d => (text d, field (metadata d) "type", field (metadata d) "index"))
      (documents Pages.sample_store)
  = [("Protect what matters most with us", Some (JStr "hero"), Some (JNum 0%float));
     ("We have protected families and businesses since 1998",
      Some (JStr "general"), Some (JNum 0%float))].
Proof. vm_compute. reflexivity. Qed.

End ScrapedStore.

(** ** The chatbot endpoint *)

Section Endpoint.

Import Num Str Data SimpleVectorStore Indexed Chatbot.

Variable number_to_string : number -> string.

(** A result of the local search has no property [content]. *)
Lemma content_undefined (result : Result) : content result = JUndefined.
Proof. reflexivity. Qed.

Lemma reply_fixed (message : string) (searchResults : list Result) :
  In (reply number_to_string message searchResults) replies.
Proof.
  unfold reply, replies. cbv zeta.
  destruct (contains (toLowerCase message) "hello"
            || contains (toLowerCase message) "hi"
            || contains (toLowerCase message) "hey"); [left; reflexivity | ].
  destruct (contains (toLowerCase message) "thank"
            || contains (toLowerCase message) "thanks");
    [right; left; reflexivity | ].
  destruct searchResults as [ | topResult [ | second more ] ].
  - right; right; left. reflexivity.
  - right; right; right; left. reflexivity.
  - right; right; right; right; left. reflexivity.
Qed.

(** Whatever the store holds and whatever is asked, the answer that the
    endpoint sends with status 200 carries one of five fixed texts: the
    greeting, the thanks, the request for details, or a sentence that
    announces the information found and then reads [undefined] in its
    place, once or twice.  No text of a stored document is ever sent: the
    endpoint reads [content] on results that hold [document] and
    [similarity]. *)
Theorem handler_replies (files : disk) (now : string)
    (chatbotVectorStore : option Store) (method : string) (body : jsval)
    (sent : list (string * jsval)) :
  fst (handler number_to_string files now chatbotVectorStore method body)
  = Json 200 sent ->
  exists response,
    field sent "response" = Some (JStr response) /\
    In response
       [greeting; welcome; fallback;
        "Based on our insurance information: undefined";
        ("Based on our insurance information: undefined" ++ paragraph
         ++ "Additionally: undefined")%string].
Proof.
  unfold handler.
  destruct (String.eqb method "OPTIONS"); [discriminate | ].
  destruct (negb (String.eqb method "POST")); [discriminate | ].
  destruct (get body "message") as [ [ | | b | x | message | items | fields ] | e ];
    try discriminate.
  destruct (String.eqb message ""); [discriminate | ].
  destruct (match chatbotVectorStore with
            | Some s => Some s
            | None => initializeChatbot files
            end) as [s | ]; [ | discriminate].
  cbn [fst]. intros E. injection E as <-.
  exists (reply number_to_string message (search s message 3)).
  split; [reflexivity | apply reply_fixed].
Qed.

Lemma add_text_loaded (s s' : Store) (text : jsval) (meta : Metadata) :
  loaded s -> truthy text = true ->
  map fst meta = ["section"; "keywords"; "id"] \/
  map fst meta = ["category"; "keywords"; "id"] ->
  add_text s text meta = Some s' -> loaded s'.
Proof.
  intros [[Hd He] Hl] Ht Hm. unfold add_text.
  destruct text as [ | | b | x | t | items | fields ]; try discriminate.
  intros E. injection E as <-. unfold loaded, indexed, addDocument.
  cbn [documents embeddings]. split; [split | ].
  - apply Forall_app. split; [exact Hd | ].
    constructor; [reflexivity | constructor].
  - rewrite map_app, He. reflexivity.
  - apply Forall_app. split; [exact Hl | ].
    constructor; [ | constructor]. cbn [SimpleVectorStore.text metadata].
    split; [ | exact Hm].
    intros ->. discriminate Ht.
Qed.

Lemma add_segment_loaded (s s' : Store) (segment : jsval) :
  loaded s -> add_segment s segment = Some s' -> loaded s'.
Proof.
  intros Hs. unfold add_segment.
  destruct (caught (get segment "content")) as [c | ]; [ | discriminate].
  destruct (truthy c) eqn:Ec.
  - apply add_text_loaded; [exact Hs | exact Ec | left; reflexivity].
  - destruct (truthy (read segment "text")) eqn:Et.
    + apply add_text_loaded; [exact Hs | exact Et | right; reflexivity].
    + intros E. injection E as <-. exact Hs.
Qed.

Lemma add_segments_loaded (segments : list jsval) (s s' : Store) :
  loaded s -> add_segments s segments = Some s' ->
  loaded s' /\ List.length (documents s') <= List.length (documents s) + List.length segments.
Proof.
  revert s. induction segments as [ | segment rest IH ]; intros s Hs;
    cbn [add_segments].
  - intros E. injection E as <-. split; [exact Hs | lia].
  - destruct (add_segment s segment) as [s1 | ] eqn:E1; [ | discriminate].
    intros E. destruct (IH s1 (add_segment_loaded _ Hs E1) E) as [H1 H2].
    split; [exact H1 | ].
    assert (L : List.length (documents s1) <= S (List.length (documents s))).
    { revert E1. unfold add_segment, add_text.
      destruct (caught (get segment "content")) as [c | ]; [ | discriminate].
      destruct (truthy c).
      - destruct c; try discriminate. intros E'. injection E' as <-.
        unfold addDocument. cbn [documents]. rewrite length_app. cbn. lia.
      - destruct (truthy (read segment "text")).
        + destruct (read segment "text"); try discriminate.
          intros E'. injection E' as <-.
          unfold addDocument. cbn [documents]. rewrite length_app. cbn. lia.
        + intros E'. injection E' as <-. lia. }
    cbn [List.length]. lia.
Qed.

(** When [initializeChatbot] succeeds, the store it leaves is indexed, no
    document of it has the empty text, and every document carries the
    three metadata names of the format of its segment. *)
Theorem initializeChatbot_loaded (files : disk) (s : Store) :
  initializeChatbot files = Some s ->
  indexed s /\
  Forall (fun d =>
            text d <> "" /\
            (map fst (metadata d) = ["section"; "keywords"; "id"] \/
             map fst (metadata d) = ["category"; "keywords"; "id"]))
         (documents s).
Proof.
  unfold initializeChatbot.
  destruct (knowledgeData files) as [data | ]; [ | discriminate].
  destruct (segments_of data) as [ [ | | b | x | t | [ | segment rest ] | fields ] | ];
    try discriminate.
  intros E. apply add_segments_loaded in E; [apply E | ].
  split; [split; [constructor | reflexivity] | constructor].
Qed.

End Endpoint.

Lemma handler_replies_witness :
  exists response,
    Data.field Requests.health_body "response" = Some (Data.JStr response) /\
    In response
       [Chatbot.greeting; Chatbot.welcome; Chatbot.fallback;
        "Based on our insurance information: undefined";
        ("Based on our insurance information: undefined" ++ Chatbot.paragraph
         ++ "Additionally: undefined")%string].
Proof.
  apply (@handler_replies Requests.silent Requests.knowledge_files "2024-01-01T00:00:00.000Z"
           (Some Examples.insurance_store) "POST"
           (Data.JObj [("message", Data.JStr "health insurance")])
           Requests.health_body).
  vm_compute. reflexivity.
Defined.

Lemma initializeChatbot_loaded_witness :
  Indexed.indexed Requests.knowledge_store /\
  Forall (fun d =>
            SimpleVectorStore.text d <> "" /\
            (map fst (SimpleVectorStore.metadata d) = ["section"; "keywords"; "id"] \/
             map fst (SimpleVectorStore.metadata d) = ["category"; "keywords"; "id"]))
         (SimpleVectorStore.documents Requests.knowledge_store).
Proof.
  apply (@initializeChatbot_loaded Requests.knowledge_files
           Requests.knowledge_store).
  vm_compute. reflexivity.
Defined.

(** The endpoint at work.  Two documents are found for the question, and
    the answer names neither. *)
Example handler_health :
  Requests.health_answer
  = Chatbot.Json 200
      [("response",
        Data.JStr ("Based on our insurance information: undefined"
                   ++ Chatbot.paragraph ++ "Additionally: undefined")%string);
       ("timestamp", Data.JStr "2024-01-01T00:00:00.000Z")] /\
  map (fun d => SimpleVectorStore.text d)
      (SimpleVectorStore.documents Requests.knowledge_store)
  = ["We offer health insurance"; "Call us today"].
Proof. split; vm_compute; reflexivity. Qed.

(** ** The search demo *)

Section Demo.

Import Num Data Arr VectorStore VectorSearchDemo ArrFacts RankFacts.

Variable embedContent : string -> completion (list number).

(** With a metadata entry for every vector, every result has metadata. *)
Lemma rank_has_metadata (s : Store) (queryEmbedding : list number) (topK : nat) :
  List.length (vectors s) <= List.length (metadata s) ->
  forallb has_metadata (rank s queryEmbedding topK) = true.
Proof.
  intros H. apply forallb_forall. intros r Hr.
  destruct (rank_In _ _ _ _ Hr) as (v & Hv & Er).
  assert (Hi : index r < List.length (vectors s)).
  { apply nth_error_Some. rewrite Hv. discriminate. }
  rewrite Er. unfold has_metadata, score. cbn [meta].
  destruct (nth_error (metadata s) (index r)) eqn:E; [reflexivity | ].
  apply nth_error_None in E. lia.
Qed.

(** The vector at position [j] is among the results when [topK] covers
    the store. *)
Lemma rank_covers (s : Store) (queryEmbedding : list number) (topK j : nat)
    (v : list number) :
  List.length (vectors s) <= topK ->
  nth_error (vectors s) j = Some v ->
  In (score s queryEmbedding v j) (rank s queryEmbedding topK).
Proof.
  intros Hk Hj. unfold rank, slice0, mapi.
  rewrite firstn_all2
    by (rewrite (sort_length by_similarity), mapi_from_length; exact Hk).
  apply (Permutation_in _ (Permutation_sym (sort_perm by_similarity _))).
  assert (G : forall l i j, nth_error l j = Some v ->
                In (score s queryEmbedding v (i + j))
                   (mapi_from (score s queryEmbedding) i l)).
  { clear. induction l as [ | a l IH ]; intros i [ | j ]; cbn;
      try discriminate.
    - intros [= ->]. left. rewrite Nat.add_0_r. reflexivity.
    - intros H. right. rewrite <- Nat.add_succ_comm. apply IH. exact H. }
  apply (G (vectors s) 0 j Hj).
Qed.

(** A loaded demo whose query is embedded returns what the store ranks
    when every vector has its metadata.  When the store holds more vectors
    than metadata, as after loading a file without a [metadata] field, and
    [topK] covers the store, the search throws a [TypeError] while it
    prints, although the store has ranked the results. *)
Theorem demo_search_outcome (d : Demo) (query : string) (topK : nat)
    (queryEmbedding : list number) :
  isLoaded d = true ->
  embedContent query = Return queryEmbedding ->
  (List.length (vectors (store (vectorStore d)))
   <= List.length (metadata (store (vectorStore d))) ->
   fst (search embedContent d query topK)
   = Return (rank (store (vectorStore d)) queryEmbedding topK)) /\
  (List.length (metadata (store (vectorStore d)))
   < List.length (vectors (store (vectorStore d))) ->
   List.length (vectors (store (vectorStore d))) <= topK ->
   fst (search embedContent d query topK) = Throw "TypeError").
Proof.
  intros Hl Hq. unfold search, VectorStore.search, generateEmbedding.
  rewrite Hl, Hq. cbn [negb store]. unfold print_results. split.
  - intros H. rewrite (@rank_has_metadata _ queryEmbedding topK H). reflexivity.
  - intros Hm Hk.
    destruct (nth_error (vectors (store (vectorStore d)))
                (List.length (metadata (store (vectorStore d))))) as [v | ] eqn:Ev;
      [ | apply nth_error_None in Ev; lia ].
    pose proof (@rank_covers _ queryEmbedding _ _ _ Hk Ev) as Hin.
    destruct (forallb has_metadata (rank (store (vectorStore d)) queryEmbedding topK))
      eqn:E; [ | reflexivity ].
    exfalso. rewrite forallb_forall in E. specialize (E _ Hin).
    unfold has_metadata, score in E. cbn [meta] in E.
    rewrite (proj2 (nth_error_None _ _) (Nat.le_refl _)) in E. discriminate E.
Qed.

End Demo.

Lemma demo_search_outcome_witness :
  (List.length (VectorStore.vectors (VectorStore.store (VectorSearchDemo.vectorStore Demos.loaded_demo)))
   <= List.length (VectorStore.metadata (VectorStore.store (VectorSearchDemo.vectorStore Demos.loaded_demo))) ->
   fst (VectorSearchDemo.search Examples.constant_service Demos.loaded_demo "health" 5)
   = Return (VectorStore.rank (VectorStore.store (VectorSearchDemo.vectorStore Demos.loaded_demo))
               [1%float; 1%float] 5)) /\
  (List.length (VectorStore.metadata (VectorStore.store (VectorSearchDemo.vectorStore Demos.loaded_demo)))
   < List.length (VectorStore.vectors (VectorStore.store (VectorSearchDemo.vectorStore Demos.loaded_demo))) ->
   List.length (VectorStore.vectors (VectorStore.store (VectorSearchDemo.vectorStore Demos.loaded_demo))) <= 5 ->
   fst (VectorSearchDemo.search Examples.constant_service Demos.loaded_demo "health" 5)
   = Throw "TypeError").
Proof.
  apply (@demo_search_outcome Examples.constant_service Demos.loaded_demo
           "health" 5 [1%float; 1%float]); reflexivity.
Defined.

(** The demo at work: a file saved without metadata loads, and the first
    search over it fails while printing. *)
Example demo_without_metadata :
  VectorSearchDemo.isLoaded Demos.loaded_demo = true /\
  VectorStore.metadata (VectorStore.store (VectorSearchDemo.vectorStore Demos.loaded_demo)) = [] /\
  fst (VectorStore.search Examples.constant_service
         (VectorSearchDemo.vectorStore Demos.loaded_demo) "health" 5)
  = Return [VectorStore.mkResult (Some "a") None
              (VectorStore.calculateSimilarity [1%float; 1%float] [1%float]) 0] /\
  fst (VectorSearchDemo.search Examples.constant_service Demos.loaded_demo "health" 5)
  = Throw "TypeError" /\
  fst (VectorSearchDemo.search Examples.constant_service Demos.new_demo "health" 5)
  = Return [].
Proof. repeat split; vm_compute; reflexivity. Qed.

(** ** The chatbot endpoint of the server *)

Section ServerEndpoint.

Import Num Str Data SimpleVectorStore Server.

Lemma excerpt_nonempty (n : nat) (s : string) :
  0 < n -> s <> "" -> excerpt n s <> "".
Proof.
  intros Hn Hs. unfold excerpt.
  destruct s as [ | c r ]; [congruence | ].
  destruct n as [ | n ]; [lia | ]. cbn. discriminate.
Qed.

Lemma or_else_nonempty (x y : string) : y <> "" -> or_else x y <> "".
Proof.
  intros Hy. unfold or_else.
  destruct (String.eqb_spec x ""); [exact Hy | assumption].
Qed.

(** Every branch of the chain gives a text. *)
Lemma response_nonempty (message : string) (searchResults : list Result) :
  response message searchResults <> "".
Proof.
  unfold response. destruct searchResults as [ | bestMatch rest ];
    [discriminate | ].
  cbv zeta. unfold statistics_reply. cbv zeta.
  repeat match goal with
         | |- (if String.eqb ?x "" then _ else _) <> "" =>
             destruct (String.eqb_spec x "")
         | |- (if (50 <? ?n)%nat then _ else _) <> "" =>
             destruct (Nat.ltb_spec 50 n)
         | |- (if ?b then _ else _) <> "" => destruct b
         end;
    try discriminate;
    try (apply or_else_nonempty; discriminate);
    try (apply excerpt_nonempty; [lia | assumption]).
  apply excerpt_nonempty; [lia | ].
  intros E. rewrite E in *. cbn in *. lia.
Qed.

(** With a store at hand, a message that is a non-empty string is always
    answered: the endpoint reports success, a text that is not empty, and
    as [sources] the number of documents found, at most five; the store
    stays in place. *)
Theorem chatbot_answers (reinitialized : option Store) (s : Store) (body : jsval)
    (text : string) :
  Chatbot.get body "message" = Return (JStr text) ->
  text <> "" ->
  exists reply sources,
    chatbot reinitialized (Some s) body
    = ([("success", JBool true); ("message", JStr reply);
        ("sources", JNum (of_nat sources))],
       Some s) /\
    reply <> "" /\
    sources = List.length (search s text 5) /\
    sources <= 5.
Proof.
  intros Hb Ht. unfold chatbot. rewrite Hb. cbn [Chatbot.truthy].
  apply String.eqb_neq in Ht. rewrite Ht. cbn [negb]. cbv zeta.
  exists (response text (search s text 5)), (List.length (search s text 5)).
  split; [reflexivity | ]. split; [apply response_nonempty | ].
  split; [reflexivity | ].
  unfold search.
  eapply Nat.le_trans; [apply filter_length_le | apply firstn_le_length].
Qed.

(** When no stored document holds a word of the message, the search finds
    nothing and the endpoint asks to be more specific, whatever the message
    asks for: the chain of key words is only consulted when something was
    found. *)
Theorem chatbot_nothing_in_common (reinitialized : option Store) (s : Store)
    (text : string) :
  text <> "" ->
  (forall d w, In d (documents s) ->
               In w (match_words (toLowerCase text)) ->
               ~ In w (vocabulary (embedding d))) ->
  fst (chatbot reinitialized (Some s) (JObj [("message", JStr text)]))
  = [("success", JBool true); ("message", JStr clarification);
     ("sources", JNum (of_nat 0))].
Proof.
  intros Ht Hno. unfold chatbot. cbn [Chatbot.get field String.eqb Ascii.eqb Bool.eqb].
  cbn [Chatbot.truthy].
  apply String.eqb_neq in Ht. rewrite Ht. cbn [negb fst]. cbv zeta.
  assert (E : search s text 5 = []).
  { destruct (search s text 5) as [ | r rest ] eqn:E; [reflexivity | exfalso ].
    assert (Hr : In r (search s text 5)) by (rewrite E; left; reflexivity).
    apply search_common in Hr. destruct Hr as (Hd & w & Hq & Hw).
    apply vocabulary_in_words in Hq. exact (Hno _ _ Hd Hq Hw). }
  rewrite E. reflexivity.
Qed.

End ServerEndpoint.

Lemma chatbot_answers_witness :
  exists reply sources,
    Server.chatbot None (Some Examples.insurance_store)
      (Data.JObj [("message", Data.JStr "Tell me about health insurance")])
    = ([("success", Data.JBool true); ("message", Data.JStr reply);
        ("sources", Data.JNum (Num.of_nat sources))],
       Some Examples.insurance_store) /\
    reply <> "" /\
    sources = List.length (SimpleVectorStore.search Examples.insurance_store
                             "Tell me about health insurance" 5) /\
    sources <= 5.
Proof.
  apply (@chatbot_answers None Examples.insurance_store
           (Data.JObj [("message", Data.JStr "Tell me about health insurance")])
           "Tell me about health insurance").
  - reflexivity.
  - discriminate.
Defined.

Lemma chatbot_nothing_in_common_witness :
  fst (Server.chatbot None (Some Examples.insurance_store)
         (Data.JObj [("message", Data.JStr "Contact phone?")]))
  = [("success", Data.JBool true); ("message", Data.JStr Server.clarification);
     ("sources", Data.JNum (Num.of_nat 0))].
Proof.
  apply (@chatbot_nothing_in_common None Examples.insurance_store "Contact phone?").
  - discriminate.
  - intros d w Hd Hw Hin. vm_compute in Hd, Hw.
    destruct Hw as [<- | [<- | []]];
      destruct Hd as [<- | [<- | [<- | []]]];
      vm_compute in Hin;
      repeat (destruct Hin as [Hin | Hin]; [discriminate Hin | ]); exact Hin.
Defined.

(** The endpoint at work over the three insurance documents: a question
    about insurance is answered with the stored texts that name it, the two
    best first. *)
Example chatbot_insurance :
  fst (Server.chatbot None (Some Examples.insurance_store)
         (Data.JObj [("message", Data.JStr "Tell me about health insurance")]))
  = [("success", Data.JBool true);
     ("message",
      Data.JStr "auto insurance for your car life insurance for family");
     ("sources", Data.JNum 3%float)].
Proof. vm_compute. reflexivity. Qed.

(** ** Where the records of a text end up, and which vectors a search returns *)

Section Alignment.

Import Num Data Arr VectorStore Appending ArrFacts RankFacts.

Variable embedContent : string -> completion (list number).

Lemma mapi_from_nth (A B : Type) (f : A -> nat -> B) (l : list A) (i j : nat) (x : A) :
  nth_error l j = Some x -> nth_error (mapi_from f i l) j = Some (f x (i + j)).
Proof.
  revert i j. induction l as [ | a l IH ]; intros i [ | j ]; cbn;
    try discriminate.
  - intros [= ->]. rewrite Nat.add_0_r. reflexivity.
  - intros H. rewrite <- Nat.add_succ_comm. apply IH. exact H.
Qed.

Lemma Forall2_nth (A B : Type) (R : A -> B -> Prop) (l : list A) (l' : list B)
    (j : nat) (x : A) :
  Forall2 R l l' -> nth_error l j = Some x ->
  exists y, nth_error l' j = Some y /\ R x y.
Proof.
  intros H. revert j. induction H as [ | a b l l' Hab _ IH ]; intros [ | j ]; cbn;
    try discriminate.
  - intros [= ->]. exists b. split; [reflexivity | exact Hab].
  - apply IH.
Qed.

(** After [addText] has stored a text in a store whose three arrays have
    the same length, the records of its chunks sit side by side: chunk
    number [i] of the text, the vector the service answered for it, and its
    metadata are found at the same position of [texts], [vectors] and
    [metadata], the position [i] past the records that were there. *)
Theorem addText_aligned (st : State) (text : string) (meta : Metadata)
    (i : nat) (chunk : string) :
  parallel (store st) ->
  (forall c, In c (splitTextIntoChunks text default_maxChunkSize) ->
             exists v, embedContent c = Return v) ->
  nth_error (splitTextIntoChunks text default_maxChunkSize) i = Some chunk ->
  exists v,
    embedContent chunk = Return v /\
    nth_error (texts (store (snd (addText embedContent st text meta))))
              (List.length (texts (store st)) + i) = Some chunk /\
    nth_error (vectors (store (snd (addText embedContent st text meta))))
              (List.length (texts (store st)) + i) = Some v /\
    nth_error (metadata (store (snd (addText embedContent st text meta))))
              (List.length (texts (store st)) + i)
    = Some (chunk_metadata meta i
              (List.length (splitTextIntoChunks text default_maxChunkSize))
              (String.length text)).
Proof.
  intros [Pv Pm] Hall Hi. unfold addText.
  destruct (add_chunks_outcome embedContent meta
              (List.length (splitTextIntoChunks text default_maxChunkSize))
              (String.length text)
              (splitTextIntoChunks text default_maxChunkSize) st 0)
    as (done & vs & remaining & Hrest & Hvs & Hstore & Hout).
  destruct Hout as [(Hrem & _) | (e & c & later & Hrem & Hc & _)].
  - subst remaining. rewrite app_nil_r in Hrest. subst done.
    destruct (Forall2_nth _ Hvs Hi) as (v & Hv & Ev).
    exists v. split; [exact Ev | ].
    rewrite Hstore. unfold appended. cbn [texts vectors metadata].
    split; [ | split].
    + rewrite nth_error_app2 by lia.
      replace (List.length (texts (store st)) + i - List.length (texts (store st)))
        with i by lia.
      exact Hi.
    + rewrite nth_error_app2 by lia.
      replace (List.length (texts (store st)) + i - List.length (vectors (store st)))
        with i by lia.
      exact Hv.
    + rewrite nth_error_app2 by lia.
      replace (List.length (texts (store st)) + i - List.length (metadata (store st)))
        with i by lia.
      apply (mapi_from_nth
               (fun (_ : string) j =>
                  chunk_metadata meta j
                    (List.length (splitTextIntoChunks text default_maxChunkSize))
                    (String.length text)) _ 0 _ Hi).
  - exfalso. destruct (Hall c) as [v Hv].
    + rewrite Hrest, Hrem. apply in_or_app. right. left. reflexivity.
    + congruence.
Qed.

Lemma mapi_from_indices (s : Store) (queryEmbedding : list number)
    (l : list (list number)) (i : nat) :
  map index (mapi_from (score s queryEmbedding) i l) = seq i (List.length l).
Proof.
  revert i. induction l as [ | v l IH ]; intros i; cbn; [reflexivity | ].
  rewrite IH. reflexivity.
Qed.

Lemma NoDup_firstn (A : Type) (n : nat) (l : list A) : NoDup l -> NoDup (firstn n l).
Proof.
  intros H. rewrite <- (firstn_skipn n l) in H.
  apply NoDup_app_remove_r in H. exact H.
Qed.

(** A search returns no stored vector twice: the positions of its results
    are distinct positions of the store. *)
Theorem rank_positions (s : Store) (queryEmbedding : list number) (topK : nat) :
  NoDup (map index (rank s queryEmbedding topK)) /\
  Forall (fun r => index r < List.length (vectors s))
         (rank s queryEmbedding topK).
Proof.
  split.
  - unfold rank, slice0, mapi. rewrite <- firstn_map. apply NoDup_firstn.
    apply (Permutation_NoDup
             (Permutation_map index
                (Permutation_sym (sort_perm by_similarity _)))).
    rewrite mapi_from_indices. apply seq_NoDup.
  - apply Forall_forall. intros r Hr.
    destruct (rank_In _ _ _ _ Hr) as (v & Hv & _).
    apply nth_error_Some. rewrite Hv. discriminate.
Qed.

End Alignment.

Lemma addText_aligned_witness :
  exists v,
    MoreExamples.constant_embedder MoreExamples.long_text_second = Return v /\
    nth_error
      (VectorStore.texts
         (VectorStore.store
            (snd (VectorStore.addText MoreExamples.constant_embedder
                    MoreExamples.fresh MoreExamples.long_text []))))
      (List.length (VectorStore.texts (VectorStore.store MoreExamples.fresh)) + 1)
    = Some MoreExamples.long_text_second /\
    nth_error
      (VectorStore.vectors
         (VectorStore.store
            (snd (VectorStore.addText MoreExamples.constant_embedder
                    MoreExamples.fresh MoreExamples.long_text []))))
      (List.length (VectorStore.texts (VectorStore.store MoreExamples.fresh)) + 1)
    = Some v /\
    nth_error
      (VectorStore.metadata
         (VectorStore.store
            (snd (VectorStore.addText MoreExamples.constant_embedder
                    MoreExamples.fresh MoreExamples.long_text []))))
      (List.length (VectorStore.texts (VectorStore.store MoreExamples.fresh)) + 1)
    = Some (VectorStore.chunk_metadata [] 1
              (List.length (VectorStore.splitTextIntoChunks MoreExamples.long_text
                              VectorStore.default_maxChunkSize))
              (String.length MoreExamples.long_text)).
Proof.
  apply (@addText_aligned MoreExamples.constant_embedder MoreExamples.fresh
           MoreExamples.long_text [] 1 MoreExamples.long_text_second).
  - split; reflexivity.
  - intros c _. exists [1%float]. reflexivity.
  - vm_compute. reflexivity.
Defined.
